(** * The model-list loader of [AIModelSelectorEnhanced.tsx]

    A shallow embedding of the asynchronous loader [loadRemoteModels] of
    src/components/AIModelSelectorEnhanced.tsx together with the pure helpers
    it relies on ([resolveOwnedByIcon], the response mapping, the dirty-base
    display rule and the memoised list handed to the model picker) and of
    the handlers and effects that call it, followed by the properties the
    specification states about them and by further properties of the
    code.

    Conventions of the embedding.
    - A JavaScript string is a [string] of the Standard Library, read as its
      sequence of code units, each below 256.  White space is the
      ECMAScript class on those code units; case mapping is the ASCII
      one, so [toLowerCase] is exact on ASCII text.
    - [x | undefined] is [option x]; an optional string the code only ever
      tests for truthiness is a plain [string] with [""] for absence.
    - A value that comes out of [response.json()] is a [JsValue]; numbers are
      binary64 floats, as in the language.
    - The asynchronous function is cut at its [await]s: each synchronous
      segment is a function from the component state to the new state and
      either [Returned] or the suspended continuation.  Segments of
      different invocations interleave freely; within a segment nothing
      else runs.
    - The state record gathers the props the loader reads, the [useState]
      and [useRef] cells it reads or writes, and a log of the [fetch] calls.
      The selected model is owned by the host: [setReasoningModel] stores
      it, and a call of the loader binds the value of the current render.
    - [normalizeBaseUrl] and [buildApiUrl] (../config/constants) are not
      among the sources: every definition and theorem takes them as
      parameters, and the instances written from the specification are used
      only to run concrete scenarios. *)

From Stdlib Require Import String Ascii List Bool Arith NArith Lia.
From Stdlib Require Import PrimFloat DecimalString.
Import ListNotations.

#[local] Set Warnings "-register-all".

Local Open Scope string_scope.
Local Open Scope list_scope.
Local Open Scope nat_scope.

(* ================================================================== *)
(** ** JavaScript strings *)

Module JsString.

(** [s.length] *)
Definition length (s : string) : nat := String.length s.

(** [s.startsWith(p)] *)
Definition startsWith (s p : string) : bool := String.prefix p s.

(** [s.includes(sub)]: [sub] occurs at some position of [s]. *)
Fixpoint includes (s sub : string) : bool :=
  startsWith s sub ||
  match s with
  | EmptyString => false
  | String _ rest => includes rest sub
  end.

(** [s.slice(0, n)] *)
Definition slice0 (s : string) (n : nat) : string := substring 0 n s.

(** White space removed by [trim]: the members of the ECMAScript
    WhiteSpace and LineTerminator classes among the code units below 256
    (tab, line feed, vertical tab, form feed, carriage return, space and
    the no-break space U+00A0). *)
Definition isWhiteSpace (c : ascii) : bool :=
  let n := nat_of_ascii c in
  (n =? 9) || (n =? 10) || (n =? 11) || (n =? 12) || (n =? 13) || (n =? 32)
  || (n =? 160).

Fixpoint trimStart (s : string) : string :=
  match s with
  | EmptyString => EmptyString
  | String c rest => if isWhiteSpace c then trimStart rest else s
  end.

Fixpoint trimEnd (s : string) : string :=
  match s with
  | EmptyString => EmptyString
  | String c rest =>
      match trimEnd rest with
      | EmptyString => if isWhiteSpace c then EmptyString else String c EmptyString
      | rest' => String c rest'
      end
  end.

(** [s.trim()] *)
Definition trim (s : string) : string := trimEnd (trimStart s).

Definition isUpper (c : ascii) : bool :=
  let n := nat_of_ascii c in (65 <=? n) && (n <=? 90).

Definition lowerChar (c : ascii) : ascii :=
  if isUpper c then ascii_of_nat (nat_of_ascii c + 32) else c.

Definition isLower (c : ascii) : bool :=
  let n := nat_of_ascii c in (97 <=? n) && (n <=? 122).

Definition upperChar (c : ascii) : ascii :=
  if isLower c then ascii_of_nat (nat_of_ascii c - 32) else c.

Fixpoint mapChars (f : ascii -> ascii) (s : string) : string :=
  match s with
  | EmptyString => EmptyString
  | String c rest => String (f c) (mapChars f rest)
  end.

(** [s.toLowerCase()] and [s.toUpperCase()] *)
Definition toLowerCase (s : string) : string := mapChars lowerChar s.
Definition toUpperCase (s : string) : string := mapChars upperChar s.

(** Truthiness of a string: [!!s]. *)
Definition truthy (s : string) : bool :=
  match s with EmptyString => false | _ => true end.

(** [`${n}`] for a non-negative integer. *)
Definition ofN (n : N) : string := NilZero.string_of_uint (N.to_uint n).

(** The regular-expression class [\w]. *)
Definition isWordChar (c : ascii) : bool :=
  let n := nat_of_ascii c in
  ((48 <=? n) && (n <=? 57)) || isUpper c || isLower c || (n =? 95).

Definition isWord (c : option ascii) : bool :=
  match c with Some a => isWordChar a | None => false end.

(** The assertion [\b] between a character and its successor (either of
    which is absent at the ends of the input). *)
Definition wordBoundary (before after : option ascii) : bool :=
  xorb (isWord before) (isWord after).

Definition head (s : string) : option ascii :=
  match s with EmptyString => None | String c _ => Some c end.

Fixpoint last (s : string) (dflt : option ascii) : option ascii :=
  match s with
  | EmptyString => dflt
  | String c rest => last rest (Some c)
  end.

Fixpoint drop (n : nat) (s : string) : string :=
  match n, s with
  | O, _ => s
  | S n', String _ rest => drop n' rest
  | S _, EmptyString => EmptyString
  end.

(** A match of [\b(alt1|alt2|...)\b] that starts at the head of [s], the
    character before it being [before]. *)
Definition matchWordHere (alts : list string) (before : option ascii)
           (s : string) : bool :=
  existsb
    (fun alt =>
       wordBoundary before (head s)
       && startsWith s alt
       && wordBoundary (last alt before) (head (drop (length alt) s)))
    alts.

Fixpoint testWordFrom (alts : list string) (before : option ascii)
         (s : string) : bool :=
  matchWordHere alts before s ||
  match s with
  | EmptyString => false
  | String c rest => testWordFrom alts (Some c) rest
  end.

(** [/\b(alt1|alt2|...)\b/.test(s)] *)
Definition testWord (alts : list string) (s : string) : bool :=
  testWordFrom alts None s.

(** Every character of [s] satisfies [p]. *)
Fixpoint everyChar (p : ascii -> bool) (s : string) : bool :=
  match s with
  | EmptyString => true
  | String c rest => p c && everyChar p rest
  end.

(** [/(alt1|alt2|...)/.test(s)] for literal alternatives. *)
Definition testAny (alts : list string) (s : string) : bool :=
  existsb (includes s) alts.

End JsString.

(* ================================================================== *)
(** ** JavaScript values produced by [response.json()] *)

Module Js.

Inductive JsValue : Type :=
| JsUndefined
| JsNull
| JsBool (b : bool)
| JsNumber (x : float)
| JsString (s : string)
| JsArray (items : list JsValue)
| JsObject (props : list (string * JsValue)).

(** [!!v] *)
Definition truthy (v : JsValue) : bool :=
  match v with
  | JsUndefined | JsNull => false
  | JsBool b => b
  | JsNumber x => negb (PrimFloat.eqb x 0%float || PrimFloat.is_nan x)
  | JsString s => JsString.truthy s
  | JsArray _ | JsObject _ => true
  end.

(** [a || b] *)
Definition or (a b : JsValue) : JsValue := if truthy a then a else b.

(** Own property of a parsed object; the list holds each key once. *)
Fixpoint lookup (key : string) (props : list (string * JsValue)) : JsValue :=
  match props with
  | [] => JsUndefined
  | (k, v) :: rest => if String.eqb k key then v else lookup key rest
  end.

(** [v?.key] for the keys the loader reads ([data], [models], [id],
    [name], [owned_by], [description]): none of them is a property of a
    primitive or of an array. *)
Definition get (v : JsValue) (key : string) : JsValue :=
  match v with
  | JsObject props => lookup key props
  | _ => JsUndefined
  end.

(** [a === b], one side freshly parsed: objects and arrays are new
    references, equal to nothing that existed before. *)
Definition strictEq (a b : JsValue) : bool :=
  match a, b with
  | JsUndefined, JsUndefined => true
  | JsNull, JsNull => true
  | JsBool x, JsBool y => Bool.eqb x y
  | JsNumber x, JsNumber y => PrimFloat.eqb x y
  | JsString x, JsString y => String.eqb x y
  | _, _ => false
  end.

End Js.

Import Js.

(* ================================================================== *)
(** ** Provider icons (lines 11-56 of the source) *)

Record CloudModelOption : Type := {
  value : JsValue;
  label : JsValue;
  description : JsValue;
  icon : option string;
  ownedBy : option string
}.

Definition ICON_BASE_PATH : string := "/assets/icons/providers".

(** A rule of [OWNED_BY_ICON_RULES]; its [match] is an alternation of
    literals, kept as the list of its alternatives. *)
Record IconRule : Type := {
  rule_match : list string;
  rule_icon : string
}.

Definition OWNED_BY_ICON_RULES : list IconRule :=
  [ {| rule_match := ["openai"; "system"; "default"; "gpt"; "davinci"];
       rule_icon := "openai" |};
    {| rule_match := ["azure"]; rule_icon := "openai" |};
    {| rule_match := ["anthropic"; "claude"]; rule_icon := "anthropic" |};
    {| rule_match := ["google"; "gemini"]; rule_icon := "gemini" |};
    {| rule_match := ["meta"; "llama"]; rule_icon := "llama" |};
    {| rule_match := ["mistral"]; rule_icon := "mistral" |};
    {| rule_match := ["qwen"; "ali"; "tongyi"]; rule_icon := "qwen" |};
    {| rule_match := ["openrouter"; "oss"]; rule_icon := "openai-oss" |} ].

Definition iconPath (iconId : string) : string :=
  String.append ICON_BASE_PATH (String.append "/" (String.append iconId ".svg")).

Definition resolveOwnedByIcon (ownedBy : option string) : option string :=
  match ownedBy with
  | None => None
  | Some o =>
      if negb (JsString.truthy o) then None
      else
        let normalized := JsString.toLowerCase o in
        match find (fun r => JsString.testAny (rule_match r) normalized)
                   OWNED_BY_ICON_RULES with
        | Some rule => Some (iconPath (rule_icon rule))
        | None => None
        end
  end.

(* ================================================================== *)
(** ** Reading the response (lines 281-309) *)

(** [await response.json().catch(() => ({}))]: [None] is a body that does
    not parse. *)
Definition parsePayload (body : option JsValue) : JsValue :=
  match body with
  | Some payload => payload
  | None => JsObject []
  end.

Definition rawModelsOf (payload : JsValue) : list JsValue :=
  match get payload "data" with
  | JsArray data => data
  | _ =>
      match get payload "models" with
      | JsArray models => models
      | _ => []
      end
  end.

(** The callback of [.map]: [None] is the [null] that [.filter(Boolean)]
    removes. *)
Definition mapItem (item : JsValue) : option CloudModelOption :=
  let v := Js.or (get item "id") (get item "name") in
  if negb (Js.truthy v) then None
  else
    let owner :=
      match get item "owned_by" with
      | JsString o => Some o
      | _ => None
      end in
    Some {| value := v;
            label := Js.or (Js.or (get item "id") (get item "name")) v;
            description :=
              Js.or (get item "description")
                    (match owner with
                     | Some o =>
                         if JsString.truthy o
                         then JsString (String.append "Owner: " o)
                         else JsUndefined
                     | None => JsUndefined
                     end);
            icon := resolveOwnedByIcon owner;
            ownedBy := owner |}.

Fixpoint mapModels (rawModels : list JsValue) : list CloudModelOption :=
  match rawModels with
  | [] => []
  | item :: rest =>
      match mapItem item with
      | Some m => m :: mapModels rest
      | None => mapModels rest
      end
  end.

(* ================================================================== *)
(** ** Dirty-base display rule (lines 352-361) *)

Definition isCustomBaseDirty (customBaseInput cloudReasoningBaseUrl : string) : bool :=
  negb (String.eqb (JsString.trim customBaseInput)
                   (JsString.trim cloudReasoningBaseUrl)).

Definition displayedCustomModels (customBaseInput cloudReasoningBaseUrl : string)
           (customModelOptions : list CloudModelOption) : list CloudModelOption :=
  if isCustomBaseDirty customBaseInput cloudReasoningBaseUrl then []
  else customModelOptions.

(* ================================================================== *)
(** ** The external URL helpers, as the specification describes them *)

Fixpoint stripTrailingSlashes (s : string) : string :=
  match s with
  | EmptyString => EmptyString
  | String c rest =>
      match stripTrailingSlashes rest with
      | EmptyString =>
          if Ascii.eqb c "/"%char then EmptyString else String c EmptyString
      | rest' => String c rest'
      end
  end.

(** Modelled from the spec: [normalizeBaseUrl] of ../config/constants is not
    part of the sources; section 4.1 step 1 gives it as "trim, strip trailing
    slash".  The loader below takes the normalizer as a parameter; this
    instance only serves to run it on concrete inputs. *)
Definition specNormalizeBaseUrl (raw : string) : string :=
  stripTrailingSlashes (JsString.trim raw).

(** Modelled from the spec: [buildApiUrl] of ../config/constants is not part
    of the sources; section 6 gives the request as
    [GET {normalizedBase}/models]. *)
Definition specBuildApiUrl (base path : string) : string :=
  String.append base path.

(* ================================================================== *)
(** ** The component state and [loadRemoteModels] (lines 145-351) *)

(** A call of [fetch(modelsUrl, { method: 'GET', headers })]. *)
Record Request : Type := {
  req_url : string;
  req_authorization : option string
}.

(** Props owned by the host, [useState] cells, [useRef] cells, and the log
    of the [fetch] calls issued so far (most recent first). *)
Record State : Type := {
  cloudReasoningBaseUrl : string;
  openaiApiKey : string;
  reasoningModel : JsValue;
  customModelOptions : list CloudModelOption;
  customModelsLoading : bool;
  customModelsError : option string;
  customBaseInput : string;
  lastLoadedBaseRef : option string;
  pendingBaseRef : option string;
  latestReasoningBaseRef : string;
  isMountedRef : bool;
  fetchLog : list Request
}.

Definition setCustomModelOptions (v : list CloudModelOption) (s : State) : State :=
  {| cloudReasoningBaseUrl := cloudReasoningBaseUrl s;
     openaiApiKey := openaiApiKey s;
     reasoningModel := reasoningModel s;
     customModelOptions := v;
     customModelsLoading := customModelsLoading s;
     customModelsError := customModelsError s;
     customBaseInput := customBaseInput s;
     lastLoadedBaseRef := lastLoadedBaseRef s;
     pendingBaseRef := pendingBaseRef s;
     latestReasoningBaseRef := latestReasoningBaseRef s;
     isMountedRef := isMountedRef s;
     fetchLog := fetchLog s |}.

Definition setCustomModelsLoading (v : bool) (s : State) : State :=
  {| cloudReasoningBaseUrl := cloudReasoningBaseUrl s;
     openaiApiKey := openaiApiKey s;
     reasoningModel := reasoningModel s;
     customModelOptions := customModelOptions s;
     customModelsLoading := v;
     customModelsError := customModelsError s;
     customBaseInput := customBaseInput s;
     lastLoadedBaseRef := lastLoadedBaseRef s;
     pendingBaseRef := pendingBaseRef s;
     latestReasoningBaseRef := latestReasoningBaseRef s;
     isMountedRef := isMountedRef s;
     fetchLog := fetchLog s |}.

Definition setCustomModelsError (v : option string) (s : State) : State :=
  {| cloudReasoningBaseUrl := cloudReasoningBaseUrl s;
     openaiApiKey := openaiApiKey s;
     reasoningModel := reasoningModel s;
     customModelOptions := customModelOptions s;
     customModelsLoading := customModelsLoading s;
     customModelsError := v;
     customBaseInput := customBaseInput s;
     lastLoadedBaseRef := lastLoadedBaseRef s;
     pendingBaseRef := pendingBaseRef s;
     latestReasoningBaseRef := latestReasoningBaseRef s;
     isMountedRef := isMountedRef s;
     fetchLog := fetchLog s |}.

(** The host's setter of the selected model. *)
Definition setReasoningModel (v : JsValue) (s : State) : State :=
  {| cloudReasoningBaseUrl := cloudReasoningBaseUrl s;
     openaiApiKey := openaiApiKey s;
     reasoningModel := v;
     customModelOptions := customModelOptions s;
     customModelsLoading := customModelsLoading s;
     customModelsError := customModelsError s;
     customBaseInput := customBaseInput s;
     lastLoadedBaseRef := lastLoadedBaseRef s;
     pendingBaseRef := pendingBaseRef s;
     latestReasoningBaseRef := latestReasoningBaseRef s;
     isMountedRef := isMountedRef s;
     fetchLog := fetchLog s |}.

Definition setLastLoadedBase (v : option string) (s : State) : State :=
  {| cloudReasoningBaseUrl := cloudReasoningBaseUrl s;
     openaiApiKey := openaiApiKey s;
     reasoningModel := reasoningModel s;
     customModelOptions := customModelOptions s;
     customModelsLoading := customModelsLoading s;
     customModelsError := customModelsError s;
     customBaseInput := customBaseInput s;
     lastLoadedBaseRef := v;
     pendingBaseRef := pendingBaseRef s;
     latestReasoningBaseRef := latestReasoningBaseRef s;
     isMountedRef := isMountedRef s;
     fetchLog := fetchLog s |}.

Definition setPendingBase (v : option string) (s : State) : State :=
  {| cloudReasoningBaseUrl := cloudReasoningBaseUrl s;
     openaiApiKey := openaiApiKey s;
     reasoningModel := reasoningModel s;
     customModelOptions := customModelOptions s;
     customModelsLoading := customModelsLoading s;
     customModelsError := customModelsError s;
     customBaseInput := customBaseInput s;
     lastLoadedBaseRef := lastLoadedBaseRef s;
     pendingBaseRef := v;
     latestReasoningBaseRef := latestReasoningBaseRef s;
     isMountedRef := isMountedRef s;
     fetchLog := fetchLog s |}.

Definition setLatestReasoningBase (v : string) (s : State) : State :=
  {| cloudReasoningBaseUrl := cloudReasoningBaseUrl s;
     openaiApiKey := openaiApiKey s;
     reasoningModel := reasoningModel s;
     customModelOptions := customModelOptions s;
     customModelsLoading := customModelsLoading s;
     customModelsError := customModelsError s;
     customBaseInput := customBaseInput s;
     lastLoadedBaseRef := lastLoadedBaseRef s;
     pendingBaseRef := pendingBaseRef s;
     latestReasoningBaseRef := v;
     isMountedRef := isMountedRef s;
     fetchLog := fetchLog s |}.

Definition setIsMounted (v : bool) (s : State) : State :=
  {| cloudReasoningBaseUrl := cloudReasoningBaseUrl s;
     openaiApiKey := openaiApiKey s;
     reasoningModel := reasoningModel s;
     customModelOptions := customModelOptions s;
     customModelsLoading := customModelsLoading s;
     customModelsError := customModelsError s;
     customBaseInput := customBaseInput s;
     lastLoadedBaseRef := lastLoadedBaseRef s;
     pendingBaseRef := pendingBaseRef s;
     latestReasoningBaseRef := latestReasoningBaseRef s;
     isMountedRef := v;
     fetchLog := fetchLog s |}.

Definition setCustomBaseInput (v : string) (s : State) : State :=
  {| cloudReasoningBaseUrl := cloudReasoningBaseUrl s;
     openaiApiKey := openaiApiKey s;
     reasoningModel := reasoningModel s;
     customModelOptions := customModelOptions s;
     customModelsLoading := customModelsLoading s;
     customModelsError := customModelsError s;
     customBaseInput := v;
     lastLoadedBaseRef := lastLoadedBaseRef s;
     pendingBaseRef := pendingBaseRef s;
     latestReasoningBaseRef := latestReasoningBaseRef s;
     isMountedRef := isMountedRef s;
     fetchLog := fetchLog s |}.

Definition withCloudReasoningBaseUrl (v : string) (s : State) : State :=
  {| cloudReasoningBaseUrl := v;
     openaiApiKey := openaiApiKey s;
     reasoningModel := reasoningModel s;
     customModelOptions := customModelOptions s;
     customModelsLoading := customModelsLoading s;
     customModelsError := customModelsError s;
     customBaseInput := customBaseInput s;
     lastLoadedBaseRef := lastLoadedBaseRef s;
     pendingBaseRef := pendingBaseRef s;
     latestReasoningBaseRef := latestReasoningBaseRef s;
     isMountedRef := isMountedRef s;
     fetchLog := fetchLog s |}.

Definition withOpenaiApiKey (v : string) (s : State) : State :=
  {| cloudReasoningBaseUrl := cloudReasoningBaseUrl s;
     openaiApiKey := v;
     reasoningModel := reasoningModel s;
     customModelOptions := customModelOptions s;
     customModelsLoading := customModelsLoading s;
     customModelsError := customModelsError s;
     customBaseInput := customBaseInput s;
     lastLoadedBaseRef := lastLoadedBaseRef s;
     pendingBaseRef := pendingBaseRef s;
     latestReasoningBaseRef := latestReasoningBaseRef s;
     isMountedRef := isMountedRef s;
     fetchLog := fetchLog s |}.

(** [fetch(...)] is called. *)
Definition issueFetch (r : Request) (s : State) : State :=
  {| cloudReasoningBaseUrl := cloudReasoningBaseUrl s;
     openaiApiKey := openaiApiKey s;
     reasoningModel := reasoningModel s;
     customModelOptions := customModelOptions s;
     customModelsLoading := customModelsLoading s;
     customModelsError := customModelsError s;
     customBaseInput := customBaseInput s;
     lastLoadedBaseRef := lastLoadedBaseRef s;
     pendingBaseRef := pendingBaseRef s;
     latestReasoningBaseRef := latestReasoningBaseRef s;
     isMountedRef := isMountedRef s;
     fetchLog := r :: fetchLog s |}.

Definition MISSING_PROTOCOL_ERROR : string :=
  "Enter a full base URL including protocol (e.g. https://server/v1).".

Definition HTTPS_ONLY_ERROR : string :=
  "Only HTTPS endpoints are allowed (except localhost for testing).".

Definition GENERIC_LOAD_ERROR : string :=
  "Unable to load models from endpoint.".

Definition UNAUTHORIZED_HINT : string :=
  "Endpoint rejected the request (401/403). Add an API key or adjust server auth settings.".

(** [ref.current === normalizedBase] for a ref of type [string | null]. *)
Definition refIs (r : option string) (normalizedBase : string) : bool :=
  match r with
  | Some b => String.eqb b normalizedBase
  | None => false
  end.

(** [isMountedRef.current && latestReasoningBaseRef.current === normalizedBase] *)
Definition isCurrent (normalizedBase : string) (s : State) : bool :=
  isMountedRef s && String.eqb (latestReasoningBaseRef s) normalizedBase.

(** Truthiness of [apiKey : string | undefined]. *)
Definition keyTruthy (apiKey : option string) : bool :=
  match apiKey with
  | Some k => JsString.truthy k
  | None => false
  end.

(** What one invocation holds across its [await]s: its local
    [normalizedBase] and [apiKey], and the [reasoningModel] its closure was
    created with. *)
Record Invocation : Type := {
  normalizedBase : string;
  apiKey : option string;
  closureReasoningModel : JsValue
}.

(** The [await] an invocation is suspended at. *)
Inductive Suspended : Type :=
| AwaitKey (inv : Invocation)
| AwaitFetch (inv : Invocation)
| AwaitText (inv : Invocation) (status : N) (statusText : string)
| AwaitJson (inv : Invocation).

Inductive Outcome : Type :=
| Returned
| Suspend (k : Suspended).

(** How an awaited promise settles. *)
Inductive KeyResult : Type :=
| KeyResolved (key : option string)
| KeyRejected (message : string).

Inductive FetchResult : Type :=
| FetchResponse (status : N) (statusText : string)
| FetchRejected (message : string).

Inductive Resolution : Type :=
| OfKey (r : KeyResult)
| OfFetch (r : FetchResult)
| OfText (body : option string)
| OfJson (body : option JsValue).

Definition invocationOf (k : Suspended) : Invocation :=
  match k with
  | AwaitKey inv | AwaitFetch inv | AwaitText inv _ _ | AwaitJson inv => inv
  end.

(** [response.ok] *)
Definition responseOk (status : N) : bool :=
  ((200 <=? status) && (status <=? 299))%N.

(** Lines 273-278: the message of the error thrown for a non-2xx response. *)
Definition errorSummary (status : N) (statusText errorText : string) : string :=
  JsString.trim
    (if JsString.truthy errorText
     then String.append (JsString.ofN status)
            (String.append " " (JsString.slice0 errorText 200))
     else String.append (JsString.ofN status) (String.append " " statusText)).

(** Line 330: [(error as Error).message || 'Unable to load models from
    endpoint.']. *)
Definition messageOf (errorMessage : string) : string :=
  if JsString.truthy errorMessage then errorMessage else GENERIC_LOAD_ERROR.

(** Lines 331-332: [unauthorized && !apiKey]. *)
Definition hintShown (key : option string) (errorMessage : string) : bool :=
  let unauthorized := JsString.testWord ["401"; "403"] (messageOf errorMessage) in
  unauthorized && negb (keyTruthy key).

(** Lines 332-338: the text the [catch] block passes to
    [setCustomModelsError]. *)
Definition surfacedMessage (key : option string) (errorMessage : string) : string :=
  if hintShown key errorMessage then UNAUTHORIZED_HINT else messageOf errorMessage.

(** Lines 326-340. *)
Definition catchBlock (nb : string) (key : option string) (errorMessage : string)
           (s : State) : State :=
  if isCurrent nb s
  then setCustomModelOptions []
         (setCustomModelsError (Some (surfacedMessage key errorMessage)) s)
  else s.

(** Lines 341-348. *)
Definition finallyBlock (nb : string) (s : State) : State :=
  let s1 := if refIs (pendingBaseRef s) nb then setPendingBase None s else s in
  if isCurrent nb s1 then setCustomModelsLoading false s1 else s1.

(** Lines 240-244 and 251-255: an early [return] out of the [try]. *)
Definition rejectWith (nb message : string) (s : State) : State :=
  finallyBlock nb
    (if isCurrent nb s
     then setCustomModelsLoading false (setCustomModelsError (Some message) s)
     else s).

(** Lines 248-249: the base passes the transport check. *)
Definition transportAllowed (nb : string) : bool :=
  let isLocalhost :=
    JsString.includes nb "://localhost" || JsString.includes nb "://127.0.0.1" in
  negb (negb (JsString.startsWith nb "https://") && negb isLocalhost).

(** Lines 313-325. *)
Definition applyModels (inv : Invocation) (mappedModels : list CloudModelOption)
           (s : State) : State :=
  let nb := normalizedBase inv in
  if isCurrent nb s
  then
    let s1 := setCustomModelOptions mappedModels s in
    let s2 :=
      match mappedModels with
      | first :: _ =>
          if negb (existsb (fun model => strictEq (value model) (closureReasoningModel inv))
                           mappedModels)
          then setReasoningModel (value first) s1
          else s1
      | [] => s1
      end in
    setLastLoadedBase (Some nb) (setCustomModelsError None s2)
  else s.

(** Line 180: [(baseOverride ?? cloudReasoningBaseUrl) || '']. *)
Definition rawBaseOf (baseOverride : option string) (s : State) : string :=
  match baseOverride with
  | Some b => b
  | None => cloudReasoningBaseUrl s
  end.

Section Loader.

Variable normalizeBaseUrl : string -> string.
Variable buildApiUrl : string -> string -> string.

(** Lines 238-269: from the scheme check to the [await fetch(...)]. *)
Definition validateAndFetch (inv : Invocation) (s : State) : State * Outcome :=
  let nb := normalizedBase inv in
  if negb (JsString.includes nb "://")
  then (rejectWith nb MISSING_PROTOCOL_ERROR s, Returned)
  else if negb (transportAllowed nb)
  then (rejectWith nb HTTPS_ONLY_ERROR s, Returned)
  else
    let headers :=
      match apiKey inv with
      | Some k => if JsString.truthy k then Some (String.append "Bearer " k) else None
      | None => None
      end in
    let modelsUrl := buildApiUrl nb "/models" in
    (issueFetch {| req_url := modelsUrl; req_authorization := headers |} s,
     Suspend (AwaitFetch inv)).

(** Lines 179-230: the call, up to its first [await] or [return]. *)
Definition loadRemoteModels (baseOverride : option string) (force : bool)
           (s : State) : State * Outcome :=
  let rawBase := rawBaseOf baseOverride s in
  let nb := normalizeBaseUrl rawBase in
  if negb (JsString.truthy nb)
  then
    (if isMountedRef s
     then setCustomModelOptions []
            (setCustomModelsError None (setCustomModelsLoading false s))
     else s,
     Returned)
  else if negb force && refIs (lastLoadedBaseRef s) nb then (s, Returned)
  else if negb force && refIs (pendingBaseRef s) nb then (s, Returned)
  else
    let s1 :=
      match baseOverride with
      | Some _ => setLatestReasoningBase nb s
      | None => s
      end in
    let s2 := setPendingBase (Some nb) s1 in
    let s3 :=
      if isMountedRef s2
      then setCustomModelOptions []
             (setCustomModelsError None (setCustomModelsLoading true s2))
      else s2 in
    let keyFromState := JsString.trim (openaiApiKey s3) in
    if JsString.truthy keyFromState && (0 <? JsString.length keyFromState)
    then
      validateAndFetch
        {| normalizedBase := nb;
           apiKey := Some keyFromState;
           closureReasoningModel := reasoningModel s |} s3
    else
      (s3,
       Suspend (AwaitKey {| normalizedBase := nb;
                            apiKey := None;
                            closureReasoningModel := reasoningModel s |})).

(** [await window.electronAPI?.getOpenAIKey?.()] settles. *)
Definition resumeKey (inv : Invocation) (r : KeyResult) (s : State) : State * Outcome :=
  match r with
  | KeyResolved key =>
      validateAndFetch
        {| normalizedBase := normalizedBase inv;
           apiKey := key;
           closureReasoningModel := closureReasoningModel inv |} s
  | KeyRejected message =>
      (finallyBlock (normalizedBase inv)
         (catchBlock (normalizedBase inv) (apiKey inv) message s),
       Returned)
  end.

(** [await fetch(...)] settles (lines 266-281). *)
Definition resumeFetch (inv : Invocation) (r : FetchResult) (s : State) : State * Outcome :=
  match r with
  | FetchResponse status statusText =>
      if responseOk status
      then (s, Suspend (AwaitJson inv))
      else (s, Suspend (AwaitText inv status statusText))
  | FetchRejected message =>
      (finallyBlock (normalizedBase inv)
         (catchBlock (normalizedBase inv) (apiKey inv) message s),
       Returned)
  end.

(** [await response.text().catch(() => '')] settles (lines 274-279, then
    the [catch] and [finally] blocks). *)
Definition resumeText (inv : Invocation) (status : N) (statusText : string)
           (body : option string) (s : State) : State * Outcome :=
  let errorText := match body with Some t => t | None => "" end in
  (finallyBlock (normalizedBase inv)
     (catchBlock (normalizedBase inv) (apiKey inv)
        (errorSummary status statusText errorText) s),
   Returned).

(** [await response.json().catch(() => ({}))] settles (lines 281-325, then
    the [finally] block). *)
Definition resumeJson (inv : Invocation) (body : option JsValue) (s : State) : State * Outcome :=
  let payload := parsePayload body in
  let rawModels := rawModelsOf payload in
  let mappedModels := mapModels rawModels in
  (finallyBlock (normalizedBase inv) (applyModels inv mappedModels s), Returned).

(** A suspended invocation resumes with the settlement of its promise. *)
Inductive resumes : Suspended -> Resolution -> State -> State -> Outcome -> Prop :=
| resumes_key : forall inv r s s' o,
    resumeKey inv r s = (s', o) ->
    resumes (AwaitKey inv) (OfKey r) s s' o
| resumes_fetch : forall inv r s s' o,
    resumeFetch inv r s = (s', o) ->
    resumes (AwaitFetch inv) (OfFetch r) s s' o
| resumes_text : forall inv status statusText body s s' o,
    resumeText inv status statusText body s = (s', o) ->
    resumes (AwaitText inv status statusText) (OfText body) s s' o
| resumes_json : forall inv body s s' o,
    resumeJson inv body s = (s', o) ->
    resumes (AwaitJson inv) (OfJson body) s s' o.

(** The same as a function: [None] when the settlement is not of the
    promise the invocation awaits. *)
Definition resume (k : Suspended) (r : Resolution) (s : State) : option (State * Outcome) :=
  match k, r with
  | AwaitKey inv, OfKey r => Some (resumeKey inv r s)
  | AwaitFetch inv, OfFetch r => Some (resumeFetch inv r s)
  | AwaitText inv status statusText, OfText body =>
      Some (resumeText inv status statusText body s)
  | AwaitJson inv, OfJson body => Some (resumeJson inv body s)
  | _, _ => None
  end.

(* ------------------------------------------------------------------ *)
(** *** The component over time

    The component together with the invocations of [loadRemoteModels] that
    are suspended at an [await].  An event is a call of the loader (its call
    sites are the effect of lines 430-453 and the handlers of lines 394-478),
    the settlement of an awaited promise, a change of a prop by the host, an
    edit of the base field, or the unmount. *)

Record World : Type := {
  component : State;
  suspended : list Suspended
}.

Inductive Event : Type :=
| Call (baseOverride : option string) (force : bool)
| Settle (i : nat) (r : Resolution)
| HostSetsBaseUrl (v : string)
| HostSetsApiKey (v : string)
| HostSelectsModel (v : JsValue)
| EditBaseInput (text : string)
| Unmount.

(** Lines 145-171 at mount. *)
Definition mount (baseUrl key : string) (model : JsValue) : State :=
  {| cloudReasoningBaseUrl := baseUrl;
     openaiApiKey := key;
     reasoningModel := model;
     customModelOptions := [];
     customModelsLoading := false;
     customModelsError := None;
     customBaseInput := baseUrl;
     lastLoadedBaseRef := None;
     pendingBaseRef := None;
     latestReasoningBaseRef := normalizeBaseUrl baseUrl;
     isMountedRef := true;
     fetchLog := [] |}.

(** The host passes a new [cloudReasoningBaseUrl]; the effects of lines
    159-161 and 169-171 run when their dependency changed. *)
Definition hostSetsBaseUrl (v : string) (s : State) : State :=
  if negb (isMountedRef s) then s
  else
    let old := cloudReasoningBaseUrl s in
    let s1 := withCloudReasoningBaseUrl v s in
    let s2 := if String.eqb old v then s1 else setCustomBaseInput v s1 in
    if String.eqb (normalizeBaseUrl old) (normalizeBaseUrl v) then s2
    else setLatestReasoningBase (normalizeBaseUrl v) s2.

(** Lines 154-158: the cleanup of the mount effect. *)
Definition unmount (s : State) : State := setIsMounted false s.

Fixpoint settleAt (i : nat) (r : Resolution) (pool : list Suspended) (s : State)
  : State * list Suspended :=
  match pool with
  | [] => (s, [])
  | k :: rest =>
      match i with
      | O =>
          match resume k r s with
          | Some (s', Suspend k') => (s', k' :: rest)
          | Some (s', Returned) => (s', rest)
          | None => (s, pool)
          end
      | S i' =>
          let '(s', rest') := settleAt i' r rest s in (s', k :: rest')
      end
  end.

Definition step (w : World) (e : Event) : World :=
  match e with
  | Call baseOverride force =>
      match loadRemoteModels baseOverride force (component w) with
      | (s', Suspend k) => {| component := s'; suspended := suspended w ++ [k] |}
      | (s', Returned) => {| component := s'; suspended := suspended w |}
      end
  | Settle i r =>
      let '(s', pool') := settleAt i r (suspended w) (component w) in
      {| component := s'; suspended := pool' |}
  | HostSetsBaseUrl v =>
      {| component := hostSetsBaseUrl v (component w); suspended := suspended w |}
  | HostSetsApiKey v =>
      {| component := withOpenaiApiKey v (component w); suspended := suspended w |}
  | HostSelectsModel v =>
      {| component := setReasoningModel v (component w); suspended := suspended w |}
  | EditBaseInput text =>
      {| component := setCustomBaseInput text (component w); suspended := suspended w |}
  | Unmount =>
      {| component := unmount (component w); suspended := suspended w |}
  end.

Definition run (events : list Event) (w : World) : World :=
  fold_left step events w.




(** A step that is not a new request: a settlement or the unmount. *)
Inductive quiet : State -> State -> Prop :=
| quiet_refl : forall s, quiet s s
| quiet_settle : forall s k r s1 o s2,
    resumes k r s s1 o -> quiet s1 s2 -> quiet s s2
| quiet_unmount : forall s s2,
    quiet (unmount s) s2 -> quiet s s2.

End Loader.

(* ================================================================== *)
(** ** The list handed to the model picker (lines 356-392)

    [displayedCustomModels] reaches the screen through the memoised
    [selectedCloudModels], which is what [UnifiedModelPickerCompact]
    receives as [models]. *)

(** A [useMemo] cell: the dependencies and the value of its last
    computation. *)
Record Memo (D V : Type) : Type := {
  memoDeps : D;
  memoValue : V
}.

Arguments memoDeps {D V} _.
Arguments memoValue {D V} _.

(** [useMemo(() => compute, deps)]: the stored value is returned as long as
    the dependencies are the same as at the last computation. *)
Definition useMemo {D V : Type} (same : D -> D -> bool)
           (previous : option (Memo D V)) (deps : D) (compute : V) : Memo D V :=
  match previous with
  | Some cell =>
      if same (memoDeps cell) deps then cell
      else {| memoDeps := deps; memoValue := compute |}
  | None => {| memoDeps := deps; memoValue := compute |}
  end.

(** The two memo cells of a render. *)
Record Rendered : Type := {
  displayedCustomModelsMemo : Memo (bool * nat) (list CloudModelOption);
  selectedCloudModelsMemo : Memo (string * nat) (list CloudModelOption)
}.

(** Dependencies are compared with [Object.is]: by value for the dirty flag
    and the provider name, by identity for the array held by
    [customModelOptions].  The identity is given as a number, which changes
    when, and only when, [setCustomModelOptions] has stored another array. *)
Definition sameDisplayedDeps (a b : bool * nat) : bool :=
  Bool.eqb (fst a) (fst b) && Nat.eqb (snd a) (snd b).

Definition sameSelectedDeps (a b : string * nat) : bool :=
  String.eqb (fst a) (fst b) && Nat.eqb (snd a) (snd b).

(** One render of lines 352-392.  [providerModels] stands for the lists
    built from the static registry [REASONING_PROVIDERS] (among them
    [openaiModelOptions], which never changes and so never invalidates the
    memo). *)
Definition render (providerModels : string -> list CloudModelOption)
           (previous : option Rendered) (selectedCloudProvider : string)
           (optionsIdentity : nat) (s : State) : Rendered :=
  let dirty := isCustomBaseDirty (customBaseInput s) (cloudReasoningBaseUrl s) in
  let displayed :=
    useMemo sameDisplayedDeps
      (option_map displayedCustomModelsMemo previous)
      (dirty, optionsIdentity)
      (displayedCustomModels (customBaseInput s) (cloudReasoningBaseUrl s)
         (customModelOptions s)) in
  let selected :=
    useMemo sameSelectedDeps
      (option_map selectedCloudModelsMemo previous)
      (selectedCloudProvider, optionsIdentity)
      (if String.eqb selectedCloudProvider "openai" then providerModels "openai"
       else if String.eqb selectedCloudProvider "custom" then memoValue displayed
       else providerModels selectedCloudProvider) in
  {| displayedCustomModelsMemo := displayed;
     selectedCloudModelsMemo := selected |}.

(* ================================================================== *)
(** ** Scheme and host of a URL, as the specification speaks of them

    These two follow the words of the specification ("scheme",
    "host is a loopback address"); they are what the transport check of the
    code is compared with, the code has no counterpart of them. *)

(** The text before the first ["://"], if there is one. *)
Fixpoint urlScheme (url : string) : option string :=
  if JsString.startsWith url "://" then Some EmptyString
  else
    match url with
    | EmptyString => None
    | String c rest =>
        match urlScheme rest with
        | Some scheme => Some (String c scheme)
        | None => None
        end
    end.

Fixpoint afterScheme (url : string) : string :=
  if JsString.startsWith url "://" then JsString.drop 3 url
  else
    match url with
    | EmptyString => EmptyString
    | String _ rest => afterScheme rest
    end.

Definition endsAuthority (c : ascii) : bool :=
  Ascii.eqb c "/"%char || Ascii.eqb c "?"%char || Ascii.eqb c "#"%char.

Fixpoint takeUntil (stop : ascii -> bool) (s : string) : string :=
  match s with
  | EmptyString => EmptyString
  | String c rest => if stop c then EmptyString else String c (takeUntil stop rest)
  end.

(** The part after the last ["@"] (all of it when there is none). *)
Fixpoint afterUserinfo (authority : string) : string :=
  match authority with
  | EmptyString => EmptyString
  | String c rest =>
      if JsString.includes rest "@" then afterUserinfo rest
      else if Ascii.eqb c "@"%char then rest
      else authority
  end.

(** The host of [scheme://userinfo@host:port/path?query#fragment]. *)
Definition urlHost (url : string) : string :=
  takeUntil (fun c => Ascii.eqb c ":"%char)
    (afterUserinfo (takeUntil endsAuthority (afterScheme url))).

Definition isLoopbackHost (host : string) : bool :=
  String.eqb host "localhost" || String.eqb host "127.0.0.1".

(** [s] contains one of [codes] as a whole word: neither the character
    before the occurrence nor the one after it is a word character. *)
Definition containsWord (codes : list string) (s : string) : Prop :=
  exists pre code post,
    s = String.append pre (String.append code post)
    /\ In code codes
    /\ JsString.isWord (JsString.last pre None) = false
    /\ JsString.isWord (JsString.head post) = false.

(* ================================================================== *)
(** ** Notions used to state the properties *)

Definition notWhiteSpace (c : ascii) : bool := negb (JsString.isWhiteSpace c).

(** The text that follows the status code in the message of an HTTP error:
    a space and the snippet without its trailing white space, or nothing
    when the snippet is blank. *)
Definition summaryTail (snippet : string) : string :=
  match JsString.trimEnd snippet with
  | EmptyString => EmptyString
  | t => String " " t
  end.

(** The snippet an HTTP error message is built from: the first 200
    characters of the body, or the status text when the body is empty. *)
Definition snippetOf (statusText errorText : string) : string :=
  if JsString.truthy errorText then JsString.slice0 errorText 200 else statusText.

(** [s'] shows what [s] shows of a load (options, error, selected model,
    loading flag) and has the same cache key of the last success. *)
Definition sameLoaderState (s s' : State) : Prop :=
  customModelOptions s' = customModelOptions s
  /\ customModelsError s' = customModelsError s
  /\ reasoningModel s' = reasoningModel s
  /\ customModelsLoading s' = customModelsLoading s
  /\ lastLoadedBaseRef s' = lastLoadedBaseRef s.

(** Let through by the early returns of lines 191-209: the base is not
    empty and the call is neither an unforced repeat of the last load nor
    an unforced repeat of the pending one. *)
Definition accepted (nb : string) (force : bool) (s : State) : bool :=
  JsString.truthy nb
  && negb (negb force && refIs (lastLoadedBaseRef s) nb)
  && negb (negb force && refIs (pendingBaseRef s) nb).



(** The state at line 223, once the early returns are behind. *)
Definition entered (baseOverride : option string) (nb : string) (s : State) : State :=
  let s1 :=
    match baseOverride with
    | Some _ => setLatestReasoningBase nb s
    | None => s
    end in
  let s2 := setPendingBase (Some nb) s1 in
  if isMountedRef s2
  then setCustomModelOptions []
         (setCustomModelsError None (setCustomModelsLoading true s2))
  else s2.

Definition keyFromStateOf (s : State) : string := JsString.trim (openaiApiKey s).

(* ================================================================== *)
(** ** Concrete scenarios

    The loader run with the normalizer and the URL builder of the
    specification. *)

Definition baseA : string := "https://a.example/v1".
Definition baseB : string := "https://b.example/v1".

(** The component mounted on [baseA] with a key in memory and a model
    selected. *)
Definition mountedOnA : State :=
  mount specNormalizeBaseUrl baseA "sk-test" (JsString "m0").

Definition invocationA : Invocation :=
  {| normalizedBase := baseA;
     apiKey := Some "sk-test";
     closureReasoningModel := JsString "m0" |}.

(** [{ data: [ { id: "m1", owned_by: "OpenAI" } ] }] *)
Definition payloadM1 : JsValue :=
  JsObject [("data", JsArray [JsObject [("id", JsString "m1");
                                        ("owned_by", JsString "OpenAI")]])].

Definition optionM1 : CloudModelOption :=
  {| value := JsString "m1";
     label := JsString "m1";
     description := JsString "Owner: OpenAI";
     icon := Some "/assets/icons/providers/openai.svg";
     ownedBy := Some "OpenAI" |}.

(** The first load for [baseA] is in flight when [baseB] is applied. *)
Definition afterRequestForB : State :=
  fst (loadRemoteModels specNormalizeBaseUrl specBuildApiUrl (Some baseB) true
         (fst (loadRemoteModels specNormalizeBaseUrl specBuildApiUrl None false
                 mountedOnA))).



(** The spec scenario of a successful load. *)
Definition apiExampleBase : string := "https://api.example.com/v1".

Definition apiExampleInvocation : Invocation :=
  {| normalizedBase := apiExampleBase;
     apiKey := None;
     closureReasoningModel := JsString "" |}.

(** The component once the request for [apiExampleBase] has been sent. *)
Definition apiExampleWaiting : World :=
  run specNormalizeBaseUrl specBuildApiUrl
    [ Call (Some apiExampleBase) true; Settle 0 (OfKey (KeyResolved None)) ]
    {| component := mount specNormalizeBaseUrl "" "" (JsString ""); suspended := [] |}.

(** A base over plain HTTP whose host only starts with the word
    [localhost]. *)
Definition foreignLocalhostBase : string := "http://localhost.evil.example/v1".

(** A scheme-less base, applied with the key held in memory. *)
Definition schemelessBase : string := "server.example/v1".

(** The spec scenario of a rejected base. *)
Definition remoteHttpBase : string := "http://remote.example.com".

(** The component with no key in memory, showing [apiExampleBase]. *)
Definition showingApiExample : State :=
  mount specNormalizeBaseUrl apiExampleBase "" (JsString "").

(** An unforced load of [apiExampleBase] with no key anywhere answered by
    [500 Internal Server Error] with the body [upstream replied 401]. *)
Definition serverErrorMentioning401 : list Event :=
  [ Call None false;
    Settle 0 (OfKey (KeyResolved None));
    Settle 0 (OfFetch (FetchResponse 500 "Internal Server Error"));
    Settle 0 (OfText (Some "upstream replied 401")) ].


(** The load of [baseA] has succeeded with [payloadM1]; the field shows
    the saved base. *)
Definition loadedOnA : State :=
  component
    (run specNormalizeBaseUrl specBuildApiUrl
       [ Call None false;
         Settle 0 (OfFetch (FetchResponse 200 "OK"));
         Settle 0 (OfJson (Some payloadM1)) ]
       {| component := mountedOnA; suspended := [] |}).

(** The render that follows that load, on the custom tab. *)
Definition renderedAfterLoad : Rendered :=
  render (fun _ => []) None "custom" 1 loadedOnA.

(** The user then types another base into the field, without applying
    it; [customModelOptions] still holds the same array. *)
Definition editedAfterLoad : State :=
  setCustomBaseInput "https://b.example/v1" loadedOnA.

Definition renderedAfterEdit : Rendered :=
  render (fun _ => []) (Some renderedAfterLoad) "custom" 1 editedAfterLoad.

(* ================================================================== *)
(** * The rest of the component

    The icon helpers (lines 21-46 and 79-123), the handlers and effects
    that call the loader (lines 173, 352-355, 394-478) and the state of
    the Refresh button (lines 587-589). *)

(** ** Icon helpers *)

(** [PROVIDER_ICON_MAP], as the list of its own properties. *)
Definition PROVIDER_ICON_MAP : list (string * string) :=
  [ ("openai", "openai");
    ("anthropic", "anthropic");
    ("gemini", "gemini");
    ("groq", "groq");
    ("llama", "llama");
    ("mistral", "mistral");
    ("qwen", "qwen");
    ("openai-oss", "openai-oss") ].

Fixpoint ownProperty (key : string) (table : list (string * string)) : option string :=
  match table with
  | [] => None
  | (k, v) :: rest => if String.eqb k key then Some v else ownProperty key rest
  end.

(** Lines 43-46.  [providerId] ranges over the names that are no member of
    [Object.prototype] (the callers pass tab names). *)
Definition getProviderIconPath (providerId : string) : string :=
  let iconId :=
    match ownProperty providerId PROVIDER_ICON_MAP with
    | Some i => if JsString.truthy i then i else "openai"
    | None => "openai"
    end in
  iconPath iconId.

(** The icons of lucide-react the component draws. *)
Inductive Glyph : Type := Wrench | Brain | Zap | Globe | Cpu.

(** What [ProviderIcon] returns: a glyph, or the fragment made of the
    [<img>] (with its [display] style) and, when [svgError && ...] is
    truthy, a glyph after it. *)
Inductive IconView : Type :=
| ShowGlyph (g : Glyph)
| ShowImage (src : string) (display : string) (after : option Glyph).

(** Lines 89-104. *)
Definition getFallbackIcon (provider : string) : Glyph :=
  if String.eqb provider "openai" then Brain
  else if String.eqb provider "anthropic" then Zap
  else if String.eqb provider "gemini" then Globe
  else if String.eqb provider "groq" then Zap
  else if String.eqb provider "qwen" then Brain
  else if String.eqb provider "mistral" then Zap
  else if String.eqb provider "llama" then Cpu
  else if String.eqb provider "openai-oss" then Globe
  else if String.eqb provider "custom" then Wrench
  else Brain.

(** Lines 80-123; [svgError] is the state cell of the icon. *)
Definition ProviderIcon (provider : string) (svgError : bool) : IconView :=
  if String.eqb provider "custom" then ShowGlyph Wrench
  else if negb svgError
  then ShowImage
         (String.append "/assets/icons/providers/" (String.append provider ".svg"))
         (if svgError then "none" else "block")
         (if svgError then Some (getFallbackIcon provider) else None)
  else ShowGlyph (getFallbackIcon provider).

(** Line 363. *)
Definition cloudProviders : list string :=
  ["openai"; "anthropic"; "gemini"; "groq"; "custom"].

(** ** Handlers and effects *)

(** The component: the cells of the loader, the selected tab
    ([selectedCloudProvider]) and the provider the host has stored
    ([setLocalReasoningProvider]). *)
Record Panel : Type := {
  loaderState : State;
  selectedCloudProvider : string;
  localReasoningProvider : string
}.

Definition withLoaderState (s : State) (p : Panel) : Panel :=
  {| loaderState := s;
     selectedCloudProvider := selectedCloudProvider p;
     localReasoningProvider := localReasoningProvider p |}.

(** Line 352. *)
Definition trimmedCustomBase (s : State) : string :=
  JsString.trim (customBaseInput s).

(** Line 353. *)
Definition hasSavedCustomBase (s : State) : bool :=
  JsString.truthy (JsString.trim (cloudReasoningBaseUrl s)).

(** Line 587: [disabled] of the Refresh button. *)
Definition refreshDisabled (s : State) : bool :=
  customModelsLoading s
  || (negb (JsString.truthy (trimmedCustomBase s)) && negb (hasSavedCustomBase s)).

(** Line 589: the label of the Refresh button. *)
Definition refreshLabel (s : State) : string :=
  if customModelsLoading s then "Loading models..."
  else if isCustomBaseDirty (customBaseInput s) (cloudReasoningBaseUrl s)
  then "Apply & Refresh"
  else "Refresh Models".

Section Handlers.

Variable normalizeBaseUrl : string -> string.
Variable buildApiUrl : string -> string -> string.

(** [API_ENDPOINTS.OPENAI_BASE] of ../config/constants. *)
Variable OPENAI_BASE : string.

(** The [models] of [REASONING_PROVIDERS[provider]] (../utils/languages);
    the empty list where the registry has none. *)
Variable providerModels : string -> list CloudModelOption.

(** Line 173. *)
Definition hasCustomBase (s : State) : bool :=
  negb (String.eqb (normalizeBaseUrl (cloudReasoningBaseUrl s)) "").

(** Lines 394-400, and the render that follows: the host has stored the
    base it was given ([setCloudReasoningBaseUrl]), so the new prop arrives
    and the effects of lines 159-171 run. *)
Definition handleApplyCustomBase (s : State) : State * Outcome :=
  let trimmedBase := JsString.trim (customBaseInput s) in
  let s1 := setCustomBaseInput trimmedBase s in
  let s2 := setLastLoadedBase None s1 in
  let '(s3, o) := loadRemoteModels normalizeBaseUrl buildApiUrl (Some trimmedBase) true s2 in
  (hostSetsBaseUrl normalizeBaseUrl trimmedBase s3, o).

(** Lines 402-408, and the render that follows. *)
Definition handleResetCustomBase (s : State) : State * Outcome :=
  let defaultBase := OPENAI_BASE in
  let s1 := setCustomBaseInput defaultBase s in
  let s2 := setLastLoadedBase None s1 in
  let '(s3, o) := loadRemoteModels normalizeBaseUrl buildApiUrl (Some defaultBase) true s2 in
  (hostSetsBaseUrl normalizeBaseUrl defaultBase s3, o).

(** What Apply and Reset share: the base [b] becomes the text of the field,
    the key of the last success is dropped, [b] is loaded with force, and
    the host stores [b]. *)
Definition loadAndStore (b : string) (s : State) : State * Outcome :=
  let s2 := setLastLoadedBase None (setCustomBaseInput b s) in
  let '(s3, o) := loadRemoteModels normalizeBaseUrl buildApiUrl (Some b) true s2 in
  (hostSetsBaseUrl normalizeBaseUrl b s3, o).

(** Lines 410-421. *)
Definition handleRefreshCustomModels (s : State) : State * Outcome :=
  if isCustomBaseDirty (customBaseInput s) (cloudReasoningBaseUrl s)
  then handleApplyCustomBase s
  else if negb (JsString.truthy (trimmedCustomBase s)) then (s, Returned)
  else loadRemoteModels normalizeBaseUrl buildApiUrl None true s.

(** The body of the effect of lines 430-453. *)
Definition autoLoadEffect (p : Panel) : Panel * Outcome :=
  let s := loaderState p in
  if negb (String.eqb (selectedCloudProvider p) "custom") then (p, Returned)
  else if negb (hasCustomBase s)
  then (withLoaderState
          (setLastLoadedBase None
             (setCustomModelsLoading false
                (setCustomModelOptions [] (setCustomModelsError None s)))) p,
        Returned)
  else
    let nb := normalizeBaseUrl (cloudReasoningBaseUrl s) in
    if negb (JsString.truthy nb) then (p, Returned)
    else if refIs (pendingBaseRef s) nb || refIs (lastLoadedBaseRef s) nb
    then (p, Returned)
    else
      let '(s', o) := loadRemoteModels normalizeBaseUrl buildApiUrl None false s in
      (withLoaderState s' p, o).

(** Lines 456-478. *)
Definition handleCloudProviderChange (provider : string) (p : Panel) : Panel * Outcome :=
  let s := loaderState p in
  let switched (s' : State) : Panel :=
    {| loaderState := s';
       selectedCloudProvider := provider;
       localReasoningProvider := provider |} in
  if String.eqb provider "custom"
  then
    let s1 := setCustomBaseInput (cloudReasoningBaseUrl s) s in
    let s2 := setPendingBase None (setLastLoadedBase None s1) in
    match customModelOptions s with
    | first :: _ => (switched (setReasoningModel (value first) s2), Returned)
    | [] =>
        if hasCustomBase s
        then
          let '(s', o) := loadRemoteModels normalizeBaseUrl buildApiUrl None false s2 in
          (switched s', o)
        else (switched s2, Returned)
    end
  else
    match providerModels provider with
    | first :: _ => (switched (setReasoningModel (value first) s), Returned)
    | [] => (switched s, Returned)
    end.

(** The latest requested base is the normalized prop. *)
Definition inSync (s : State) : Prop :=
  latestReasoningBaseRef s = normalizeBaseUrl (cloudReasoningBaseUrl s).

(** A click on a tab other than the one shown, and the render that
    follows: [selectedCloudProvider] has changed, so the effect of lines
    430-453 runs.  The two outcomes are the handler's and the effect's. *)
Definition switchTab (provider : string) (p : Panel) : Panel * Outcome * Outcome :=
  let '(p1, o1) := handleCloudProviderChange provider p in
  let '(p2, o2) := autoLoadEffect p1 in
  (p2, o1, o2).

(** Lines 145 and 424-428: the tab shown after the mount. *)
Definition mountPanel (baseUrl key : string) (model : JsValue) (provider : string) : Panel :=
  {| loaderState := mount normalizeBaseUrl baseUrl key model;
     selectedCloudProvider :=
       if existsb (String.eqb provider) cloudProviders then provider else "openai";
     localReasoningProvider := provider |}.

(** *** The panel over time *)

Record PanelWorld : Type := {
  panel : Panel;
  inFlight : list Suspended
}.

(** What happens to the panel: a click on Reset, on Refresh (which applies
    a dirty field), on a tab; a run of the auto-load effect; or an event of
    the loader's world (a settlement, a change of a prop by the host, an
    edit of the field, the unmount, a call of the loader from elsewhere). *)
Inductive Action : Type :=
| ClickReset
| ClickRefresh
| ClickTab (provider : string)
| RunAutoLoad
| Environment (e : Event).

Definition enqueue (pool : list Suspended) (o : Outcome) : list Suspended :=
  match o with
  | Suspend k => pool ++ [k]
  | Returned => pool
  end.

Definition onCustomTab (p : Panel) : bool :=
  String.eqb (selectedCloudProvider p) "custom".

(** The Reset and Refresh buttons are drawn on the custom tab only (line
    563) and a disabled Refresh button takes no click (line 587); an
    unmounted panel has no buttons and runs no effect. *)
Definition stepPanel (w : PanelWorld) (a : Action) : PanelWorld :=
  let p := panel w in
  let s := loaderState p in
  match a with
  | ClickReset =>
      if negb (isMountedRef s) || negb (onCustomTab p) then w
      else
        let '(s', o) := handleResetCustomBase s in
        {| panel := withLoaderState s' p; inFlight := enqueue (inFlight w) o |}
  | ClickRefresh =>
      if negb (isMountedRef s) || negb (onCustomTab p) || refreshDisabled s then w
      else
        let '(s', o) := handleRefreshCustomModels s in
        {| panel := withLoaderState s' p; inFlight := enqueue (inFlight w) o |}
  | ClickTab provider =>
      if negb (isMountedRef s) then w
      else
        let '(p', o) := handleCloudProviderChange provider p in
        {| panel := p'; inFlight := enqueue (inFlight w) o |}
  | RunAutoLoad =>
      if negb (isMountedRef s) then w
      else
        let '(p', o) := autoLoadEffect p in
        {| panel := p'; inFlight := enqueue (inFlight w) o |}
  | Environment e =>
      let w' := step normalizeBaseUrl buildApiUrl
                  {| component := s; suspended := inFlight w |} e in
      {| panel := withLoaderState (component w') p; inFlight := suspended w' |}
  end.

Definition runPanel (actions : list Action) (w : PanelWorld) : PanelWorld :=
  fold_left stepPanel actions w.

End Handlers.

(** A call of the loader that comes from none of the component's call
    sites. *)
Definition foreignCall (a : Action) : bool :=
  match a with
  | Environment (Call _ _) => true
  | _ => false
  end.



(** ** Notions used by the further properties *)

(** [displayedCustomModels] at a render of the component. *)
Definition displayedOf (s : State) : list CloudModelOption :=
  displayedCustomModels (customBaseInput s) (cloudReasoningBaseUrl s)
    (customModelOptions s).

(** The [Authorization] header sent with a key. *)
Definition bearer (key : option string) : option string :=
  match key with
  | Some k => if JsString.truthy k then Some (String.append "Bearer " k) else None
  | None => None
  end.

(** The base passes both checks of lines 238-256. *)
Definition fetchable (nb : string) : bool :=
  JsString.includes nb "://" && transportAllowed nb.

(** A settlement that carries a failure: the key lookup or the request was
    rejected, or the body of a non-2xx response has been read. *)
Definition isFailure (r : Resolution) : bool :=
  match r with
  | OfKey (KeyRejected _) => true
  | OfFetch (FetchRejected _) => true
  | OfText _ => true
  | _ => false
  end.

(** What the loader never writes: the text of the field, the props it
    reads, the mount flag. *)
Definition sameSurroundings (s s' : State) : Prop :=
  customBaseInput s' = customBaseInput s
  /\ cloudReasoningBaseUrl s' = cloudReasoningBaseUrl s
  /\ openaiApiKey s' = openaiApiKey s
  /\ isMountedRef s' = isMountedRef s.

(** While the loading flag is up, no error and no option is shown. *)
Definition tidy (s : State) : bool :=
  negb (customModelsLoading s)
  || (match customModelsError s with None => true | Some _ => false end
      && match customModelOptions s with [] => true | _ :: _ => false end).

(** The pending marker names the base of an invocation that is suspended. *)
Definition markerIsLive (s : State) (pool : list Suspended) : bool :=
  match pendingBaseRef s with
  | Some nb => existsb (fun k => String.eqb (normalizedBase (invocationOf k)) nb) pool
  | None => true
  end.

(** ** Concrete scenarios of the panel *)

(** A default base for the scenarios (the placeholder of the field, line
    570). *)
Definition exampleDefaultBase : string := "https://api.openai.com/v1".

(** A registry with no models. *)
Definition emptyRegistry : string -> list CloudModelOption := fun _ => [].

(** [baseB] typed into the field, with blanks around it, over the saved
    [baseA]. *)
Definition typedB : State :=
  setCustomBaseInput "  https://b.example/v1 " mountedOnA.

(** The panel on the openai tab while a request for [baseA] is pending. *)
Definition pendingOnOpenaiTab : Panel :=
  {| loaderState :=
       fst (loadRemoteModels specNormalizeBaseUrl specBuildApiUrl None false mountedOnA);
     selectedCloudProvider := "openai";
     localReasoningProvider := "openai" |}.

(** The invocation that Apply starts from [typedB]. *)
Definition invocationB : Invocation :=
  {| normalizedBase := baseB;
     apiKey := Some "sk-test";
     closureReasoningModel := JsString "m0" |}.

(** The panel on the openai tab after the load of [baseA] has succeeded. *)
Definition loadedOnOpenaiTab : Panel :=
  {| loaderState := loadedOnA;
     selectedCloudProvider := "openai";
     localReasoningProvider := "openai" |}.

(** [{ data: [ { id: "m1" }, { id: "m2" } ] }] *)
Definition payloadM1M2 : JsValue :=
  JsObject [("data", JsArray [JsObject [("id", JsString "m1")];
                              JsObject [("id", JsString "m2")]])].

(** A load of [baseA] is made while [m0] is selected; the response has
    arrived and its body is being read when the user picks [m2]. *)
Definition pickedWhileLoading : World :=
  run specNormalizeBaseUrl specBuildApiUrl
    [ Call None false;
      Settle 0 (OfFetch (FetchResponse 200 "OK"));
      HostSelectsModel (JsString "m2") ]
    {| component := mountedOnA; suspended := [] |}.

(** The invocation of a load of [baseA] made while [m2] is selected. *)
Definition invocationWithM2 : Invocation :=
  {| normalizedBase := baseA;
     apiKey := Some "sk-test";
     closureReasoningModel := JsString "m2" |}.

(** The panel mounted on the custom tab with [baseA] saved. *)
Definition customTabOnA : Panel :=
  mountPanel specNormalizeBaseUrl baseA "sk-test" (JsString "m0") "custom".

Definition examplePanelRun (actions : list Action) : PanelWorld :=
  runPanel specNormalizeBaseUrl specBuildApiUrl exampleDefaultBase emptyRegistry actions
    {| panel := customTabOnA; inFlight := [] |}.

(* ================================================================== *)
(** ** Properties of the string operations *)

Lemma startsWith_spec (s p : string) :
  JsString.startsWith s p = true <-> exists rest, s = String.append p rest.
Proof.
  unfold JsString.startsWith. revert s.
  induction p as [|a p IH]; intros [|b s]; simpl.
  - split; [intros _; now exists EmptyString | reflexivity].
  - split; [intros _; now exists (String b s) | reflexivity].
  - split; [discriminate | intros [rest H]; discriminate].
  - destruct (ascii_dec a b) as [->|Hne].
    + rewrite IH. split; intros [rest H]; exists rest.
      * now rewrite H.
      * now injection H.
    + split; [discriminate | intros [rest H]; injection H; congruence].
Qed.

Lemma includes_spec (s sub : string) :
  JsString.includes s sub = true
  <-> exists pre post, s = String.append pre (String.append sub post).
Proof.
  induction s as [|c s IH]; cbn [JsString.includes];
    rewrite orb_true_iff, startsWith_spec.
  - split.
    + intros [[rest H]|H]; [|discriminate]. now exists EmptyString, rest.
    + intros [pre [post H]]. left. destruct pre; [now exists post | discriminate].
  - rewrite IH. split.
    + intros [[rest H]|[pre [post H]]].
      * now exists EmptyString, rest.
      * exists (String c pre), post. simpl. now rewrite H.
    + intros [pre [post H]]. destruct pre as [|d pre]; simpl in H.
      * left. now exists post.
      * right. injection H as _ H. now exists pre, post.
Qed.

(** A match of [\b(401|403)\b] at the head of the input. *)
Lemma matchWordHere_codes (before : option ascii) (s : string) :
  JsString.matchWordHere ["401"; "403"] before s = true
  <-> exists code post,
        s = String.append code post /\ In code ["401"; "403"]
        /\ JsString.isWord before = false
        /\ JsString.isWord (JsString.head post) = false.
Proof.
  unfold JsString.matchWordHere. simpl existsb.
  rewrite orb_false_r, orb_true_iff, !andb_true_iff, !startsWith_spec.
  unfold JsString.wordBoundary. split.
  - intros [[[Hb [post ->]] Ha]|[[Hb [post ->]] Ha]]; simpl in Hb, Ha.
    + exists "401", post. simpl. repeat split; auto.
      * destruct (JsString.isWord before); [discriminate | reflexivity].
      * destruct (JsString.isWord (JsString.head post)); [discriminate | reflexivity].
    + exists "403", post. simpl. repeat split; auto.
      * destruct (JsString.isWord before); [discriminate | reflexivity].
      * destruct (JsString.isWord (JsString.head post)); [discriminate | reflexivity].
  - intros [code [post [-> [Hin [Hb Ha]]]]].
    destruct Hin as [<-|[<-|[]]]; [left | right]; simpl;
      rewrite Hb, Ha; (repeat split; auto); now exists post.
Qed.

Lemma testWordFrom_codes (s : string) : forall before,
  JsString.testWordFrom ["401"; "403"] before s = true
  <-> exists pre code post,
        s = String.append pre (String.append code post)
        /\ In code ["401"; "403"]
        /\ JsString.isWord (JsString.last pre before) = false
        /\ JsString.isWord (JsString.head post) = false.
Proof.
  induction s as [|c s IH]; intros before;
    cbn [JsString.testWordFrom]; rewrite orb_true_iff, matchWordHere_codes.
  - split.
    + intros [[code [post [H [Hin [Hb Ha]]]]]|H]; [|discriminate].
      exists EmptyString, code, post. auto.
    + intros [pre [code [post [H [Hin [Hb Ha]]]]]].
      destruct pre; [|discriminate]. left. exists code, post. auto.
  - rewrite IH. split.
    + intros [[code [post [H [Hin [Hb Ha]]]]]|[pre [code [post [H [Hin [Hb Ha]]]]]]].
      * exists EmptyString, code, post. auto.
      * exists (String c pre), code, post. simpl. rewrite H. auto.
    + intros [pre [code [post [H [Hin [Hb Ha]]]]]].
      destruct pre as [|d pre]; simpl in H.
      * left. exists code, post. auto.
      * right. injection H as -> H. exists pre, code, post. auto.
Qed.

Lemma testWord_codes (s : string) :
  JsString.testWord ["401"; "403"] s = true <-> containsWord ["401"; "403"] s.
Proof. unfold JsString.testWord, containsWord. apply testWordFrom_codes. Qed.

Lemma trimEnd_append_solid (a b : string) :
  JsString.everyChar notWhiteSpace a = true ->
  JsString.trimEnd (String.append a b) = String.append a (JsString.trimEnd b).
Proof.
  induction a as [|c a IH]; intros H; simpl in *; [reflexivity|].
  apply andb_true_iff in H as [Hc Ha]. rewrite (IH Ha).
  unfold notWhiteSpace in Hc. apply negb_true_iff in Hc. rewrite Hc.
  destruct (String.append a (JsString.trimEnd b)); reflexivity.
Qed.

Lemma trimStart_solid (c : ascii) (s : string) :
  JsString.isWhiteSpace c = false ->
  JsString.trimStart (String c s) = String c s.
Proof. intros H. simpl. now rewrite H. Qed.

Lemma uint_digits_solid (d : Decimal.uint) :
  JsString.everyChar notWhiteSpace (NilEmpty.string_of_uint d) = true.
Proof. induction d; simpl; auto. Qed.

Lemma ofN_solid (n : N) :
  JsString.everyChar notWhiteSpace (JsString.ofN n) = true.
Proof.
  unfold JsString.ofN, NilZero.string_of_uint.
  destruct (N.to_uint n); try reflexivity; apply uint_digits_solid.
Qed.

Lemma ofN_not_empty (n : N) : JsString.ofN n <> EmptyString.
Proof.
  unfold JsString.ofN, NilZero.string_of_uint.
  destruct (N.to_uint n); simpl; discriminate.
Qed.

Lemma trim_solid_prefix (a b : string) :
  a <> EmptyString ->
  JsString.everyChar notWhiteSpace a = true ->
  JsString.trim (String.append a b) = String.append a (JsString.trimEnd b).
Proof.
  intros Hne Ha. unfold JsString.trim.
  destruct a as [|c a]; [congruence|]. simpl in Ha.
  apply andb_true_iff in Ha as [Hc Ha'].
  change (String.append (String c a) b) with (String c (String.append a b)).
  rewrite trimStart_solid by (now apply negb_true_iff in Hc).
  change (String c (String.append a b)) with (String.append (String c a) b).
  apply trimEnd_append_solid. simpl. now rewrite Hc, Ha'.
Qed.

Lemma errorSummary_shape (status : N) (statusText errorText : string) :
  errorSummary status statusText errorText
  = String.append (JsString.ofN status) (summaryTail (snippetOf statusText errorText)).
Proof.
  unfold errorSummary, snippetOf, summaryTail.
  destruct (JsString.truthy errorText);
    rewrite trim_solid_prefix by (apply ofN_not_empty || apply ofN_solid);
    simpl; now destruct (JsString.trimEnd _).
Qed.

Lemma slice0_length (s : string) (n : nat) :
  String.length (JsString.slice0 s n) <= n.
Proof.
  unfold JsString.slice0. revert s.
  induction n as [|n IH]; intros [|c s]; simpl; try lia.
  specialize (IH s). lia.
Qed.

Lemma slice0_prefix (s : string) (n : nat) :
  exists rest, s = String.append (JsString.slice0 s n) rest.
Proof.
  unfold JsString.slice0. revert s.
  induction n as [|n IH]; intros [|c s]; simpl.
  - now exists EmptyString.
  - now exists (String c s).
  - now exists EmptyString.
  - destruct (IH s) as [rest H]. exists rest. now rewrite <- H.
Qed.

Lemma lowerChar_idem (c : ascii) :
  JsString.lowerChar (JsString.lowerChar c) = JsString.lowerChar c.
Proof. destruct c as [[] [] [] [] [] [] [] []]; reflexivity. Qed.

Lemma lowerChar_upperChar (c : ascii) :
  JsString.lowerChar (JsString.upperChar c) = JsString.lowerChar c.
Proof. destruct c as [[] [] [] [] [] [] [] []]; reflexivity. Qed.

Lemma toLowerCase_idem (s : string) :
  JsString.toLowerCase (JsString.toLowerCase s) = JsString.toLowerCase s.
Proof.
  unfold JsString.toLowerCase.
  induction s as [|c s IH]; simpl; [reflexivity|]. now rewrite lowerChar_idem, IH.
Qed.

Lemma toLowerCase_toUpperCase (s : string) :
  JsString.toLowerCase (JsString.toUpperCase s) = JsString.toLowerCase s.
Proof.
  unfold JsString.toLowerCase, JsString.toUpperCase.
  induction s as [|c s IH]; simpl; [reflexivity|]. now rewrite lowerChar_upperChar, IH.
Qed.


(* ================================================================== *)
(** ** Properties of the loader's blocks *)

Ltac split_ifs :=
  repeat match goal with
         | |- context [if ?b then _ else _] => destruct b eqn:?
         end.

Lemma isCurrent_true (nb : string) (s : State) :
  isCurrent nb s = true <-> isMountedRef s = true /\ latestReasoningBaseRef s = nb.
Proof.
  unfold isCurrent. rewrite andb_true_iff, String.eqb_eq. tauto.
Qed.

Lemma isCurrent_false (nb : string) (s : State) :
  isMountedRef s = false \/ latestReasoningBaseRef s <> nb -> isCurrent nb s = false.
Proof.
  unfold isCurrent. intros [H|H]; [now rewrite H|].
  apply String.eqb_neq in H. rewrite H. apply andb_false_r.
Qed.

Lemma refIs_true (r : option string) (nb : string) :
  refIs r nb = true <-> r = Some nb.
Proof.
  destruct r as [b|]; simpl; [rewrite String.eqb_eq|]; split; congruence.
Qed.

Lemma finallyBlock_keeps (nb : string) (s : State) :
  customModelOptions (finallyBlock nb s) = customModelOptions s
  /\ customModelsError (finallyBlock nb s) = customModelsError s
  /\ reasoningModel (finallyBlock nb s) = reasoningModel s
  /\ lastLoadedBaseRef (finallyBlock nb s) = lastLoadedBaseRef s
  /\ latestReasoningBaseRef (finallyBlock nb s) = latestReasoningBaseRef s
  /\ isMountedRef (finallyBlock nb s) = isMountedRef s
  /\ fetchLog (finallyBlock nb s) = fetchLog s.
Proof. unfold finallyBlock. split_ifs; simpl; auto 10. Qed.

Lemma finallyBlock_loading (nb : string) (s : State) :
  customModelsLoading (finallyBlock nb s)
  = if isCurrent nb s then false else customModelsLoading s.
Proof.
  unfold finallyBlock.
  destruct (refIs (pendingBaseRef s) nb);
    [change (isCurrent nb (setPendingBase None s)) with (isCurrent nb s)|];
    destruct (isCurrent nb s); reflexivity.
Qed.

(** The cleanup releases the marker of its own base. *)
Lemma finallyBlock_pending (nb : string) (s : State) :
  pendingBaseRef (finallyBlock nb s)
  = if refIs (pendingBaseRef s) nb then None else pendingBaseRef s.
Proof. unfold finallyBlock. split_ifs; reflexivity. Qed.

Lemma finallyBlock_releases (nb : string) (s : State) :
  refIs (pendingBaseRef (finallyBlock nb s)) nb = false.
Proof.
  rewrite finallyBlock_pending.
  destruct (refIs (pendingBaseRef s) nb) eqn:E; [reflexivity | exact E].
Qed.

Lemma finallyBlock_stale (nb : string) (s : State) :
  isCurrent nb s = false -> sameLoaderState s (finallyBlock nb s).
Proof.
  intros H. unfold sameLoaderState.
  rewrite finallyBlock_loading, H.
  destruct (finallyBlock_keeps nb s) as (?&?&?&?&?). auto.
Qed.

Lemma catchBlock_stale (nb : string) (key : option string) (m : string) (s : State) :
  isCurrent nb s = false -> catchBlock nb key m s = s.
Proof. unfold catchBlock. now intros ->. Qed.

Lemma applyModels_stale (inv : Invocation) (mapped : list CloudModelOption) (s : State) :
  isCurrent (normalizedBase inv) s = false -> applyModels inv mapped s = s.
Proof. unfold applyModels. now intros ->. Qed.

Lemma rejectWith_stale (nb m : string) (s : State) :
  isCurrent nb s = false -> rejectWith nb m s = finallyBlock nb s.
Proof. unfold rejectWith. now intros ->. Qed.

Lemma issueFetch_same (r : Request) (s : State) :
  sameLoaderState s (issueFetch r s).
Proof. unfold sameLoaderState. simpl. auto. Qed.

Section LoaderBlocks.

Variable normalizeBaseUrl : string -> string.
Variable buildApiUrl : string -> string -> string.

Lemma validateAndFetch_stale (inv : Invocation) (s s' : State) (o : Outcome) :
  validateAndFetch buildApiUrl inv s = (s', o) ->
  isCurrent (normalizedBase inv) s = false ->
  sameLoaderState s s'.
Proof.
  unfold validateAndFetch. intros H Hst.
  destruct (negb (JsString.includes (normalizedBase inv) "://"));
    [|destruct (negb (transportAllowed (normalizedBase inv)))];
    injection H as <- <-.
  - rewrite rejectWith_stale by assumption. now apply finallyBlock_stale.
  - rewrite rejectWith_stale by assumption. now apply finallyBlock_stale.
  - apply issueFetch_same.
Qed.

Lemma sameLoaderState_refl (s : State) : sameLoaderState s s.
Proof. unfold sameLoaderState. auto. Qed.

(** A settlement that finds its invocation stale changes nothing that is
    shown. *)
Lemma stale_settlement (k : Suspended) (r : Resolution) (s s' : State) (o : Outcome) :
  resumes buildApiUrl k r s s' o ->
  isCurrent (normalizedBase (invocationOf k)) s = false ->
  sameLoaderState s s'.
Proof.
  intros H Hst. destruct H as [inv r s s' o H|inv r s s' o H|inv st stt b s s' o H|inv b s s' o H];
    simpl in Hst.
  - destruct r as [key|m]; simpl in H.
    + eapply validateAndFetch_stale; [exact H | exact Hst].
    + injection H as <- <-. rewrite catchBlock_stale by assumption.
      now apply finallyBlock_stale.
  - destruct r as [st stt|m]; simpl in H.
    + destruct (responseOk st); injection H as <- <-; apply sameLoaderState_refl.
    + injection H as <- <-. rewrite catchBlock_stale by assumption.
      now apply finallyBlock_stale.
  - unfold resumeText in H. injection H as <- <-.
    rewrite catchBlock_stale by assumption. now apply finallyBlock_stale.
  - unfold resumeJson in H. injection H as <- <-.
    rewrite applyModels_stale by assumption. now apply finallyBlock_stale.
Qed.

Lemma catchBlock_refs (nb : string) (key : option string) (m : string) (s : State) :
  latestReasoningBaseRef (catchBlock nb key m s) = latestReasoningBaseRef s
  /\ isMountedRef (catchBlock nb key m s) = isMountedRef s
  /\ pendingBaseRef (catchBlock nb key m s) = pendingBaseRef s
  /\ fetchLog (catchBlock nb key m s) = fetchLog s.
Proof. unfold catchBlock. split_ifs; simpl; auto. Qed.

Lemma applyModels_refs (inv : Invocation) (mapped : list CloudModelOption) (s : State) :
  latestReasoningBaseRef (applyModels inv mapped s) = latestReasoningBaseRef s
  /\ isMountedRef (applyModels inv mapped s) = isMountedRef s
  /\ pendingBaseRef (applyModels inv mapped s) = pendingBaseRef s
  /\ fetchLog (applyModels inv mapped s) = fetchLog s.
Proof.
  unfold applyModels. destruct (isCurrent (normalizedBase inv) s); [|auto].
  destruct mapped; simpl; [auto|]. split_ifs; simpl; auto.
Qed.

Lemma rejectWith_refs (nb m : string) (s : State) :
  latestReasoningBaseRef (rejectWith nb m s) = latestReasoningBaseRef s
  /\ isMountedRef (rejectWith nb m s) = isMountedRef s
  /\ fetchLog (rejectWith nb m s) = fetchLog s.
Proof.
  unfold rejectWith.
  destruct (finallyBlock_keeps nb
              (if isCurrent nb s
               then setCustomModelsLoading false (setCustomModelsError (Some m) s)
               else s)) as (_&_&_&_&H1&H2&H3).
  rewrite H1, H2, H3. split_ifs; simpl; auto.
Qed.

Lemma validateAndFetch_refs (inv : Invocation) (s s' : State) (o : Outcome) :
  validateAndFetch buildApiUrl inv s = (s', o) ->
  latestReasoningBaseRef s' = latestReasoningBaseRef s
  /\ isMountedRef s' = isMountedRef s.
Proof.
  unfold validateAndFetch. intros H.
  destruct (negb (JsString.includes (normalizedBase inv) "://"));
    [|destruct (negb (transportAllowed (normalizedBase inv)))];
    injection H as <- <-; try (split; apply rejectWith_refs); simpl; auto.
Qed.

(** No settlement moves the latest requested base or the mount flag. *)
Lemma settlement_refs (k : Suspended) (r : Resolution) (s s' : State) (o : Outcome) :
  resumes buildApiUrl k r s s' o ->
  latestReasoningBaseRef s' = latestReasoningBaseRef s
  /\ isMountedRef s' = isMountedRef s.
Proof.
  intros H. destruct H as [inv r s s' o H|inv r s s' o H|inv st stt b s s' o H|inv b s s' o H].
  - destruct r as [key|m]; simpl in H.
    + eapply validateAndFetch_refs; exact H.
    + injection H as <- <-.
      destruct (finallyBlock_keeps (normalizedBase inv)
                  (catchBlock (normalizedBase inv) (apiKey inv) m s)) as (_&_&_&_&H1&H2&_).
      destruct (catchBlock_refs (normalizedBase inv) (apiKey inv) m s) as (H3&H4&_).
      split; congruence.
  - destruct r as [st stt|m]; simpl in H.
    + destruct (responseOk st); injection H as <- <-; auto.
    + injection H as <- <-.
      destruct (finallyBlock_keeps (normalizedBase inv)
                  (catchBlock (normalizedBase inv) (apiKey inv) m s)) as (_&_&_&_&H1&H2&_).
      destruct (catchBlock_refs (normalizedBase inv) (apiKey inv) m s) as (H3&H4&_).
      split; congruence.
  - unfold resumeText in H. injection H as <- <-.
    match goal with |- context [catchBlock ?a ?b ?c s] =>
      destruct (finallyBlock_keeps a (catchBlock a b c s)) as (_&_&_&_&H1&H2&_);
      destruct (catchBlock_refs a b c s) as (H3&H4&_) end.
    split; congruence.
  - unfold resumeJson in H. injection H as <- <-.
    match goal with |- context [applyModels ?a ?b s] =>
      destruct (finallyBlock_keeps (normalizedBase a) (applyModels a b s)) as (_&_&_&_&H1&H2&_);
      destruct (applyModels_refs a b s) as (H3&H4&_) end.
    split; congruence.
Qed.

(** The relation and the function say the same. *)
Lemma resume_resumes (k : Suspended) (r : Resolution) (s s' : State) (o : Outcome) :
  resume buildApiUrl k r s = Some (s', o) <-> resumes buildApiUrl k r s s' o.
Proof.
  split.
  - destruct k, r; unfold resume; intros H; try discriminate;
      apply (f_equal (fun x => match x with Some y => y | None => (s, o) end)) in H.
    + now apply resumes_key.
    + now apply resumes_fetch.
    + now apply resumes_text.
    + now apply resumes_json.
  - intros H. destruct H as [? ? ? ? ? H|? ? ? ? ? H|? ? ? ? ? ? ? H|? ? ? ? ? H];
      simpl; now rewrite H.
Qed.

(** Between two requests the latest requested base stays what it is. *)
Lemma quiet_latest (s s2 : State) :
  quiet buildApiUrl s s2 -> latestReasoningBaseRef s2 = latestReasoningBaseRef s.
Proof.
  induction 1 as [s|s k r s1 o s2 Hres _ IH|s s2 _ IH].
  - reflexivity.
  - rewrite IH. eapply settlement_refs; exact Hres.
  - rewrite IH. reflexivity.
Qed.

End LoaderBlocks.

(* ================================================================== *)
(** ** Properties of a call *)

Section LoaderCalls.

Variable normalizeBaseUrl : string -> string.
Variable buildApiUrl : string -> string -> string.

Local Abbreviation load := (loadRemoteModels normalizeBaseUrl buildApiUrl).
Local Abbreviation baseOf ov s := (normalizeBaseUrl (rawBaseOf ov s)).

Lemma accepted_true (nb : string) (force : bool) (s : State) :
  accepted nb force s = true ->
  JsString.truthy nb = true
  /\ negb force && refIs (lastLoadedBaseRef s) nb = false
  /\ negb force && refIs (pendingBaseRef s) nb = false.
Proof.
  unfold accepted. rewrite !andb_true_iff, !negb_true_iff. tauto.
Qed.

Lemma truthy_length (k : string) :
  JsString.truthy k && (0 <? JsString.length k) = JsString.truthy k.
Proof. destruct k; reflexivity. Qed.

(** An accepted call is its prologue followed by the key lookup. *)
Lemma load_accepted (baseOverride : option string) (force : bool) (s : State) :
  accepted (baseOf baseOverride s) force s = true ->
  load baseOverride force s
  = let nb := baseOf baseOverride s in
    let s3 := entered baseOverride nb s in
    if JsString.truthy (keyFromStateOf s)
    then validateAndFetch buildApiUrl
           {| normalizedBase := nb;
              apiKey := Some (keyFromStateOf s);
              closureReasoningModel := reasoningModel s |} s3
    else (s3, Suspend (AwaitKey {| normalizedBase := nb;
                                   apiKey := None;
                                   closureReasoningModel := reasoningModel s |})).
Proof.
  intros H. apply accepted_true in H as (Ht & Hl & Hp).
  unfold loadRemoteModels. rewrite Ht, Hl, Hp. cbn [negb].
  rewrite truthy_length. unfold entered, keyFromStateOf.
  destruct baseOverride; simpl; destruct (isMountedRef s); reflexivity.
Qed.

(** A call the early returns answer. *)
Lemma load_not_accepted (baseOverride : option string) (force : bool) (s : State) :
  accepted (baseOf baseOverride s) force s = false ->
  JsString.truthy (baseOf baseOverride s) = true ->
  load baseOverride force s = (s, Returned).
Proof.
  unfold accepted, loadRemoteModels. intros H Ht. rewrite Ht in *. simpl in *.
  destruct (negb force && refIs (lastLoadedBaseRef s) _); [reflexivity|].
  destruct (negb force && refIs (pendingBaseRef s) _); [reflexivity|discriminate].
Qed.

Lemma load_empty (baseOverride : option string) (force : bool) (s : State) :
  JsString.truthy (baseOf baseOverride s) = false ->
  load baseOverride force s
  = (if isMountedRef s
     then setCustomModelOptions []
            (setCustomModelsError None (setCustomModelsLoading false s))
     else s, Returned).
Proof. unfold loadRemoteModels. now intros ->. Qed.

Lemma entered_refs (baseOverride : option string) (nb : string) (s : State) :
  isMountedRef (entered baseOverride nb s) = isMountedRef s
  /\ latestReasoningBaseRef (entered baseOverride nb s)
     = match baseOverride with Some _ => nb | None => latestReasoningBaseRef s end
  /\ fetchLog (entered baseOverride nb s) = fetchLog s
  /\ pendingBaseRef (entered baseOverride nb s) = Some nb.
Proof.
  unfold entered. destruct baseOverride; simpl; destruct (isMountedRef s) eqn:E;
    simpl; rewrite ?E; repeat split; reflexivity.
Qed.

(** After an accepted call the latest requested base is the base of that
    call: line 212 sets it for a call with an override, and the effect of
    lines 169-171 has set it for a call that reads the prop. *)
Lemma load_accepted_latest (baseOverride : option string) (force : bool)
      (s s' : State) (o : Outcome) :
  load baseOverride force s = (s', o) ->
  accepted (baseOf baseOverride s) force s = true ->
  (baseOverride = None ->
   latestReasoningBaseRef s = normalizeBaseUrl (cloudReasoningBaseUrl s)) ->
  latestReasoningBaseRef s' = baseOf baseOverride s.
Proof.
  intros H Hacc Hsync. rewrite (load_accepted _ _ _ Hacc) in H. cbv zeta in H.
  destruct (entered_refs baseOverride (baseOf baseOverride s) s) as (_ & Hl & _).
  assert (Hl' : latestReasoningBaseRef (entered baseOverride (baseOf baseOverride s) s)
                = baseOf baseOverride s).
  { rewrite Hl. destruct baseOverride; [reflexivity|]. now apply Hsync. }
  destruct (JsString.truthy (keyFromStateOf s)).
  - apply validateAndFetch_refs in H as [H _]. congruence.
  - injection H as <- _. exact Hl'.
Qed.

End LoaderCalls.

(* ================================================================== *)
(** ** One invocation in flight *)

Section LoaderSingleFlight.

Variable normalizeBaseUrl : string -> string.
Variable buildApiUrl : string -> string -> string.

Local Abbreviation load := (loadRemoteModels normalizeBaseUrl buildApiUrl).

Lemma finallyBlock_prop (nb : string) (s : State) :
  cloudReasoningBaseUrl (finallyBlock nb s) = cloudReasoningBaseUrl s.
Proof. unfold finallyBlock. split_ifs; reflexivity. Qed.


(** A segment that suspends leaves the marker and the prop alone and keeps
    the base of the invocation. *)
Lemma validateAndFetch_suspends (inv : Invocation) (s s' : State) (k : Suspended) :
  validateAndFetch buildApiUrl inv s = (s', Suspend k) ->
  normalizedBase (invocationOf k) = normalizedBase inv
  /\ pendingBaseRef s' = pendingBaseRef s
  /\ cloudReasoningBaseUrl s' = cloudReasoningBaseUrl s.
Proof.
  unfold validateAndFetch. intros H.
  destruct (negb (JsString.includes (normalizedBase inv) "://"));
    [discriminate|].
  destruct (negb (transportAllowed (normalizedBase inv))); [discriminate|].
  injection H as <- <-. simpl. auto.
Qed.

Lemma settlement_suspends (k : Suspended) (r : Resolution) (s s' : State) (k' : Suspended) :
  resumes buildApiUrl k r s s' (Suspend k') ->
  normalizedBase (invocationOf k') = normalizedBase (invocationOf k)
  /\ pendingBaseRef s' = pendingBaseRef s
  /\ cloudReasoningBaseUrl s' = cloudReasoningBaseUrl s.
Proof.
  intros H. inversion H; subst; simpl.
  - destruct r0 as [key|m]; simpl in *.
    + match goal with H : validateAndFetch _ _ _ = _ |- _ =>
        apply validateAndFetch_suspends in H; exact H end.
    + discriminate.
  - destruct r0 as [st stt|m]; simpl in *.
    + destruct (responseOk st);
        match goal with H : (_, _) = _ |- _ => injection H as <- <- end; simpl; auto.
    + discriminate.
  - match goal with H : resumeText _ _ _ _ _ = _ |- _ =>
      unfold resumeText in H; discriminate H end.
  - match goal with H : resumeJson _ _ _ = _ |- _ =>
      unfold resumeJson in H; discriminate H end.
Qed.


Lemma settleAt_nil (i : nat) (r : Resolution) (s : State) :
  settleAt buildApiUrl i r [] s = (s, []).
Proof. destruct i; reflexivity. Qed.




End LoaderSingleFlight.

(* ================================================================== *)
(** ** Staleness and de-duplication *)

Section LoaderOrdering.

Variable normalizeBaseUrl : string -> string.
Variable buildApiUrl : string -> string -> string.

Local Abbreviation load := (loadRemoteModels normalizeBaseUrl buildApiUrl).
Local Abbreviation baseOf ov s := (normalizeBaseUrl (rawBaseOf ov s)).

(** C1.  Last-request-wins.  First part: once a request for a base [B2] has
    been accepted (it set the latest requested base at line 212, or the
    effect of lines 169-171 had set it from the prop the call reads), the
    settlement of any invocation for another base [B1], after any number of
    further settlements, leaves the options, the error, the selected model,
    the loading flag and the last-loaded key as they are.  Second part: a
    settlement that does change the options, the error or the selected
    model found the component mounted and its own base equal to the latest
    requested base. *)
Theorem last_request_wins :
  (forall (s0 : State) (baseOverride : option string) (force : bool)
          (s : State) (o2 : Outcome) (sm : State)
          (k1 : Suspended) (r : Resolution) (s' : State) (o : Outcome),
      load baseOverride force s0 = (s, o2) ->
      accepted (baseOf baseOverride s0) force s0 = true ->
      (baseOverride = None ->
       latestReasoningBaseRef s0 = normalizeBaseUrl (cloudReasoningBaseUrl s0)) ->
      quiet buildApiUrl s sm ->
      normalizedBase (invocationOf k1) <> baseOf baseOverride s0 ->
      resumes buildApiUrl k1 r sm s' o ->
      sameLoaderState sm s')
  /\
  (forall (k : Suspended) (r : Resolution) (s s' : State) (o : Outcome),
      resumes buildApiUrl k r s s' o ->
      (customModelOptions s' <> customModelOptions s
       \/ customModelsError s' <> customModelsError s
       \/ reasoningModel s' <> reasoningModel s) ->
      isMountedRef s = true
      /\ latestReasoningBaseRef s = normalizedBase (invocationOf k)).
Proof.
  split.
  - intros s0 baseOverride force s o2 sm k1 r s' o Hcall Hacc Hsync Hq Hne Hres.
    eapply stale_settlement; [exact Hres|].
    apply isCurrent_false. right.
    rewrite (quiet_latest _ _ _ Hq).
    rewrite (load_accepted_latest _ _ _ _ _ _ _ Hcall Hacc Hsync).
    congruence.
  - intros k r s s' o Hres Hchanged.
    destruct (isCurrent (normalizedBase (invocationOf k)) s) eqn:Hcur.
    + now apply isCurrent_true.
    + destruct (stale_settlement _ _ _ _ _ _ Hres Hcur) as (H1 & H2 & H3 & _).
      destruct Hchanged as [H|[H|H]]; congruence.
Qed.

End LoaderOrdering.

(* ================================================================== *)
(** ** Validation of the base URL *)

Lemma rejectWith_current (nb m : string) (s : State) :
  isCurrent nb s = true ->
  customModelsError (rejectWith nb m s) = Some m
  /\ customModelsLoading (rejectWith nb m s) = false.
Proof.
  intros H. unfold rejectWith. rewrite H.
  set (s1 := setCustomModelsLoading false (setCustomModelsError (Some m) s)).
  destruct (finallyBlock_keeps nb s1) as (_ & He & _).
  rewrite He, finallyBlock_loading.
  change (isCurrent nb s1) with (isCurrent nb s). now rewrite H.
Qed.

Lemma transportAllowed_spec (nb : string) :
  transportAllowed nb = true
  <-> (exists rest, nb = String.append "https://" rest)
      \/ (exists pre post, nb = String.append pre (String.append "://localhost" post))
      \/ (exists pre post, nb = String.append pre (String.append "://127.0.0.1" post)).
Proof.
  unfold transportAllowed.
  rewrite <- startsWith_spec, <- !includes_spec.
  destruct (JsString.startsWith nb "https://"),
           (JsString.includes nb "://localhost"),
           (JsString.includes nb "://127.0.0.1"); simpl; intuition discriminate.
Qed.

Section LoaderValidation.

Variable normalizeBaseUrl : string -> string.
Variable buildApiUrl : string -> string -> string.

Local Abbreviation load := (loadRemoteModels normalizeBaseUrl buildApiUrl).
Local Abbreviation baseOf ov s := (normalizeBaseUrl (rawBaseOf ov s)).

Lemma validateAndFetch_schemeless (inv : Invocation) (s : State) :
  JsString.includes (normalizedBase inv) "://" = false ->
  validateAndFetch buildApiUrl inv s
  = (rejectWith (normalizedBase inv) MISSING_PROTOCOL_ERROR s, Returned).
Proof. unfold validateAndFetch. now intros ->. Qed.

Lemma validateAndFetch_insecure (inv : Invocation) (s : State) :
  JsString.includes (normalizedBase inv) "://" = true ->
  transportAllowed (normalizedBase inv) = false ->
  validateAndFetch buildApiUrl inv s
  = (rejectWith (normalizedBase inv) HTTPS_ONLY_ERROR s, Returned).
Proof. unfold validateAndFetch. now intros -> ->. Qed.

Lemma validateAndFetch_allowed (inv : Invocation) (s : State) :
  JsString.includes (normalizedBase inv) "://" = true ->
  transportAllowed (normalizedBase inv) = true ->
  validateAndFetch buildApiUrl inv s
  = (issueFetch
       {| req_url := buildApiUrl (normalizedBase inv) "/models";
          req_authorization :=
            match apiKey inv with
            | Some k => if JsString.truthy k then Some (String.append "Bearer " k) else None
            | None => None
            end |} s,
     Suspend (AwaitFetch inv)).
Proof. unfold validateAndFetch. now intros -> ->. Qed.

Lemma entered_current (baseOverride : option string) (nb : string) (s : State) :
  isMountedRef s = true ->
  (baseOverride = None -> latestReasoningBaseRef s = nb) ->
  isCurrent nb (entered baseOverride nb s) = true.
Proof.
  intros Hm Hl. apply isCurrent_true.
  destruct (entered_refs baseOverride nb s) as (H1 & H2 & _).
  rewrite H1, H2. split; [exact Hm|].
  destruct baseOverride; [reflexivity | now apply Hl].
Qed.

(** C4.  An empty or scheme-less base never reaches [fetch].
    - A call whose normalized base is empty returns at once, issues no
      fetch and, the component being mounted, leaves the options empty,
      the error null and the loading flag false.
    - A call whose normalized base has no ["://"] issues no fetch: it
      returns, or suspends at the key lookup; when it is accepted with the
      key held in memory, on a mounted component whose latest requested
      base is this one, it returns with the prompt for a full URL as error
      and the loading flag false.
    - When the key lookup of such an invocation settles, the invocation
      returns without a fetch; if the lookup resolved and the invocation
      is still current, the error is the prompt for a full URL and the
      loading flag is false. *)
Theorem empty_or_schemeless_base_never_fetches :
  (forall (baseOverride : option string) (force : bool) (s : State),
      JsString.truthy (baseOf baseOverride s) = false ->
      exists s',
        load baseOverride force s = (s', Returned)
        /\ fetchLog s' = fetchLog s
        /\ (isMountedRef s = true ->
            customModelOptions s' = []
            /\ customModelsError s' = None
            /\ customModelsLoading s' = false))
  /\
  (forall (baseOverride : option string) (force : bool) (s s' : State) (o : Outcome),
      load baseOverride force s = (s', o) ->
      JsString.includes (baseOf baseOverride s) "://" = false ->
      fetchLog s' = fetchLog s
      /\ (o = Returned
          \/ exists inv, o = Suspend (AwaitKey inv)
                         /\ normalizedBase inv = baseOf baseOverride s)
      /\ (accepted (baseOf baseOverride s) force s = true ->
          JsString.truthy (keyFromStateOf s) = true ->
          isMountedRef s = true ->
          (baseOverride = None -> latestReasoningBaseRef s = baseOf baseOverride s) ->
          o = Returned
          /\ customModelsError s' = Some MISSING_PROTOCOL_ERROR
          /\ customModelsLoading s' = false))
  /\
  (forall (inv : Invocation) (r : KeyResult) (s s' : State) (o : Outcome),
      JsString.includes (normalizedBase inv) "://" = false ->
      resumes buildApiUrl (AwaitKey inv) (OfKey r) s s' o ->
      o = Returned
      /\ fetchLog s' = fetchLog s
      /\ (forall key, r = KeyResolved key ->
          isCurrent (normalizedBase inv) s = true ->
          customModelsError s' = Some MISSING_PROTOCOL_ERROR
          /\ customModelsLoading s' = false)).
Proof.
  split; [|split].
  - intros baseOverride force s Hempty.
    rewrite (load_empty _ _ _ _ _ Hempty).
    eexists; split; [reflexivity|].
    destruct (isMountedRef s); simpl; auto. split; [reflexivity | discriminate].
  - intros baseOverride force s s' o Hcall Hno.
    destruct (JsString.truthy (baseOf baseOverride s)) eqn:Ht.
    2:{ rewrite (load_empty _ _ _ _ _ Ht) in Hcall. injection Hcall as <- <-.
        split; [destruct (isMountedRef s); reflexivity|].
        split; [now left|]. intros Hacc. unfold accepted in Hacc.
        rewrite Ht in Hacc. discriminate. }
    destruct (accepted (baseOf baseOverride s) force s) eqn:Hacc.
    2:{ rewrite (load_not_accepted _ _ _ _ _ Hacc Ht) in Hcall.
        injection Hcall as <- <-. split; [reflexivity|].
        split; [now left | discriminate]. }
    rewrite (load_accepted _ _ _ _ _ Hacc) in Hcall. cbv zeta in Hcall.
    destruct (entered_refs baseOverride (baseOf baseOverride s) s) as (_ & _ & Hlog & _).
    destruct (JsString.truthy (keyFromStateOf s)) eqn:Hkey.
    + rewrite validateAndFetch_schemeless in Hcall by exact Hno.
      injection Hcall as <- <-. cbn [normalizedBase].
      destruct (rejectWith_refs (baseOf baseOverride s) MISSING_PROTOCOL_ERROR
                  (entered baseOverride (baseOf baseOverride s) s)) as (_ & _ & Hl).
      split; [congruence|]. split; [now left|].
      intros _ _ Hm Hl'. split; [reflexivity|].
      apply rejectWith_current. now apply entered_current.
    + injection Hcall as <- <-. split; [exact Hlog|].
      split; [right; eexists; split; reflexivity | discriminate].
  - intros inv r s s' o Hno Hres. inversion Hres; subst.
    destruct r as [key|m]; simpl in *.
    + match goal with H : validateAndFetch _ _ _ = _ |- _ =>
        rewrite validateAndFetch_schemeless in H by exact Hno;
        cbn [normalizedBase] in H; injection H as <- <- end.
      destruct (rejectWith_refs (normalizedBase inv) MISSING_PROTOCOL_ERROR s) as (_ & _ & Hl).
      split; [reflexivity|]. split; [exact Hl|].
      intros key' _ Hcur. now apply rejectWith_current.
    + match goal with H : (_, _) = _ |- _ => injection H as <- <- end.
      split; [reflexivity|]. split; [|discriminate].
      destruct (finallyBlock_keeps (normalizedBase inv)
                  (catchBlock (normalizedBase inv) (apiKey inv) m s))
        as (_&_&_&_&_&_&Hl).
      rewrite Hl. apply catchBlock_refs.
Qed.

(** C9.  The transport check is a test on the text of the base: it passes
    exactly the bases that start with ["https://"] or contain
    ["://localhost"] or ["://127.0.0.1"] somewhere.  The host of the URL
    plays no part: the base [http://evil.example/x://localhost] has scheme
    [http] and a host that is no loopback name, and an invocation for it
    goes on to [fetch]. *)
Theorem transport_check_is_textual :
  (forall nb : string,
      transportAllowed nb = true
      <-> (exists rest, nb = String.append "https://" rest)
          \/ (exists pre post, nb = String.append pre (String.append "://localhost" post))
          \/ (exists pre post, nb = String.append pre (String.append "://127.0.0.1" post)))
  /\
  (urlScheme "http://evil.example/x://localhost" = Some "http"
   /\ isLoopbackHost (urlHost "http://evil.example/x://localhost") = false
   /\ forall (key : option string) (model : JsValue) (s : State),
        exists request,
          validateAndFetch buildApiUrl
            {| normalizedBase := "http://evil.example/x://localhost";
               apiKey := key;
               closureReasoningModel := model |} s
          = (issueFetch request s,
             Suspend (AwaitFetch
                        {| normalizedBase := "http://evil.example/x://localhost";
                           apiKey := key;
                           closureReasoningModel := model |}))
          /\ req_url request = buildApiUrl "http://evil.example/x://localhost" "/models").
Proof.
  split; [exact transportAllowed_spec|].
  split; [reflexivity|]. split; [reflexivity|].
  intros key model s. eexists. split.
  - apply validateAndFetch_allowed; reflexivity.
  - reflexivity.
Qed.

End LoaderValidation.

(* ================================================================== *)
(** ** Surfacing of errors *)

Lemma catchBlock_current (nb : string) (key : option string) (m : string) (s : State) :
  isCurrent nb s = true ->
  customModelsError (catchBlock nb key m s) = Some (surfacedMessage key m)
  /\ customModelOptions (catchBlock nb key m s) = [].
Proof. unfold catchBlock. intros ->. split; reflexivity. Qed.

Lemma containsWord_not_empty (codes : list string) :
  ~ In EmptyString codes -> ~ containsWord codes EmptyString.
Proof.
  intros Hno (pre & code & post & H & Hin & _).
  destruct pre; [|discriminate]. destruct code; [contradiction|discriminate].
Qed.

Lemma hintShown_spec (key : option string) (errorMessage : string) :
  hintShown key errorMessage = true
  <-> keyTruthy key = false /\ containsWord ["401"; "403"] errorMessage.
Proof.
  unfold hintShown, messageOf.
  rewrite andb_true_iff, negb_true_iff.
  destruct errorMessage as [|c m]; cbn [JsString.truthy].
  - split.
    + intros [H _]. vm_compute in H. discriminate.
    + intros [_ H]. exfalso. revert H. apply containsWord_not_empty.
      simpl. intros [H|[H|[]]]; discriminate.
  - rewrite testWord_codes. tauto.
Qed.

Lemma errorSummary_truthy (status : N) (statusText errorText : string) :
  JsString.truthy (errorSummary status statusText errorText) = true.
Proof.
  rewrite errorSummary_shape.
  pose proof (ofN_not_empty status) as H.
  destruct (JsString.ofN status); [congruence | reflexivity].
Qed.

Lemma summaryTail_head (snippet : string) :
  JsString.isWord (JsString.head (summaryTail snippet)) = false.
Proof. unfold summaryTail. destruct (JsString.trimEnd snippet); reflexivity. Qed.

(** The message of a 401 or 403 response always has the status code as a
    whole word. *)
Lemma errorSummary_unauthorized (status : N) (statusText errorText : string) :
  (status = 401 \/ status = 403)%N ->
  containsWord ["401"; "403"] (errorSummary status statusText errorText).
Proof.
  intros H. rewrite errorSummary_shape.
  exists EmptyString, (JsString.ofN status), (summaryTail (snippetOf statusText errorText)).
  split; [reflexivity|]. split.
  - destruct H as [-> | ->]; simpl; auto.
  - split; [reflexivity | apply summaryTail_head].
Qed.

Lemma surfacedMessage_summary (key : option string) (status : N)
      (statusText errorText : string) :
  surfacedMessage key (errorSummary status statusText errorText)
  = if hintShown key (errorSummary status statusText errorText)
    then UNAUTHORIZED_HINT
    else errorSummary status statusText errorText.
Proof.
  unfold surfacedMessage, messageOf. now rewrite errorSummary_truthy.
Qed.

Section LoaderErrors.

Variable buildApiUrl : string -> string -> string.

(** C5, as amended.  When the body of a non-2xx response has been read and
    the invocation is still current, the invocation returns, the options
    are empty and the error is decided by the message built from the
    response: the status code followed, unless the snippet is blank, by a
    space and the snippet without trailing white space, where the snippet
    is the first 200 characters of the body, or the status text when the
    body is empty.  The error is that message when an API key was resolved
    or the message has neither 401 nor 403 as a whole word; it is the
    add-an-API-key hint when no key was resolved and the message has 401 or
    403 as a whole word, which is the case of every response of status 401
    or 403. *)
Theorem http_error_is_surfaced :
  forall (inv : Invocation) (status : N) (statusText : string)
         (body : option string) (s s' : State) (o : Outcome),
    resumes buildApiUrl (AwaitText inv status statusText) (OfText body) s s' o ->
    isCurrent (normalizedBase inv) s = true ->
    let errorText := match body with Some t => t | None => EmptyString end in
    let snippet := snippetOf statusText errorText in
    let message := String.append (JsString.ofN status) (summaryTail snippet) in
    o = Returned
    /\ customModelOptions s' = []
    /\ (JsString.truthy errorText = true ->
        (exists rest, errorText = String.append snippet rest)
        /\ String.length snippet <= 200)
    /\ (JsString.truthy errorText = false -> snippet = statusText)
    /\ (keyTruthy (apiKey inv) = true \/ ~ containsWord ["401"; "403"] message ->
        customModelsError s' = Some message)
    /\ (keyTruthy (apiKey inv) = false -> containsWord ["401"; "403"] message ->
        customModelsError s' = Some UNAUTHORIZED_HINT)
    /\ ((status = 401 \/ status = 403)%N -> containsWord ["401"; "403"] message).
Proof.
  intros inv status statusText body s s' o Hres Hcur errorText snippet message.
  inversion Hres; subst.
  match goal with H : resumeText _ _ _ _ _ = _ |- _ =>
    unfold resumeText in H; injection H as <- <- end.
  fold errorText.
  assert (Hmsg : errorSummary status statusText errorText = message)
    by apply errorSummary_shape.
  set (s1 := catchBlock (normalizedBase inv) (apiKey inv)
               (errorSummary status statusText errorText) s).
  destruct (finallyBlock_keeps (normalizedBase inv) s1) as (Ho & He & _).
  destruct (catchBlock_current (normalizedBase inv) (apiKey inv)
              (errorSummary status statusText errorText) s Hcur) as (He1 & Ho1).
  fold s1 in He1, Ho1. rewrite Ho, He, He1, Ho1, surfacedMessage_summary, Hmsg.
  split; [reflexivity|]. split; [reflexivity|].
  split.
  { intros Ht. unfold snippet, snippetOf. rewrite Ht.
    split; [apply slice0_prefix | apply slice0_length]. }
  split.
  { intros Ht. unfold snippet, snippetOf. now rewrite Ht. }
  split.
  { intros H. destruct (hintShown (apiKey inv) message) eqn:Hh; [|reflexivity].
    apply hintShown_spec in Hh as [Hk Hw]. destruct H as [H|H]; [congruence|contradiction]. }
  split.
  { intros Hk Hw.
    assert (Hh : hintShown (apiKey inv) message = true) by (apply hintShown_spec; auto).
    now rewrite Hh. }
  intros Hst. rewrite <- Hmsg. now apply errorSummary_unauthorized.
Qed.

(** C10.  The hint depends on the message, not on the status.  It is chosen
    exactly when no API key was resolved and the message of the caught
    error has 401 or 403 as a whole word; a current invocation then shows
    it, and the message itself otherwise.  So a 500 response whose body
    mentions 401 shows the hint when there is no key, and every HTTP
    error, 401 and 403 included, shows its own message when there is one. *)
Theorem unauthorized_hint_is_message_based :
  (forall (key : option string) (errorMessage : string),
      hintShown key errorMessage = true
      <-> keyTruthy key = false /\ containsWord ["401"; "403"] errorMessage)
  /\
  (forall (nb : string) (key : option string) (errorMessage : string) (s : State),
      isCurrent nb s = true ->
      customModelsError (finallyBlock nb (catchBlock nb key errorMessage s))
      = Some (if hintShown key errorMessage
              then UNAUTHORIZED_HINT
              else messageOf errorMessage))
  /\
  (forall (inv : Invocation) (s : State),
      isCurrent (normalizedBase inv) s = true ->
      keyTruthy (apiKey inv) = false ->
      resumes buildApiUrl
        (AwaitText inv 500 "Internal Server Error")
        (OfText (Some "upstream replied 401"))
        s
        (finallyBlock (normalizedBase inv)
           (setCustomModelOptions []
              (setCustomModelsError (Some UNAUTHORIZED_HINT) s)))
        Returned)
  /\
  (forall (status : N) (statusText errorText : string) (key : option string),
      keyTruthy key = true ->
      surfacedMessage key (errorSummary status statusText errorText)
      = errorSummary status statusText errorText).
Proof.
  split; [exact hintShown_spec|]. split; [|split].
  - intros nb key errorMessage s Hcur.
    destruct (finallyBlock_keeps nb (catchBlock nb key errorMessage s)) as (_ & He & _).
    rewrite He. now destruct (catchBlock_current nb key errorMessage s Hcur) as [-> _].
  - intros inv s Hcur Hk. apply resumes_text. unfold resumeText, catchBlock.
    rewrite Hcur. unfold surfacedMessage, hintShown. rewrite Hk. reflexivity.
  - intros status statusText errorText key Hk.
    rewrite surfacedMessage_summary.
    destruct (hintShown key _) eqn:Hh; [|reflexivity].
    apply hintShown_spec in Hh as [Hk' _]. congruence.
Qed.

End LoaderErrors.

(* ================================================================== *)
(** ** Reading and applying the response *)








Lemma applyModels_current (inv : Invocation) (mapped : list CloudModelOption) (s : State) :
  isCurrent (normalizedBase inv) s = true ->
  customModelOptions (applyModels inv mapped s) = mapped
  /\ customModelsError (applyModels inv mapped s) = None
  /\ lastLoadedBaseRef (applyModels inv mapped s) = Some (normalizedBase inv)
  /\ reasoningModel (applyModels inv mapped s)
     = match mapped with
       | first :: _ =>
           if existsb (fun model => strictEq (value model) (closureReasoningModel inv)) mapped
           then reasoningModel s
           else value first
       | [] => reasoningModel s
       end.
Proof.
  unfold applyModels. intros ->. destruct mapped as [|first rest].
  - repeat split; reflexivity.
  - destruct (existsb _ (first :: rest)); repeat split; reflexivity.
Qed.




Section LoaderApply.

Variable buildApiUrl : string -> string -> string.

(** C7, as amended.  When the parsed body arrives at an invocation that is
    current (mounted, and its base the latest requested one), the options
    become the mapped list.  The list is searched for the [reasoningModel]
    the invocation holds, which is the model that was selected at the
    render that made the call: if the list is not empty and no entry has
    that value, the first entry's value is selected; if the list is empty
    or some entry has that value, the selection stays what it is at that
    moment.  When the selection has not changed since the call, this is
    the rule for the currently selected model. *)
Theorem first_model_is_auto_selected :
  forall (inv : Invocation) (body : option JsValue) (s s' : State) (o : Outcome),
    resumes buildApiUrl (AwaitJson inv) (OfJson body) s s' o ->
    isCurrent (normalizedBase inv) s = true ->
    let mappedModels := mapModels (rawModelsOf (parsePayload body)) in
    customModelOptions s' = mappedModels
    /\ (forall first rest,
           mappedModels = first :: rest ->
           (forall m, In m mappedModels ->
                      strictEq (value m) (closureReasoningModel inv) = false) ->
           reasoningModel s' = value first)
    /\ (mappedModels = []
        \/ (exists m, In m mappedModels
                      /\ strictEq (value m) (closureReasoningModel inv) = true) ->
        reasoningModel s' = reasoningModel s)
    /\ (closureReasoningModel inv = reasoningModel s ->
        (forall first rest,
            mappedModels = first :: rest ->
            (forall m, In m mappedModels ->
                       strictEq (value m) (reasoningModel s) = false) ->
            reasoningModel s' = value first)
        /\ (mappedModels = []
            \/ (exists m, In m mappedModels
                          /\ strictEq (value m) (reasoningModel s) = true) ->
            reasoningModel s' = reasoningModel s)).
Proof.
  intros inv body s s' o Hres Hcur mappedModels.
  cut (customModelOptions s' = mappedModels
       /\ (forall first rest,
              mappedModels = first :: rest ->
              (forall m, In m mappedModels ->
                         strictEq (value m) (closureReasoningModel inv) = false) ->
              reasoningModel s' = value first)
       /\ (mappedModels = []
           \/ (exists m, In m mappedModels
                         /\ strictEq (value m) (closureReasoningModel inv) = true) ->
           reasoningModel s' = reasoningModel s)).
  { intros (H1 & H2 & H3). split; [exact H1|]. split; [exact H2|]. split; [exact H3|].
    intros Heq. split.
    - intros first rest Hl Hnone. apply (H2 first rest Hl).
      intros m Hin. rewrite Heq. now apply Hnone.
    - intros Hc. apply H3.
      destruct Hc as [Hc|(m & Hin & Hv)]; [now left|].
      right. exists m. split; [exact Hin|now rewrite Heq]. }
  inversion Hres; subst.
  match goal with H : resumeJson _ _ _ = _ |- _ =>
    unfold resumeJson in H; injection H as <- <- end.
  fold mappedModels.
  destruct (finallyBlock_keeps (normalizedBase inv) (applyModels inv mappedModels s))
    as (Ho & _ & Hm & _).
  destruct (applyModels_current inv mappedModels s Hcur) as (Ho1 & _ & _ & Hm1).
  rewrite Ho, Hm, Ho1, Hm1. split; [reflexivity|]. split.
  - intros first rest Heq Hnone. rewrite Heq. rewrite <- Heq.
    destruct (existsb _ mappedModels) eqn:E; [|reflexivity].
    apply existsb_exists in E as [m [Hin Hv]]. rewrite (Hnone m Hin) in Hv. discriminate.
  - intros [Hnil | [m [Hin Hv]]].
    + now rewrite Hnil.
    + destruct mappedModels as [|first rest]; [reflexivity|].
      assert (E : existsb (fun model => strictEq (value model) (closureReasoningModel inv))
                          (first :: rest) = true)
        by (apply existsb_exists; eauto).
      now rewrite E.
Qed.

End LoaderApply.

(* ================================================================== *)
(** ** The displayed list *)

(** The computed value C8 speaks of: [displayedCustomModels] is empty
    while the trimmed text of the base field differs from the trimmed
    saved base, and is the loaded options when the two agree. *)
Lemma dirty_base_displays_nothing :
  forall (customBaseInput cloudReasoningBaseUrl : string)
         (customModelOptions : list CloudModelOption),
    (JsString.trim customBaseInput <> JsString.trim cloudReasoningBaseUrl ->
     displayedCustomModels customBaseInput cloudReasoningBaseUrl customModelOptions = [])
    /\ (JsString.trim customBaseInput = JsString.trim cloudReasoningBaseUrl ->
        displayedCustomModels customBaseInput cloudReasoningBaseUrl customModelOptions
        = customModelOptions).
Proof.
  intros input saved options. unfold displayedCustomModels, isCustomBaseDirty.
  split.
  - intros H. apply String.eqb_neq in H. now rewrite H.
  - intros H. apply String.eqb_eq in H. now rewrite H.
Qed.

(* ================================================================== *)
(** ** The properties at concrete inputs *)

Ltac evaluate := vm_compute; reflexivity.
Ltac differ := let H := fresh in intros H; vm_compute in H; discriminate H.

Lemma last_request_wins_witness :
  sameLoaderState afterRequestForB
    (fst (resumeJson invocationA (Some payloadM1) afterRequestForB))
  /\ isMountedRef (component apiExampleWaiting) = true
  /\ latestReasoningBaseRef (component apiExampleWaiting) = apiExampleBase.
Proof.
  destruct (last_request_wins specNormalizeBaseUrl specBuildApiUrl) as [Hstale Hfresh].
  split.
  - apply (Hstale
             (fst (loadRemoteModels specNormalizeBaseUrl specBuildApiUrl None false mountedOnA))
             (Some baseB) true afterRequestForB
             (Suspend (AwaitFetch {| normalizedBase := baseB;
                                     apiKey := Some "sk-test";
                                     closureReasoningModel := JsString "m0" |}))
             afterRequestForB (AwaitJson invocationA) (OfJson (Some payloadM1))
             (fst (resumeJson invocationA (Some payloadM1) afterRequestForB))
             Returned).
    + evaluate.
    + evaluate.
    + differ.
    + apply quiet_refl.
    + differ.
    + apply resumes_json. evaluate.
  - apply (Hfresh (AwaitJson apiExampleInvocation) (OfJson (Some payloadM1))
             (component apiExampleWaiting)
             (fst (resumeJson apiExampleInvocation (Some payloadM1)
                     (component apiExampleWaiting)))
             Returned).
    + apply resumes_json. evaluate.
    + left. differ.
Defined.


(** X2 (the part of C3 the code delivers).  A base with a scheme that
    fails the textual transport check is rejected before any fetch; a
    current invocation then shows the HTTPS-only error and clears the
    loading flag. *)
Lemma insecure_base_is_rejected (buildApiUrl : string -> string -> string)
      (inv : Invocation) (s : State) :
  JsString.includes (normalizedBase inv) "://" = true ->
  transportAllowed (normalizedBase inv) = false ->
  exists s',
    validateAndFetch buildApiUrl inv s = (s', Returned)
    /\ fetchLog s' = fetchLog s
    /\ (isCurrent (normalizedBase inv) s = true ->
        customModelsError s' = Some HTTPS_ONLY_ERROR
        /\ customModelsLoading s' = false).
Proof.
  intros Hscheme Hnot. rewrite validateAndFetch_insecure by assumption.
  eexists. split; [reflexivity|]. split.
  - apply rejectWith_refs.
  - apply rejectWith_current.
Qed.

(** The scenario of the specification: [http://remote.example.com],
    applied with the key in memory, is rejected with the HTTPS-only error
    and nothing is fetched. *)
Lemma insecure_base_is_rejected_witness :
  exists s',
    validateAndFetch specBuildApiUrl
      {| normalizedBase := remoteHttpBase;
         apiKey := Some "sk-test";
         closureReasoningModel := JsString "m0" |}
      (entered (Some remoteHttpBase) remoteHttpBase mountedOnA)
    = (s', Returned)
    /\ fetchLog s' = []
    /\ customModelsError s' = Some HTTPS_ONLY_ERROR
    /\ customModelsLoading s' = false.
Proof.
  destruct (insecure_base_is_rejected specBuildApiUrl
              {| normalizedBase := remoteHttpBase;
                 apiKey := Some "sk-test";
                 closureReasoningModel := JsString "m0" |}
              (entered (Some remoteHttpBase) remoteHttpBase mountedOnA))
    as (s' & Hrun & Hlog & Hshown).
  - evaluate.
  - evaluate.
  - exists s'. split; [exact Hrun|]. split; [exact Hlog|].
    apply Hshown. evaluate.
Defined.

Lemma remote_http_base_is_rejected :
  exists s',
    loadRemoteModels specNormalizeBaseUrl specBuildApiUrl (Some remoteHttpBase) true
      mountedOnA = (s', Returned)
    /\ fetchLog s' = []
    /\ customModelsError s' = Some HTTPS_ONLY_ERROR
    /\ customModelsLoading s' = false.
Proof. eexists. repeat split; evaluate. Qed.

(** C3, at the failing input.  The base [http://localhost.evil.example/v1]
    has scheme [http] and the host [localhost.evil.example], which is no
    loopback name; applied with a key in memory it is not rejected: the
    loader sends [GET http://localhost.evil.example/v1/models] with the
    key as Bearer token, and no error is set. *)
Theorem foreign_localhost_base_is_fetched :
  urlScheme foreignLocalhostBase = Some "http"
  /\ urlHost foreignLocalhostBase = "localhost.evil.example"
  /\ isLoopbackHost (urlHost foreignLocalhostBase) = false
  /\ exists s',
       loadRemoteModels specNormalizeBaseUrl specBuildApiUrl
         (Some foreignLocalhostBase) true mountedOnA
       = (s', Suspend (AwaitFetch {| normalizedBase := foreignLocalhostBase;
                                     apiKey := Some "sk-test";
                                     closureReasoningModel := JsString "m0" |}))
       /\ fetchLog s'
          = [ {| req_url := "http://localhost.evil.example/v1/models";
                 req_authorization := Some "Bearer sk-test" |} ]
       /\ customModelsError s' = None.
Proof.
  split; [evaluate|]. split; [evaluate|]. split; [evaluate|].
  eexists. repeat split; evaluate.
Qed.

Lemma empty_or_schemeless_base_never_fetches_witness :
  (exists s',
      loadRemoteModels specNormalizeBaseUrl specBuildApiUrl (Some "  /  ") true mountedOnA
      = (s', Returned)
      /\ fetchLog s' = fetchLog mountedOnA
      /\ (isMountedRef mountedOnA = true ->
          customModelOptions s' = []
          /\ customModelsError s' = None
          /\ customModelsLoading s' = false))
  /\ customModelsError
       (fst (loadRemoteModels specNormalizeBaseUrl specBuildApiUrl
               (Some schemelessBase) true mountedOnA))
     = Some MISSING_PROTOCOL_ERROR
  /\ fetchLog
       (fst (loadRemoteModels specNormalizeBaseUrl specBuildApiUrl
               (Some schemelessBase) true mountedOnA))
     = [].
Proof.
  destruct (empty_or_schemeless_base_never_fetches specNormalizeBaseUrl specBuildApiUrl)
    as (Hempty & Hcall & _).
  split.
  - apply Hempty. evaluate.
  - destruct (Hcall (Some schemelessBase) true mountedOnA
                (fst (loadRemoteModels specNormalizeBaseUrl specBuildApiUrl
                        (Some schemelessBase) true mountedOnA))
                Returned) as (Hlog & _ & Hshown).
    + evaluate.
    + evaluate.
    + split.
      * apply Hshown; [evaluate | evaluate | evaluate | differ].
      * exact Hlog.
Defined.

(** C5, the claim as stated fails: this 500 response, received with no API
    key, surfaces the hint, which shows neither the status nor the body. *)
Lemma server_error_shows_hint :
  customModelsError
    (component (run specNormalizeBaseUrl specBuildApiUrl serverErrorMentioning401
                  {| component := showingApiExample; suspended := [] |}))
  = Some UNAUTHORIZED_HINT
  /\ JsString.includes UNAUTHORIZED_HINT "500" = false
  /\ JsString.includes UNAUTHORIZED_HINT "upstream replied 401" = false.
Proof. repeat split; evaluate. Qed.

Lemma http_error_is_surfaced_witness :
  customModelsError
    (fst (resumeText apiExampleInvocation 500 "Internal Server Error"
            (Some "model backend unavailable") (component apiExampleWaiting)))
  = Some "500 model backend unavailable".
Proof.
  destruct (http_error_is_surfaced specBuildApiUrl apiExampleInvocation 500
              "Internal Server Error" (Some "model backend unavailable")
              (component apiExampleWaiting)
              (fst (resumeText apiExampleInvocation 500 "Internal Server Error"
                      (Some "model backend unavailable") (component apiExampleWaiting)))
              Returned)
    as (_ & _ & _ & _ & Hmessage & _).
  - apply resumes_text. evaluate.
  - evaluate.
  - apply Hmessage. right. intros Hword.
    apply testWord_codes in Hword. vm_compute in Hword. discriminate Hword.
Defined.

Lemma unauthorized_hint_is_message_based_witness :
  hintShown None "500 upstream replied 401" = true
  /\ customModelsError
       (finallyBlock apiExampleBase
          (catchBlock apiExampleBase None "Failed to fetch" (component apiExampleWaiting)))
     = Some "Failed to fetch"
  /\ surfacedMessage (Some "sk-test") (errorSummary 401 "Unauthorized" "")
     = "401 Unauthorized".
Proof.
  destruct (unauthorized_hint_is_message_based specBuildApiUrl)
    as (Hiff & Hshown & _ & Hkey).
  split; [|split].
  - apply Hiff. split; [reflexivity|].
    exists "500 upstream replied ", "401", EmptyString.
    split; [evaluate|]. split; [now left|]. split; evaluate.
  - rewrite Hshown by evaluate. evaluate.
  - rewrite Hkey by evaluate. evaluate.
Defined.


Lemma first_model_is_auto_selected_witness :
  customModelOptions
    (fst (resumeJson apiExampleInvocation (Some payloadM1) (component apiExampleWaiting)))
  = [optionM1]
  /\ reasoningModel
       (fst (resumeJson apiExampleInvocation (Some payloadM1) (component apiExampleWaiting)))
     = JsString "m1"
  /\ reasoningModel
       (fst (resumeJson invocationWithM2 (Some payloadM1M2)
               (setReasoningModel (JsString "m2") mountedOnA)))
     = JsString "m2".
Proof.
  split; [|split].
  - destruct (first_model_is_auto_selected specBuildApiUrl apiExampleInvocation
                (Some payloadM1) (component apiExampleWaiting)
                (fst (resumeJson apiExampleInvocation (Some payloadM1)
                        (component apiExampleWaiting)))
                Returned)
      as (Hoptions & _).
    + apply resumes_json. evaluate.
    + evaluate.
    + rewrite Hoptions. evaluate.
  - destruct (first_model_is_auto_selected specBuildApiUrl apiExampleInvocation
                (Some payloadM1) (component apiExampleWaiting)
                (fst (resumeJson apiExampleInvocation (Some payloadM1)
                        (component apiExampleWaiting)))
                Returned)
      as (_ & Hselect & _).
    + apply resumes_json. evaluate.
    + evaluate.
    + apply (Hselect optionM1 []); [evaluate|].
      intros m Hin. vm_compute in Hin. destruct Hin as [<-|[]]. evaluate.
  - destruct (first_model_is_auto_selected specBuildApiUrl invocationWithM2
                (Some payloadM1M2) (setReasoningModel (JsString "m2") mountedOnA)
                (fst (resumeJson invocationWithM2 (Some payloadM1M2)
                        (setReasoningModel (JsString "m2") mountedOnA)))
                Returned)
      as (_ & _ & _ & Hsame).
    + apply resumes_json. evaluate.
    + evaluate.
    + destruct Hsame as (_ & Hkeep); [reflexivity|].
      rewrite Hkeep; [reflexivity|].
      right. exists {| value := JsString "m2"; label := JsString "m2";
                       description := JsUndefined; icon := None; ownedBy := None |}.
      split; [|evaluate]. vm_compute. right. left. reflexivity.
Defined.

(** C7, the claim as stated fails.  [m0] is selected when the load of
    [baseA] is made; while the body is being read the user picks [m2].
    The list that arrives holds [m1] and [m2]: the model selected at that
    moment is on the list, and yet the first entry is selected, because
    the list was searched for [m0]. *)
Lemma selection_made_in_flight_is_replaced :
  isCurrent baseA (component pickedWhileLoading) = true
  /\ reasoningModel (component pickedWhileLoading) = JsString "m2"
  /\ existsb (fun m => strictEq (value m) (JsString "m2"))
        (customModelOptions
           (component
              (step specNormalizeBaseUrl specBuildApiUrl pickedWhileLoading
                 (Settle 0 (OfJson (Some payloadM1M2)))))) = true
  /\ reasoningModel
       (component
          (step specNormalizeBaseUrl specBuildApiUrl pickedWhileLoading
             (Settle 0 (OfJson (Some payloadM1M2)))))
     = JsString "m1".
Proof. repeat split; vm_compute; reflexivity. Qed.

(** C8, at the failing input.  After a successful load the user edits the
    base field without applying it.  The field is dirty and
    [displayedCustomModels] is empty, yet the picker is still given the
    loaded list: the memo of [selectedCloudModels] depends on
    [customModelOptions], not on [displayedCustomModels], and the edit
    changes none of its dependencies. *)
Theorem picker_keeps_models_while_dirty :
  customModelOptions loadedOnA = [optionM1]
  /\ memoValue (selectedCloudModelsMemo renderedAfterLoad) = [optionM1]
  /\ isCustomBaseDirty (customBaseInput editedAfterLoad)
        (cloudReasoningBaseUrl editedAfterLoad) = true
  /\ memoValue (displayedCustomModelsMemo renderedAfterEdit) = []
  /\ memoValue (selectedCloudModelsMemo renderedAfterEdit) = [optionM1].
Proof. repeat split; evaluate. Qed.

(* ================================================================== *)
(** * Further properties: the rest of the component *)

(* ================================================================== *)
(** ** Properties of the icon helpers and of the mapping *)

(** X3.  No alternative of the icon rules is shadowed, and no rule names an
    icon the icon map lacks: an owner that is exactly an alternative of a
    rule gets the icon of that very rule, and that icon is the one
    [getProviderIconPath] gives for the provider of the same name. *)
Theorem every_icon_rule_is_reachable :
  forall (rule : IconRule) (alt : string),
    In rule OWNED_BY_ICON_RULES ->
    In alt (rule_match rule) ->
    resolveOwnedByIcon (Some alt) = Some (iconPath (rule_icon rule))
    /\ getProviderIconPath (rule_icon rule) = iconPath (rule_icon rule).
Proof.
  intros rule alt Hrule Halt. unfold OWNED_BY_ICON_RULES in Hrule.
  simpl in Hrule.
  repeat (destruct Hrule as [<-|Hrule]; [simpl in Halt;
          repeat (destruct Halt as [<-|Halt]; [split; vm_compute; reflexivity|]);
          contradiction|]).
  contradiction.
Qed.

Lemma every_icon_rule_is_reachable_witness :
  resolveOwnedByIcon (Some "oss") = Some (iconPath "openai-oss")
  /\ getProviderIconPath "openai-oss" = iconPath "openai-oss".
Proof.
  apply (every_icon_rule_is_reachable
           {| rule_match := ["openrouter"; "oss"]; rule_icon := "openai-oss" |} "oss").
  - unfold OWNED_BY_ICON_RULES. simpl. do 7 right. left. reflexivity.
  - simpl. right. left. reflexivity.
Defined.

Lemma or_truthy (a b : JsValue) :
  Js.truthy (Js.or a b) = true ->
  (Js.truthy a = true /\ Js.or a b = a) \/ (Js.truthy a = false /\ Js.or a b = b /\ Js.truthy b = true).
Proof.
  unfold Js.or. destruct (Js.truthy a) eqn:E; intros H; [left | right]; auto.
Qed.

Lemma mapModels_length (rawModels : list JsValue) :
  List.length (mapModels rawModels) <= List.length rawModels.
Proof.
  induction rawModels as [|item rest IH]; simpl; [lia|].
  destruct (mapItem item); simpl; lia.
Qed.

(** X4.  Every option the mapping keeps has a truthy value, which is the
    entry's [id] when that is truthy and its [name] otherwise, and a label
    equal to the value; its owner is the entry's [owned_by] when that is a
    string; and the mapped list is never longer than the raw list. *)
Theorem kept_options_are_well_formed :
  (forall (item : JsValue) (m : CloudModelOption),
      mapItem item = Some m ->
      Js.truthy (value m) = true
      /\ label m = value m
      /\ ((Js.truthy (get item "id") = true /\ value m = get item "id")
          \/ (Js.truthy (get item "id") = false /\ value m = get item "name"))
      /\ (forall o, ownedBy m = Some o <-> get item "owned_by" = JsString o))
  /\ (forall rawModels : list JsValue,
         List.length (mapModels rawModels) <= List.length rawModels).
Proof.
  split; [|exact mapModels_length].
  intros item m H. unfold mapItem in H.
  destruct (Js.truthy (Js.or (get item "id") (get item "name"))) eqn:Ht;
    [|discriminate]. simpl in H. injection H as <-. cbn [value label ownedBy].
  split; [exact Ht|]. split.
  - unfold Js.or at 1. now rewrite Ht.
  - split.
    + destruct (or_truthy _ _ Ht) as [[H1 H2]|[H1 [H2 _]]]; [left | right]; auto.
    + intros o. destruct (get item "owned_by"); split; intros H;
        try discriminate; congruence.
Qed.

Lemma kept_options_are_well_formed_witness :
  label optionM1 = value optionM1
  /\ List.length (mapModels (rawModelsOf payloadM1)) <= 1.
Proof.
  destruct kept_options_are_well_formed as [Hitem Hlen].
  split.
  - destruct (Hitem (JsObject [("id", JsString "m1"); ("owned_by", JsString "OpenAI")])
                optionM1) as (_ & Hlabel & _).
    + evaluate.
    + exact Hlabel.
  - apply (Hlen (rawModelsOf payloadM1)).
Defined.

Lemma trimEnd_length (s : string) :
  String.length (JsString.trimEnd s) <= String.length s.
Proof.
  induction s as [|c s IH]; simpl; [lia|].
  destruct (JsString.trimEnd s); [destruct (JsString.isWhiteSpace c)|];
    simpl in *; lia.
Qed.

Lemma append_length (a b : string) :
  String.length (String.append a b) = String.length a + String.length b.
Proof. induction a; simpl; congruence. Qed.

(** X5.  The message built from the body of a failed response is bounded:
    the digits of the status, one space and at most 200 characters. *)
Theorem http_error_message_is_bounded :
  forall (status : N) (statusText errorText : string),
    JsString.truthy errorText = true ->
    String.length (errorSummary status statusText errorText)
    <= String.length (JsString.ofN status) + 201.
Proof.
  intros status statusText errorText Ht.
  rewrite errorSummary_shape, append_length.
  unfold snippetOf, summaryTail. rewrite Ht.
  pose proof (trimEnd_length (JsString.slice0 errorText 200)) as H1.
  pose proof (slice0_length errorText 200) as H2.
  destruct (JsString.trimEnd (JsString.slice0 errorText 200)); simpl in *; lia.
Qed.

Lemma http_error_message_is_bounded_witness :
  String.length (errorSummary 503 "Service Unavailable" "overloaded") <= 3 + 201.
Proof.
  apply (http_error_message_is_bounded 503 "Service Unavailable" "overloaded").
  reflexivity.
Defined.

(** X6.  The tab icon.  The image and a fallback glyph are never drawn
    together, and a drawn image is always visible; the wrench is drawn for
    the custom tab and for no other provider, so the [custom] case of
    [getFallbackIcon] is never reached; and for the four provider tabs the
    image requested is the file [getProviderIconPath] names. *)
Theorem provider_icon_draws_one_thing :
  (forall (provider : string) (svgError : bool) (src display : string) (after : option Glyph),
      ProviderIcon provider svgError = ShowImage src display after ->
      after = None /\ display = "block" /\ svgError = false /\ provider <> "custom")
  /\ (forall (provider : string) (svgError : bool),
         ProviderIcon provider svgError = ShowGlyph Wrench <-> provider = "custom")
  /\ (forall provider : string,
         In provider ["openai"; "anthropic"; "gemini"; "groq"] ->
         ProviderIcon provider false
         = ShowImage (getProviderIconPath provider) "block" None).
Proof.
  split; [|split].
  - intros provider svgError src display after H. unfold ProviderIcon in H.
    destruct (String.eqb provider "custom") eqn:E; [discriminate|].
    apply String.eqb_neq in E.
    destruct svgError; simpl in H; [discriminate|].
    injection H as _ <- <-. auto.
  - intros provider svgError. unfold ProviderIcon.
    destruct (String.eqb provider "custom") eqn:E.
    + apply String.eqb_eq in E. tauto.
    + assert (Hne : provider <> "custom") by now apply String.eqb_neq.
      split; [|contradiction].
      destruct svgError; simpl; [|discriminate].
      unfold getFallbackIcon. rewrite E.
      repeat match goal with
             | |- context [if ?b then _ else _] => destruct b
             end; discriminate.
  - intros provider Hin. simpl in Hin.
    repeat (destruct Hin as [<-|Hin]; [reflexivity|]). contradiction.
Qed.

Lemma provider_icon_draws_one_thing_witness :
  ProviderIcon "groq" false = ShowImage (getProviderIconPath "groq") "block" None.
Proof.
  destruct provider_icon_draws_one_thing as (_ & _ & Htabs).
  apply Htabs. simpl. do 3 right. left. reflexivity.
Defined.

(* ================================================================== *)
(** ** Further properties of the loader *)

Lemma fetchable_true (nb : string) :
  fetchable nb = true ->
  JsString.includes nb "://" = true /\ transportAllowed nb = true.
Proof. unfold fetchable. now rewrite andb_true_iff. Qed.

Section LoaderKeys.

Variable normalizeBaseUrl : string -> string.
Variable buildApiUrl : string -> string -> string.

Local Abbreviation load := (loadRemoteModels normalizeBaseUrl buildApiUrl).
Local Abbreviation baseOf ov s := (normalizeBaseUrl (rawBaseOf ov s)).

(** An accepted call for a fetchable base with a key in memory goes
    straight to the request. *)
Lemma load_fetches_with_key (baseOverride : option string) (force : bool) (s : State) :
  accepted (baseOf baseOverride s) force s = true ->
  fetchable (baseOf baseOverride s) = true ->
  JsString.truthy (keyFromStateOf s) = true ->
  load baseOverride force s
  = (issueFetch
       {| req_url := buildApiUrl (baseOf baseOverride s) "/models";
          req_authorization := Some (String.append "Bearer " (keyFromStateOf s)) |}
       (entered baseOverride (baseOf baseOverride s) s),
     Suspend (AwaitFetch {| normalizedBase := baseOf baseOverride s;
                            apiKey := Some (keyFromStateOf s);
                            closureReasoningModel := reasoningModel s |})).
Proof.
  intros Hacc Hf Hk. apply fetchable_true in Hf as [H1 H2].
  rewrite (load_accepted _ _ _ _ _ Hacc). cbv zeta. rewrite Hk.
  rewrite validateAndFetch_allowed by assumption. cbn [apiKey normalizedBase].
  now rewrite Hk.
Qed.

(** When the key arrives, an invocation for a fetchable base sends its
    request, whatever has happened to the component meanwhile. *)
Lemma key_settlement_sends_request (inv : Invocation) (key : option string)
      (s s' : State) (o : Outcome) :
  fetchable (normalizedBase inv) = true ->
  resumes buildApiUrl (AwaitKey inv) (OfKey (KeyResolved key)) s s' o ->
  fetchLog s'
  = {| req_url := buildApiUrl (normalizedBase inv) "/models";
       req_authorization := bearer key |} :: fetchLog s.
Proof.
  intros Hf Hres. apply fetchable_true in Hf as [H1 H2].
  inversion Hres; subst. simpl in *.
  match goal with H : validateAndFetch _ _ _ = _ |- _ =>
    rewrite validateAndFetch_allowed in H by assumption; injection H as <- <- end.
  reflexivity.
Qed.

(** X7.  Which key goes out.  When the key typed into the panel is not
    blank, an accepted call for a fetchable base does not consult the
    vault and sends the typed key, trimmed, as Bearer token.  When it is
    blank the call waits for the vault, and the request then carries the
    vault's key as Bearer token, or no [Authorization] header at all when
    the vault has none. *)
Theorem typed_key_precedes_vault_key :
  (forall (baseOverride : option string) (force : bool) (s s' : State) (o : Outcome),
      accepted (baseOf baseOverride s) force s = true ->
      fetchable (baseOf baseOverride s) = true ->
      JsString.trim (openaiApiKey s) <> EmptyString ->
      load baseOverride force s = (s', o) ->
      (exists inv, o = Suspend (AwaitFetch inv))
      /\ fetchLog s'
         = {| req_url := buildApiUrl (baseOf baseOverride s) "/models";
              req_authorization :=
                Some (String.append "Bearer " (JsString.trim (openaiApiKey s))) |}
           :: fetchLog s)
  /\
  (forall (baseOverride : option string) (force : bool) (s s' : State) (o : Outcome),
      accepted (baseOf baseOverride s) force s = true ->
      JsString.trim (openaiApiKey s) = EmptyString ->
      load baseOverride force s = (s', o) ->
      fetchLog s' = fetchLog s
      /\ exists inv, o = Suspend (AwaitKey inv)
                     /\ normalizedBase inv = baseOf baseOverride s)
  /\
  (forall (inv : Invocation) (key : option string) (s s' : State) (o : Outcome),
      fetchable (normalizedBase inv) = true ->
      resumes buildApiUrl (AwaitKey inv) (OfKey (KeyResolved key)) s s' o ->
      fetchLog s'
      = {| req_url := buildApiUrl (normalizedBase inv) "/models";
           req_authorization := bearer key |} :: fetchLog s).
Proof.
  split; [|split].
  - intros baseOverride force s s' o Hacc Hf Hkey Hcall.
    assert (Hk : JsString.truthy (keyFromStateOf s) = true).
    { unfold keyFromStateOf. destruct (JsString.trim (openaiApiKey s)); [congruence|reflexivity]. }
    rewrite (load_fetches_with_key _ _ _ Hacc Hf Hk) in Hcall.
    injection Hcall as <- <-. split; [eexists; reflexivity|].
    cbn [fetchLog issueFetch].
    destruct (entered_refs baseOverride (baseOf baseOverride s) s) as (_ & _ & Hlog & _).
    now rewrite Hlog.
  - intros baseOverride force s s' o Hacc Hkey Hcall.
    rewrite (load_accepted _ _ _ _ _ Hacc) in Hcall. cbv zeta in Hcall.
    unfold keyFromStateOf in Hcall. rewrite Hkey in Hcall. cbn [JsString.truthy] in Hcall.
    injection Hcall as <- <-.
    destruct (entered_refs baseOverride (baseOf baseOverride s) s) as (_ & _ & Hlog & _).
    split; [exact Hlog|]. eexists. split; reflexivity.
  - intros inv key s s' o Hf Hres.
    exact (key_settlement_sends_request inv key s s' o Hf Hres).
Qed.

End LoaderKeys.

Lemma typed_key_precedes_vault_key_witness :
  fetchLog
    (fst (loadRemoteModels specNormalizeBaseUrl specBuildApiUrl (Some baseB) true
            (withOpenaiApiKey "  sk-typed " mountedOnA)))
  = [ {| req_url := "https://b.example/v1/models";
         req_authorization := Some "Bearer sk-typed" |} ]
  /\ fetchLog (component apiExampleWaiting)
     = [ {| req_url := "https://api.example.com/v1/models";
            req_authorization := None |} ].
Proof.
  destruct (typed_key_precedes_vault_key specNormalizeBaseUrl specBuildApiUrl)
    as (Htyped & _ & Hvault).
  split.
  - destruct (Htyped (Some baseB) true (withOpenaiApiKey "  sk-typed " mountedOnA)
                (fst (loadRemoteModels specNormalizeBaseUrl specBuildApiUrl (Some baseB) true
                        (withOpenaiApiKey "  sk-typed " mountedOnA)))
                (snd (loadRemoteModels specNormalizeBaseUrl specBuildApiUrl (Some baseB) true
                        (withOpenaiApiKey "  sk-typed " mountedOnA))))
      as (_ & Hlog).
    + evaluate.
    + evaluate.
    + differ.
    + evaluate.
    + rewrite Hlog. evaluate.
  - rewrite (Hvault apiExampleInvocation None
               (fst (loadRemoteModels specNormalizeBaseUrl specBuildApiUrl
                       (Some apiExampleBase) true
                       (mount specNormalizeBaseUrl "" "" (JsString ""))))
               (component apiExampleWaiting)
               (Suspend (AwaitFetch apiExampleInvocation))).
    + evaluate.
    + evaluate.
    + apply resumes_key. evaluate.
Defined.

Lemma sameSurroundings_refl (s : State) : sameSurroundings s s.
Proof. unfold sameSurroundings. auto. Qed.

Lemma sameSurroundings_trans (a b c : State) :
  sameSurroundings a b -> sameSurroundings b c -> sameSurroundings a c.
Proof. unfold sameSurroundings. intuition congruence. Qed.

Lemma finallyBlock_surroundings (nb : string) (s : State) :
  sameSurroundings s (finallyBlock nb s).
Proof. unfold finallyBlock, sameSurroundings. split_ifs; simpl; auto. Qed.

Lemma catchBlock_surroundings (nb : string) (key : option string) (m : string) (s : State) :
  sameSurroundings s (catchBlock nb key m s).
Proof. unfold catchBlock, sameSurroundings. split_ifs; simpl; auto. Qed.

Lemma applyModels_surroundings (inv : Invocation) (mapped : list CloudModelOption) (s : State) :
  sameSurroundings s (applyModels inv mapped s).
Proof.
  unfold applyModels, sameSurroundings.
  destruct (isCurrent (normalizedBase inv) s); [|auto].
  destruct mapped; simpl; [auto|]. split_ifs; simpl; auto.
Qed.

Lemma rejectWith_surroundings (nb m : string) (s : State) :
  sameSurroundings s (rejectWith nb m s).
Proof.
  unfold rejectWith.
  eapply sameSurroundings_trans; [|apply finallyBlock_surroundings].
  unfold sameSurroundings. split_ifs; simpl; auto.
Qed.

Lemma entered_surroundings (baseOverride : option string) (nb : string) (s : State) :
  sameSurroundings s (entered baseOverride nb s).
Proof.
  unfold entered, sameSurroundings.
  destruct baseOverride; simpl; destruct (isMountedRef s) eqn:E; simpl; rewrite ?E; auto.
Qed.

Section LoaderSurroundings.

Variable normalizeBaseUrl : string -> string.
Variable buildApiUrl : string -> string -> string.

Lemma validateAndFetch_surroundings (inv : Invocation) (s s' : State) (o : Outcome) :
  validateAndFetch buildApiUrl inv s = (s', o) -> sameSurroundings s s'.
Proof.
  unfold validateAndFetch. intros H.
  destruct (negb (JsString.includes (normalizedBase inv) "://"));
    [|destruct (negb (transportAllowed (normalizedBase inv)))];
    injection H as <- <-; try apply rejectWith_surroundings.
  unfold sameSurroundings. simpl. auto.
Qed.

Lemma load_surroundings (baseOverride : option string) (force : bool)
      (s s' : State) (o : Outcome) :
  loadRemoteModels normalizeBaseUrl buildApiUrl baseOverride force s = (s', o) ->
  sameSurroundings s s'.
Proof.
  intros H.
  destruct (JsString.truthy (normalizeBaseUrl (rawBaseOf baseOverride s))) eqn:Ht.
  2:{ rewrite (load_empty _ _ _ _ _ Ht) in H. injection H as <- <-.
      unfold sameSurroundings. destruct (isMountedRef s) eqn:E; simpl; rewrite ?E; auto. }
  destruct (accepted (normalizeBaseUrl (rawBaseOf baseOverride s)) force s) eqn:Hacc.
  2:{ rewrite (load_not_accepted _ _ _ _ _ Hacc Ht) in H. injection H as <- <-.
      apply sameSurroundings_refl. }
  rewrite (load_accepted _ _ _ _ _ Hacc) in H. cbv zeta in H.
  destruct (JsString.truthy (keyFromStateOf s)).
  - eapply sameSurroundings_trans; [apply entered_surroundings|].
    eapply validateAndFetch_surroundings; exact H.
  - injection H as <- <-. apply entered_surroundings.
Qed.

Lemma settlement_surroundings (k : Suspended) (r : Resolution) (s s' : State) (o : Outcome) :
  resumes buildApiUrl k r s s' o -> sameSurroundings s s'.
Proof.
  intros H. destruct H as [inv r s s' o H|inv r s s' o H|inv st stt b s s' o H|inv b s s' o H].
  - destruct r as [key|m]; simpl in H.
    + eapply validateAndFetch_surroundings; exact H.
    + injection H as <- <-.
      eapply sameSurroundings_trans;
        [apply catchBlock_surroundings | apply finallyBlock_surroundings].
  - destruct r as [st stt|m]; simpl in H.
    + destruct (responseOk st); injection H as <- <-; apply sameSurroundings_refl.
    + injection H as <- <-.
      eapply sameSurroundings_trans;
        [apply catchBlock_surroundings | apply finallyBlock_surroundings].
  - unfold resumeText in H. injection H as <- <-.
    eapply sameSurroundings_trans;
      [apply catchBlock_surroundings | apply finallyBlock_surroundings].
  - unfold resumeJson in H. injection H as <- <-.
    eapply sameSurroundings_trans;
      [apply applyModels_surroundings | apply finallyBlock_surroundings].
Qed.

End LoaderSurroundings.

Section LoaderCache.

Variable normalizeBaseUrl : string -> string.
Variable buildApiUrl : string -> string -> string.

Local Abbreviation load := (loadRemoteModels normalizeBaseUrl buildApiUrl).
Local Abbreviation baseOf ov s := (normalizeBaseUrl (rawBaseOf ov s)).

Lemma catchBlock_lastLoaded (nb : string) (key : option string) (m : string) (s : State) :
  lastLoadedBaseRef (catchBlock nb key m s) = lastLoadedBaseRef s.
Proof. unfold catchBlock. destruct (isCurrent nb s); reflexivity. Qed.

Lemma failed_end (nb : string) (key : option string) (m : string) (s : State) :
  lastLoadedBaseRef (finallyBlock nb (catchBlock nb key m s)) = lastLoadedBaseRef s
  /\ refIs (pendingBaseRef (finallyBlock nb (catchBlock nb key m s))) nb = false.
Proof.
  split; [|apply finallyBlock_releases].
  destruct (finallyBlock_keeps nb (catchBlock nb key m s)) as (_&_&_&H&_).
  rewrite H. apply catchBlock_lastLoaded.
Qed.

(** X8.  What is cached.  After the list has been applied by a current
    invocation, an unforced call for the same base returns at once and
    changes nothing.  A failure is never cached: it leaves the key of the
    last success as it was and releases the pending marker, so an unforced
    retry of a base that was not the last success is let through. *)
Theorem success_is_cached_failure_is_not :
  (forall (inv : Invocation) (body : option JsValue) (s s' : State) (o : Outcome)
          (baseOverride : option string),
      resumes buildApiUrl (AwaitJson inv) (OfJson body) s s' o ->
      isCurrent (normalizedBase inv) s = true ->
      JsString.truthy (normalizedBase inv) = true ->
      baseOf baseOverride s' = normalizedBase inv ->
      load baseOverride false s' = (s', Returned))
  /\
  (forall (k : Suspended) (r : Resolution) (s s' : State) (o : Outcome),
      resumes buildApiUrl k r s s' o ->
      isFailure r = true ->
      o = Returned
      /\ lastLoadedBaseRef s' = lastLoadedBaseRef s
      /\ (JsString.truthy (normalizedBase (invocationOf k)) = true ->
          lastLoadedBaseRef s <> Some (normalizedBase (invocationOf k)) ->
          accepted (normalizedBase (invocationOf k)) false s' = true)).
Proof.
  split.
  - intros inv body s s' o baseOverride Hres Hcur Ht Hbase.
    inversion Hres; subst.
    match goal with H : resumeJson _ _ _ = _ |- _ =>
      unfold resumeJson in H; injection H as <- <- end.
    apply load_not_accepted; rewrite Hbase; [|exact Ht].
    unfold accepted. rewrite Ht. cbn [negb andb].
    match goal with |- context [applyModels inv ?m s] =>
      destruct (finallyBlock_keeps (normalizedBase inv) (applyModels inv m s)) as (_&_&_&Hl&_);
      destruct (applyModels_current inv m s Hcur) as (_&_&Hl'&_) end.
    rewrite Hl, Hl'. simpl. now rewrite String.eqb_refl.
  - intros k r s s' o Hres Hfail.
    assert (Hend : o = Returned
                   /\ lastLoadedBaseRef s' = lastLoadedBaseRef s
                   /\ refIs (pendingBaseRef s') (normalizedBase (invocationOf k)) = false).
    { inversion Hres; subst; simpl in Hfail |- *.
      - destruct r0 as [key|m]; [discriminate|]. simpl in *.
        match goal with H : (_, _) = _ |- _ => injection H as <- <- end.
        split; [reflexivity | apply failed_end].
      - destruct r0 as [st stt|m]; [discriminate|]. simpl in *.
        match goal with H : (_, _) = _ |- _ => injection H as <- <- end.
        split; [reflexivity | apply failed_end].
      - match goal with H : resumeText _ _ _ _ _ = _ |- _ =>
          unfold resumeText in H; injection H as <- <- end.
        split; [reflexivity | apply failed_end].
      - discriminate. }
    destruct Hend as (Ho & Hl & Hp). split; [exact Ho|]. split; [exact Hl|].
    intros Ht Hnot. unfold accepted. rewrite Ht, Hp, Hl. cbn [negb andb].
    destruct (refIs (lastLoadedBaseRef s) _) eqn:E; [|reflexivity].
    apply refIs_true in E. contradiction.
Qed.

(** X9.  After a list has been applied, the selection is on the list.  When
    a current invocation applies a list that is not empty and the
    selection has not changed since the call was made, the selected model
    afterwards is the value of an entry of the list (the same value, or
    one that [===] holds equal to it). *)
Theorem selection_is_on_the_list :
  forall (inv : Invocation) (body : option JsValue) (s s' : State) (o : Outcome),
    resumes buildApiUrl (AwaitJson inv) (OfJson body) s s' o ->
    isCurrent (normalizedBase inv) s = true ->
    closureReasoningModel inv = reasoningModel s ->
    customModelOptions s' <> [] ->
    exists m,
      In m (customModelOptions s')
      /\ (value m = reasoningModel s'
          \/ strictEq (value m) (reasoningModel s') = true).
Proof.
  intros inv body s s' o Hres Hcur Hsame Hne.
  inversion Hres; subst.
  match goal with H : resumeJson _ _ _ = _ |- _ =>
    unfold resumeJson in H; injection H as <- <- end.
  set (mapped := mapModels (rawModelsOf (parsePayload body))) in *.
  destruct (finallyBlock_keeps (normalizedBase inv) (applyModels inv mapped s))
    as (Ho & _ & Hm & _).
  destruct (applyModels_current inv mapped s Hcur) as (Ho1 & _ & _ & Hm1).
  rewrite Ho, Ho1 in Hne |- *. rewrite Hm, Hm1.
  destruct mapped as [|first rest]; [congruence|].
  destruct (existsb _ (first :: rest)) eqn:E.
  - apply existsb_exists in E as [m [Hin Hv]]. exists m. split; [exact Hin|].
    right. now rewrite <- Hsame.
  - exists first. split; [now left | now left].
Qed.

(** X10.  The unmount suppresses, it does not cancel.  On an unmounted
    component neither a call nor a settlement changes the options, the
    error, the loading flag, the selected model or the key of the last
    success; but an invocation that was waiting for its key still sends
    its request when the key arrives. *)
Theorem unmount_suppresses_without_cancelling :
  (forall (baseOverride : option string) (force : bool) (s s' : State) (o : Outcome),
      isMountedRef s = false ->
      load baseOverride force s = (s', o) ->
      sameLoaderState s s')
  /\
  (forall (k : Suspended) (r : Resolution) (s s' : State) (o : Outcome),
      isMountedRef s = false ->
      resumes buildApiUrl k r s s' o ->
      sameLoaderState s s')
  /\
  (forall (inv : Invocation) (key : option string) (s s' : State) (o : Outcome),
      isMountedRef s = false ->
      fetchable (normalizedBase inv) = true ->
      resumes buildApiUrl (AwaitKey inv) (OfKey (KeyResolved key)) s s' o ->
      fetchLog s'
      = {| req_url := buildApiUrl (normalizedBase inv) "/models";
           req_authorization := bearer key |} :: fetchLog s).
Proof.
  split; [|split].
  - intros baseOverride force s s' o Hun Hcall.
    destruct (JsString.truthy (baseOf baseOverride s)) eqn:Ht.
    2:{ rewrite (load_empty _ _ _ _ _ Ht), Hun in Hcall. injection Hcall as <- <-.
        apply sameLoaderState_refl. }
    destruct (accepted (baseOf baseOverride s) force s) eqn:Hacc.
    2:{ rewrite (load_not_accepted _ _ _ _ _ Hacc Ht) in Hcall. injection Hcall as <- <-.
        apply sameLoaderState_refl. }
    rewrite (load_accepted _ _ _ _ _ Hacc) in Hcall. cbv zeta in Hcall.
    assert (Hent : sameLoaderState s (entered baseOverride (baseOf baseOverride s) s)).
    { unfold entered, sameLoaderState. destruct baseOverride; simpl; rewrite Hun; simpl; auto. }
    assert (Hst : isCurrent (baseOf baseOverride s)
                    (entered baseOverride (baseOf baseOverride s) s) = false).
    { apply isCurrent_false. left.
      destruct (entered_refs baseOverride (baseOf baseOverride s) s) as (H & _). congruence. }
    destruct (JsString.truthy (keyFromStateOf s)).
    + apply (validateAndFetch_stale buildApiUrl) in Hcall; [|exact Hst].
      unfold sameLoaderState in *. intuition congruence.
    + injection Hcall as <- <-. exact Hent.
  - intros k r s s' o Hun Hres.
    eapply stale_settlement; [exact Hres|]. apply isCurrent_false. now left.
  - intros inv key s s' o _ Hf Hres.
    exact (key_settlement_sends_request buildApiUrl inv key s s' o Hf Hres).
Qed.

End LoaderCache.

Lemma success_is_cached_failure_is_not_witness :
  loadRemoteModels specNormalizeBaseUrl specBuildApiUrl None false loadedOnA
  = (loadedOnA, Returned)
  /\ accepted baseA false
       (fst (resumeFetch invocationA (FetchRejected "Failed to fetch")
               (fst (loadRemoteModels specNormalizeBaseUrl specBuildApiUrl None false
                       mountedOnA))))
     = true.
Proof.
  destruct (success_is_cached_failure_is_not specNormalizeBaseUrl specBuildApiUrl)
    as (Hhit & Hmiss).
  split.
  - apply (Hhit invocationA (Some payloadM1)
             (component
                (run specNormalizeBaseUrl specBuildApiUrl
                   [ Call None false; Settle 0 (OfFetch (FetchResponse 200 "OK")) ]
                   {| component := mountedOnA; suspended := [] |}))
             loadedOnA Returned None).
    + apply resumes_json. evaluate.
    + evaluate.
    + evaluate.
    + evaluate.
  - destruct (Hmiss (AwaitFetch invocationA) (OfFetch (FetchRejected "Failed to fetch"))
                (fst (loadRemoteModels specNormalizeBaseUrl specBuildApiUrl None false
                        mountedOnA))
                (fst (resumeFetch invocationA (FetchRejected "Failed to fetch")
                        (fst (loadRemoteModels specNormalizeBaseUrl specBuildApiUrl None false
                                mountedOnA))))
                Returned) as (_ & _ & Hretry).
    + apply resumes_fetch. evaluate.
    + reflexivity.
    + apply Hretry; [evaluate | differ].
Defined.

Lemma selection_is_on_the_list_witness :
  exists m,
    In m (customModelOptions loadedOnA)
    /\ (value m = reasoningModel loadedOnA
        \/ strictEq (value m) (reasoningModel loadedOnA) = true).
Proof.
  apply (selection_is_on_the_list specBuildApiUrl invocationA (Some payloadM1)
           (component
              (run specNormalizeBaseUrl specBuildApiUrl
                 [ Call None false; Settle 0 (OfFetch (FetchResponse 200 "OK")) ]
                 {| component := mountedOnA; suspended := [] |}))
           loadedOnA Returned).
  - apply resumes_json. evaluate.
  - evaluate.
  - evaluate.
  - differ.
Defined.

Lemma unmount_suppresses_without_cancelling_witness :
  sameLoaderState (unmount afterRequestForB)
    (fst (resumeJson invocationA (Some payloadM1) (unmount afterRequestForB)))
  /\ fetchLog
       (fst (resumeKey specBuildApiUrl apiExampleInvocation (KeyResolved (Some "sk-vault"))
               (unmount showingApiExample)))
     = [ {| req_url := "https://api.example.com/v1/models";
            req_authorization := Some "Bearer sk-vault" |} ].
Proof.
  destruct (unmount_suppresses_without_cancelling specNormalizeBaseUrl specBuildApiUrl)
    as (_ & Hsettle & Hsend).
  split.
  - apply (Hsettle (AwaitJson invocationA) (OfJson (Some payloadM1))
             (unmount afterRequestForB) _ Returned).
    + reflexivity.
    + apply resumes_json. evaluate.
  - rewrite (Hsend apiExampleInvocation (Some "sk-vault") (unmount showingApiExample)
               (fst (resumeKey specBuildApiUrl apiExampleInvocation
                       (KeyResolved (Some "sk-vault")) (unmount showingApiExample)))
               (snd (resumeKey specBuildApiUrl apiExampleInvocation
                       (KeyResolved (Some "sk-vault")) (unmount showingApiExample)))).
    + evaluate.
    + reflexivity.
    + evaluate.
    + apply resumes_key. evaluate.
Defined.

(* ================================================================== *)
(** ** Properties of the handlers and of the auto-load effect *)

Section HandlerProperties.

Variable normalizeBaseUrl : string -> string.
Variable buildApiUrl : string -> string -> string.
Variable OPENAI_BASE : string.
Variable providerModels : string -> list CloudModelOption.

Local Abbreviation load := (loadRemoteModels normalizeBaseUrl buildApiUrl).

Lemma handleApplyCustomBase_eq (s : State) :
  handleApplyCustomBase normalizeBaseUrl buildApiUrl s
  = loadAndStore normalizeBaseUrl buildApiUrl (JsString.trim (customBaseInput s)) s.
Proof. reflexivity. Qed.

Lemma handleResetCustomBase_eq (s : State) :
  handleResetCustomBase normalizeBaseUrl buildApiUrl OPENAI_BASE s
  = loadAndStore normalizeBaseUrl buildApiUrl OPENAI_BASE s.
Proof. reflexivity. Qed.

Lemma hostSetsBaseUrl_keeps (v : string) (s : State) :
  customModelOptions (hostSetsBaseUrl normalizeBaseUrl v s) = customModelOptions s
  /\ customModelsError (hostSetsBaseUrl normalizeBaseUrl v s) = customModelsError s
  /\ customModelsLoading (hostSetsBaseUrl normalizeBaseUrl v s) = customModelsLoading s
  /\ reasoningModel (hostSetsBaseUrl normalizeBaseUrl v s) = reasoningModel s
  /\ lastLoadedBaseRef (hostSetsBaseUrl normalizeBaseUrl v s) = lastLoadedBaseRef s
  /\ pendingBaseRef (hostSetsBaseUrl normalizeBaseUrl v s) = pendingBaseRef s
  /\ fetchLog (hostSetsBaseUrl normalizeBaseUrl v s) = fetchLog s
  /\ isMountedRef (hostSetsBaseUrl normalizeBaseUrl v s) = isMountedRef s
  /\ openaiApiKey (hostSetsBaseUrl normalizeBaseUrl v s) = openaiApiKey s.
Proof. unfold hostSetsBaseUrl. split_ifs; simpl; auto 12. Qed.

Lemma hostSetsBaseUrl_mounted (v : string) (s : State) :
  isMountedRef s = true ->
  cloudReasoningBaseUrl (hostSetsBaseUrl normalizeBaseUrl v s) = v
  /\ customBaseInput (hostSetsBaseUrl normalizeBaseUrl v s)
     = (if String.eqb (cloudReasoningBaseUrl s) v then customBaseInput s else v)
  /\ latestReasoningBaseRef (hostSetsBaseUrl normalizeBaseUrl v s)
     = (if String.eqb (normalizeBaseUrl (cloudReasoningBaseUrl s)) (normalizeBaseUrl v)
        then latestReasoningBaseRef s else normalizeBaseUrl v).
Proof. unfold hostSetsBaseUrl. intros ->. simpl. split_ifs; simpl; auto. Qed.

Lemma forced_is_accepted (nb : string) (s : State) :
  accepted nb true s = JsString.truthy nb.
Proof. unfold accepted. simpl. now rewrite !andb_true_r. Qed.

(** The common part of Apply and Reset on a mounted component. *)
Lemma loadAndStore_reloads (b : string) (s s' : State) (o : Outcome) :
  isMountedRef s = true ->
  loadAndStore normalizeBaseUrl buildApiUrl b s = (s', o) ->
  cloudReasoningBaseUrl s' = b
  /\ customBaseInput s' = b
  /\ (JsString.truthy (normalizeBaseUrl b) = false ->
      o = Returned /\ fetchLog s' = fetchLog s
      /\ customModelOptions s' = [] /\ customModelsError s' = None
      /\ customModelsLoading s' = false /\ lastLoadedBaseRef s' = None)
  /\ (JsString.truthy (normalizeBaseUrl b) = true ->
      latestReasoningBaseRef s' = normalizeBaseUrl b)
  /\ (fetchable (normalizeBaseUrl b) = true ->
      JsString.truthy (normalizeBaseUrl b) = true ->
      JsString.trim (openaiApiKey s) <> EmptyString ->
      fetchLog s'
      = {| req_url := buildApiUrl (normalizeBaseUrl b) "/models";
           req_authorization :=
             Some (String.append "Bearer " (JsString.trim (openaiApiKey s))) |}
        :: fetchLog s
      /\ pendingBaseRef s' = Some (normalizeBaseUrl b)
      /\ customModelsLoading s' = true
      /\ customModelOptions s' = []
      /\ customModelsError s' = None).
Proof.
  intros Hm H. unfold loadAndStore in H.
  set (s2 := setLastLoadedBase None (setCustomBaseInput b s)) in *.
  destruct (load (Some b) true s2) as [s3 o3] eqn:Hcall.
  injection H as <- <-.
  assert (Hm2 : isMountedRef s2 = true) by exact Hm.
  assert (Hbase : normalizeBaseUrl (rawBaseOf (Some b) s2) = normalizeBaseUrl b) by reflexivity.
  (* the fields the call leaves alone *)
  assert (Hcall_keeps : isMountedRef s3 = true /\ customBaseInput s3 = b
                        /\ cloudReasoningBaseUrl s3 = cloudReasoningBaseUrl s).
  { destruct (load_surroundings _ _ _ _ _ _ _ Hcall) as (H1 & H2 & _ & H4).
    rewrite H1, H2, H4. auto. }
  destruct Hcall_keeps as (Hm3 & Hin3 & Hprop3).
  destruct (hostSetsBaseUrl_keeps b s3) as (Ko & Ke & Kl & _ & Kll & Kp & Kf & _).
  destruct (hostSetsBaseUrl_mounted b s3 Hm3) as (Mp & Mi & Ml).
  split; [exact Mp|]. split.
  { rewrite Mi, Hin3. now destruct (String.eqb (cloudReasoningBaseUrl s3) b). }
  split; [|split].
  - intros Ht.
    rewrite (load_empty normalizeBaseUrl buildApiUrl (Some b) true s2 Ht) in Hcall.
    rewrite Hm2 in Hcall.
    injection Hcall as <- <-. rewrite Kf, Ko, Ke, Kl, Kll. simpl. auto 8.
  - intros Ht.
    assert (Hacc : accepted (normalizeBaseUrl (rawBaseOf (Some b) s2)) true s2 = true)
      by (rewrite forced_is_accepted; exact Ht).
    assert (Hl3 : latestReasoningBaseRef s3 = normalizeBaseUrl b).
    { apply (load_accepted_latest _ _ _ _ _ _ _ Hcall Hacc). discriminate. }
    rewrite Ml.
    destruct (String.eqb (normalizeBaseUrl (cloudReasoningBaseUrl s3)) (normalizeBaseUrl b));
      [exact Hl3 | reflexivity].
  - intros Hf Ht Hkey.
    assert (Hacc : accepted (normalizeBaseUrl (rawBaseOf (Some b) s2)) true s2 = true)
      by (rewrite forced_is_accepted; exact Ht).
    assert (Hk : JsString.truthy (keyFromStateOf s2) = true).
    { unfold keyFromStateOf. simpl.
      destruct (JsString.trim (openaiApiKey s)); [congruence|reflexivity]. }
    rewrite (load_fetches_with_key _ _ _ _ _ Hacc Hf Hk) in Hcall.
    injection Hcall as <- _. rewrite Kf, Kp, Kl, Ko, Ke.
    unfold entered. simpl. rewrite Hm. simpl. auto 8.
Qed.


(** X11.  Apply and Reset always reload.  On a mounted component, after
    Apply (of the trimmed field) or Reset (to [OPENAI_BASE]) the saved base
    and the field are that base and the field is not dirty.  If the base
    normalizes to nothing, nothing is fetched and options, error, loading
    flag and the key of the last success are cleared.  Otherwise the base
    becomes the latest requested one, and when it is fetchable and a key
    is typed, one request goes out for it, with the loading flag set and
    options and error cleared, whatever the markers held before. *)
Theorem apply_and_reset_always_reload :
  forall (s s' : State) (o : Outcome) (b : string),
    isMountedRef s = true ->
    (b = JsString.trim (customBaseInput s)
     /\ handleApplyCustomBase normalizeBaseUrl buildApiUrl s = (s', o))
    \/ (b = OPENAI_BASE
        /\ handleResetCustomBase normalizeBaseUrl buildApiUrl OPENAI_BASE s = (s', o)) ->
    cloudReasoningBaseUrl s' = b
    /\ customBaseInput s' = b
    /\ isCustomBaseDirty (customBaseInput s') (cloudReasoningBaseUrl s') = false
    /\ (JsString.truthy (normalizeBaseUrl b) = false ->
        o = Returned /\ fetchLog s' = fetchLog s
        /\ customModelOptions s' = [] /\ customModelsError s' = None
        /\ customModelsLoading s' = false /\ lastLoadedBaseRef s' = None)
    /\ (JsString.truthy (normalizeBaseUrl b) = true ->
        latestReasoningBaseRef s' = normalizeBaseUrl b)
    /\ (fetchable (normalizeBaseUrl b) = true ->
        JsString.truthy (normalizeBaseUrl b) = true ->
        JsString.trim (openaiApiKey s) <> EmptyString ->
        fetchLog s'
        = {| req_url := buildApiUrl (normalizeBaseUrl b) "/models";
             req_authorization :=
               Some (String.append "Bearer " (JsString.trim (openaiApiKey s))) |}
          :: fetchLog s
        /\ pendingBaseRef s' = Some (normalizeBaseUrl b)
        /\ customModelsLoading s' = true
        /\ customModelOptions s' = []
        /\ customModelsError s' = None).
Proof.
  intros s s' o b Hm Hwhich.
  assert (H : loadAndStore normalizeBaseUrl buildApiUrl b s = (s', o)).
  { destruct Hwhich as [[-> H]|[-> H]]; exact H. }
  destruct (loadAndStore_reloads b s s' o Hm H) as (Hp & Hi & Hblank & Hlatest & Hfetch).
  split; [exact Hp|]. split; [exact Hi|]. split.
  { unfold isCustomBaseDirty. rewrite Hp, Hi. now rewrite String.eqb_refl. }
  auto.
Qed.

Lemma issued_log (r : Request) (baseOverride : option string) (nb : string) (s : State) :
  fetchLog (issueFetch r (entered baseOverride nb s)) = r :: fetchLog s.
Proof.
  destruct (entered_refs baseOverride nb s) as (_ & _ & Hlog & _).
  cbn [fetchLog issueFetch]. now rewrite Hlog.
Qed.

Lemma load_unfetchable (baseOverride : option string) (force : bool)
      (s s' : State) (o : Outcome) :
  fetchable (normalizeBaseUrl (rawBaseOf baseOverride s)) = false ->
  JsString.truthy (keyFromStateOf s) = true ->
  load baseOverride force s = (s', o) ->
  o = Returned /\ fetchLog s' = fetchLog s.
Proof.
  intros Hf Hk H.
  destruct (JsString.truthy (normalizeBaseUrl (rawBaseOf baseOverride s))) eqn:Ht.
  2:{ rewrite (load_empty _ _ _ _ _ Ht) in H. injection H as <- <-.
      split; [reflexivity|]. destruct (isMountedRef s); reflexivity. }
  destruct (accepted (normalizeBaseUrl (rawBaseOf baseOverride s)) force s) eqn:Hacc.
  2:{ rewrite (load_not_accepted _ _ _ _ _ Hacc Ht) in H. injection H as <- <-. auto. }
  rewrite (load_accepted _ _ _ _ _ Hacc) in H. cbv zeta in H. rewrite Hk in H.
  destruct (entered_refs baseOverride (normalizeBaseUrl (rawBaseOf baseOverride s)) s)
    as (_ & _ & Hlog & _).
  unfold fetchable in Hf.
  destruct (JsString.includes (normalizeBaseUrl (rawBaseOf baseOverride s)) "://") eqn:Hi.
  - simpl in Hf. rewrite validateAndFetch_insecure in H by assumption.
    injection H as <- <-. split; [reflexivity|]. rewrite <- Hlog. apply rejectWith_refs.
  - rewrite validateAndFetch_schemeless in H by assumption.
    injection H as <- <-. split; [reflexivity|]. rewrite <- Hlog. apply rejectWith_refs.
Qed.

(** X12.  The Refresh button.  While a load is shown as running the button
    is disabled, and so it is when both the field and the saved base are
    blank.  An enabled button always reaches the loader and does what its
    label says: labelled "Apply & Refresh" it applies the field, and
    labelled "Refresh Models" it loads the saved base with force, so that
    for a fetchable base with a typed key a request goes out even when
    that base is the last one loaded. *)
Theorem refresh_button_always_reaches_the_loader :
  (forall s : State,
      customModelsLoading s = true
      \/ (JsString.trim (customBaseInput s) = EmptyString
          /\ JsString.trim (cloudReasoningBaseUrl s) = EmptyString) ->
      refreshDisabled s = true)
  /\
  (forall s : State,
      refreshDisabled s = false ->
      (refreshLabel s = "Apply & Refresh"
       /\ handleRefreshCustomModels normalizeBaseUrl buildApiUrl s
          = handleApplyCustomBase normalizeBaseUrl buildApiUrl s)
      \/ (refreshLabel s = "Refresh Models"
          /\ handleRefreshCustomModels normalizeBaseUrl buildApiUrl s
             = load None true s))
  /\
  (forall (s s' : State) (o : Outcome),
      refreshDisabled s = false ->
      isCustomBaseDirty (customBaseInput s) (cloudReasoningBaseUrl s) = false ->
      JsString.truthy (normalizeBaseUrl (cloudReasoningBaseUrl s)) = true ->
      fetchable (normalizeBaseUrl (cloudReasoningBaseUrl s)) = true ->
      JsString.trim (openaiApiKey s) <> EmptyString ->
      handleRefreshCustomModels normalizeBaseUrl buildApiUrl s = (s', o) ->
      fetchLog s'
      = {| req_url := buildApiUrl (normalizeBaseUrl (cloudReasoningBaseUrl s)) "/models";
           req_authorization :=
             Some (String.append "Bearer " (JsString.trim (openaiApiKey s))) |}
        :: fetchLog s).
Proof.
  assert (Henabled : forall s, refreshDisabled s = false ->
            isCustomBaseDirty (customBaseInput s) (cloudReasoningBaseUrl s) = false ->
            JsString.truthy (trimmedCustomBase s) = true).
  { intros s Hen Hclean. unfold refreshDisabled in Hen.
    apply orb_false_iff in Hen as [_ Hen].
    unfold isCustomBaseDirty in Hclean. apply negb_false_iff, String.eqb_eq in Hclean.
    unfold hasSavedCustomBase, trimmedCustomBase in *. rewrite <- Hclean in Hen.
    destruct (JsString.truthy (JsString.trim (customBaseInput s))); [reflexivity|discriminate]. }
  split; [|split].
  - intros s [H|[H1 H2]]; unfold refreshDisabled.
    + now rewrite H.
    + unfold trimmedCustomBase, hasSavedCustomBase. rewrite H1, H2. apply orb_true_r.
  - intros s Hen. unfold handleRefreshCustomModels, refreshLabel.
    assert (Hidle : customModelsLoading s = false).
    { unfold refreshDisabled in Hen. now apply orb_false_iff in Hen as [Hl _]. }
    rewrite Hidle.
    destruct (isCustomBaseDirty (customBaseInput s) (cloudReasoningBaseUrl s)) eqn:Hd;
      [left; split; reflexivity|].
    right. split; [reflexivity|]. now rewrite (Henabled s Hen Hd).
  - intros s s' o Hen Hclean Ht Hf Hkey H. unfold handleRefreshCustomModels in H.
    rewrite Hclean, (Henabled s Hen Hclean) in H. cbn [negb] in H.
    assert (Hacc : accepted (normalizeBaseUrl (rawBaseOf None s)) true s = true)
      by (rewrite forced_is_accepted; exact Ht).
    assert (Hk : JsString.truthy (keyFromStateOf s) = true).
    { unfold keyFromStateOf. destruct (JsString.trim (openaiApiKey s)); [congruence|reflexivity]. }
    rewrite (load_fetches_with_key _ _ _ _ _ Hacc Hf Hk) in H. injection H as <- _.
    exact (issued_log _ None _ s).
Qed.

Lemma hasCustomBase_truthy (s : State) :
  hasCustomBase normalizeBaseUrl s
  = JsString.truthy (normalizeBaseUrl (cloudReasoningBaseUrl s)).
Proof.
  unfold hasCustomBase. now destruct (normalizeBaseUrl (cloudReasoningBaseUrl s)).
Qed.

Lemma entered_shown (baseOverride : option string) (nb : string) (s : State) :
  isMountedRef s = true ->
  customModelOptions (entered baseOverride nb s) = []
  /\ customModelsLoading (entered baseOverride nb s) = true
  /\ customModelsError (entered baseOverride nb s) = None.
Proof.
  intros Hm. unfold entered.
  destruct baseOverride; cbn [isMountedRef setPendingBase setLatestReasoningBase];
    rewrite Hm; repeat split; reflexivity.
Qed.

(** An unforced call that reads the prop, with both markers empty, a
    fetchable base and a typed key, sends its request at once. *)
Lemma fresh_load (t : State) :
  JsString.truthy (normalizeBaseUrl (cloudReasoningBaseUrl t)) = true ->
  fetchable (normalizeBaseUrl (cloudReasoningBaseUrl t)) = true ->
  JsString.trim (openaiApiKey t) <> EmptyString ->
  pendingBaseRef t = None ->
  lastLoadedBaseRef t = None ->
  load None false t
  = (issueFetch
       {| req_url := buildApiUrl (normalizeBaseUrl (cloudReasoningBaseUrl t)) "/models";
          req_authorization :=
            Some (String.append "Bearer " (JsString.trim (openaiApiKey t))) |}
       (entered None (normalizeBaseUrl (cloudReasoningBaseUrl t)) t),
     Suspend (AwaitFetch {| normalizedBase := normalizeBaseUrl (cloudReasoningBaseUrl t);
                            apiKey := Some (JsString.trim (openaiApiKey t));
                            closureReasoningModel := reasoningModel t |})).
Proof.
  intros Ht Hf Hkey Hp Hl.
  assert (Hacc : accepted (normalizeBaseUrl (rawBaseOf None t)) false t = true).
  { unfold accepted. cbn [rawBaseOf]. rewrite Ht, Hp, Hl. reflexivity. }
  assert (Hk : JsString.truthy (keyFromStateOf t) = true).
  { unfold keyFromStateOf. destruct (JsString.trim (openaiApiKey t)); [congruence|reflexivity]. }
  exact (load_fetches_with_key _ _ None false t Hacc Hf Hk).
Qed.

(** The effect on the custom tab, by the state of the markers. *)
Lemma autoLoadEffect_fresh (p : Panel) :
  selectedCloudProvider p = "custom" ->
  JsString.truthy (normalizeBaseUrl (cloudReasoningBaseUrl (loaderState p))) = true ->
  fetchable (normalizeBaseUrl (cloudReasoningBaseUrl (loaderState p))) = true ->
  JsString.trim (openaiApiKey (loaderState p)) <> EmptyString ->
  pendingBaseRef (loaderState p) = None ->
  lastLoadedBaseRef (loaderState p) = None ->
  autoLoadEffect normalizeBaseUrl buildApiUrl p
  = (withLoaderState (fst (load None false (loaderState p))) p,
     snd (load None false (loaderState p))).
Proof.
  intros Htab Ht Hf Hkey Hp Hl. unfold autoLoadEffect.
  rewrite Htab, String.eqb_refl, hasCustomBase_truthy, Ht, Hp, Hl. cbn [negb refIs orb].
  now destruct (load None false (loaderState p)).
Qed.

Lemma autoLoadEffect_pending (p : Panel) :
  selectedCloudProvider p = "custom" ->
  JsString.truthy (normalizeBaseUrl (cloudReasoningBaseUrl (loaderState p))) = true ->
  pendingBaseRef (loaderState p)
  = Some (normalizeBaseUrl (cloudReasoningBaseUrl (loaderState p))) ->
  autoLoadEffect normalizeBaseUrl buildApiUrl p = (p, Returned).
Proof.
  intros Htab Ht Hp. unfold autoLoadEffect.
  rewrite Htab, String.eqb_refl, hasCustomBase_truthy, Ht, Hp. cbn [negb refIs].
  now rewrite String.eqb_refl.
Qed.

(** X13.  A switch to another tab, that is the click and the effect that
    runs because the tab has changed.  A switch to the custom tab with a
    saved base that is fetchable and a typed key sends exactly one
    request for that base, whatever the markers held and whether or not
    options were at hand: with options the handler selects the first of
    them and the effect, finding both markers reset, reloads; with none
    the handler reloads and the effect finds the request pending.  On a
    mounted component the options are then empty and the loading flag is
    up.  A switch to any other tab never reaches the loader: it selects
    the first model the registry has for the provider, if any, and leaves
    the state of the loader alone. *)
Theorem switch_to_custom_tab_sends_one_request :
  (forall (p p' : Panel) (o1 o2 : Outcome),
      selectedCloudProvider p <> "custom" ->
      JsString.truthy (normalizeBaseUrl (cloudReasoningBaseUrl (loaderState p))) = true ->
      fetchable (normalizeBaseUrl (cloudReasoningBaseUrl (loaderState p))) = true ->
      JsString.trim (openaiApiKey (loaderState p)) <> EmptyString ->
      switchTab normalizeBaseUrl buildApiUrl providerModels "custom" p = (p', o1, o2) ->
      selectedCloudProvider p' = "custom"
      /\ fetchLog (loaderState p')
         = {| req_url :=
                buildApiUrl (normalizeBaseUrl (cloudReasoningBaseUrl (loaderState p))) "/models";
              req_authorization :=
                Some (String.append "Bearer " (JsString.trim (openaiApiKey (loaderState p)))) |}
           :: fetchLog (loaderState p)
      /\ pendingBaseRef (loaderState p')
         = Some (normalizeBaseUrl (cloudReasoningBaseUrl (loaderState p)))
      /\ customBaseInput (loaderState p') = cloudReasoningBaseUrl (loaderState p)
      /\ (isMountedRef (loaderState p) = true ->
          customModelOptions (loaderState p') = []
          /\ customModelsLoading (loaderState p') = true)
      /\ match customModelOptions (loaderState p) with
         | first :: _ =>
             o1 = Returned
             /\ (exists inv, o2 = Suspend (AwaitFetch inv))
             /\ reasoningModel (loaderState p') = value first
         | [] =>
             (exists inv, o1 = Suspend (AwaitFetch inv))
             /\ o2 = Returned
         end)
  /\
  (forall (provider : string) (p p' : Panel) (o1 o2 : Outcome),
      provider <> "custom" ->
      switchTab normalizeBaseUrl buildApiUrl providerModels provider p = (p', o1, o2) ->
      o1 = Returned /\ o2 = Returned
      /\ selectedCloudProvider p' = provider
      /\ localReasoningProvider p' = provider
      /\ (loaderState p' = loaderState p
          \/ exists first rest,
               providerModels provider = first :: rest
               /\ loaderState p' = setReasoningModel (value first) (loaderState p))).
Proof.
  split.
  - intros p p' o1 o2 _ Ht Hf Hkey H.
    unfold switchTab, handleCloudProviderChange in H.
    rewrite String.eqb_refl in H.
    set (s := loaderState p) in *.
    set (nb := normalizeBaseUrl (cloudReasoningBaseUrl s)) in *.
    set (s2 := setPendingBase None
                 (setLastLoadedBase None (setCustomBaseInput (cloudReasoningBaseUrl s) s))) in *.
    destruct (customModelOptions s) as [|first rest] eqn:Hopts.
    + (* no options: the handler loads, the effect finds the request pending *)
      rewrite hasCustomBase_truthy in H. fold s in H. fold nb in H. rewrite Ht in H.
      rewrite (fresh_load s2 Ht Hf Hkey eq_refl eq_refl) in H.
      change (normalizeBaseUrl (cloudReasoningBaseUrl s2)) with nb in H.
      change (openaiApiKey s2) with (openaiApiKey s) in H.
      destruct (entered_refs None nb s2) as (Hm & _ & _ & Hpend).
      destruct (entered_surroundings None nb s2) as (Hin & Hprop & _).
      rewrite autoLoadEffect_pending in H.
      * injection H as <- <- <-. cbn [selectedCloudProvider loaderState].
        split; [reflexivity|]. split; [exact (issued_log _ None nb s2)|].
        split; [exact Hpend|]. split; [exact Hin|]. split.
        -- intros Hmount. destruct (entered_shown None nb s2 Hmount) as (Ho & Hl & _).
           split; [exact Ho|exact Hl].
        -- split; [eexists; reflexivity|reflexivity].
      * reflexivity.
      * cbn [loaderState]. change (cloudReasoningBaseUrl (issueFetch _ (entered None nb s2)))
          with (cloudReasoningBaseUrl (entered None nb s2)). rewrite Hprop. exact Ht.
      * cbn [loaderState]. change (cloudReasoningBaseUrl (issueFetch _ (entered None nb s2)))
          with (cloudReasoningBaseUrl (entered None nb s2)). rewrite Hprop.
        exact Hpend.
    + (* options at hand: the handler selects, the effect reloads *)
      set (t := setReasoningModel (value first) s2) in *.
      rewrite autoLoadEffect_fresh in H; try reflexivity; try assumption.
      cbn [loaderState] in H.
      rewrite (fresh_load t Ht Hf Hkey eq_refl eq_refl) in H. cbn [fst snd] in H.
      change (normalizeBaseUrl (cloudReasoningBaseUrl t)) with nb in H.
      change (openaiApiKey t) with (openaiApiKey s) in H.
      destruct (entered_refs None nb t) as (Hm & _ & _ & Hpend).
      destruct (entered_surroundings None nb t) as (Hin & _).
      injection H as <- <- <-. cbn [selectedCloudProvider loaderState withLoaderState].
      split; [reflexivity|]. split; [exact (issued_log _ None nb t)|].
      split; [exact Hpend|]. split; [exact Hin|]. split.
      * intros Hmount. destruct (entered_shown None nb t Hmount) as (Ho & Hl & _).
        split; [exact Ho|exact Hl].
      * split; [reflexivity|]. split; [eexists; reflexivity|].
        cbn [reasoningModel issueFetch]. unfold entered. cbn [isMountedRef setPendingBase].
        destruct (isMountedRef t); reflexivity.
  - intros provider p p' o1 o2 Hne H.
    unfold switchTab, handleCloudProviderChange in H.
    apply String.eqb_neq in Hne. rewrite Hne in H.
    unfold autoLoadEffect in H.
    destruct (providerModels provider) as [|first rest] eqn:Hreg;
      cbn [selectedCloudProvider] in H; rewrite Hne in H; cbn [negb] in H;
      injection H as <- <- <-; cbn [selectedCloudProvider localReasoningProvider loaderState].
    + auto 6.
    + split; [reflexivity|]. split; [reflexivity|]. split; [reflexivity|].
      split; [reflexivity|]. right. exists first, rest. auto.
Qed.

(** X14.  The auto-load effect.  Away from the custom tab it does nothing.
    On the custom tab with no saved base it clears options, error, loading
    flag and the key of the last success, and fetches nothing.  And run
    twice in a row it fetches no more than run once: the second run
    returns without a request. *)
Theorem auto_load_effect_is_idempotent :
  (forall p : Panel,
      selectedCloudProvider p <> "custom" ->
      autoLoadEffect normalizeBaseUrl buildApiUrl p = (p, Returned))
  /\
  (forall (p p' : Panel) (o : Outcome),
      selectedCloudProvider p = "custom" ->
      JsString.truthy (normalizeBaseUrl (cloudReasoningBaseUrl (loaderState p))) = false ->
      autoLoadEffect normalizeBaseUrl buildApiUrl p = (p', o) ->
      o = Returned
      /\ fetchLog (loaderState p') = fetchLog (loaderState p)
      /\ customModelOptions (loaderState p') = []
      /\ customModelsError (loaderState p') = None
      /\ customModelsLoading (loaderState p') = false
      /\ lastLoadedBaseRef (loaderState p') = None)
  /\
  (forall (p p1 p2 : Panel) (o1 o2 : Outcome),
      autoLoadEffect normalizeBaseUrl buildApiUrl p = (p1, o1) ->
      autoLoadEffect normalizeBaseUrl buildApiUrl p1 = (p2, o2) ->
      o2 = Returned /\ fetchLog (loaderState p2) = fetchLog (loaderState p1)).
Proof.
  split; [|split].
  - intros p Hne. unfold autoLoadEffect. apply String.eqb_neq in Hne. now rewrite Hne.
  - intros p p' o Hc Ht H. unfold autoLoadEffect in H.
    rewrite Hc in H. cbn [String.eqb Ascii.eqb Bool.eqb negb] in H.
    rewrite hasCustomBase_truthy, Ht in H. cbn [negb] in H.
    injection H as <- <-. simpl. auto 8.
  - intros p p1 p2 o1 o2 H1 H2.
    unfold autoLoadEffect in H1.
    destruct (negb (String.eqb (selectedCloudProvider p) "custom")) eqn:Htab.
    { injection H1 as <- <-. unfold autoLoadEffect in H2. rewrite Htab in H2.
      injection H2 as <- <-. auto. }
    rewrite hasCustomBase_truthy in H1.
    destruct (JsString.truthy (normalizeBaseUrl (cloudReasoningBaseUrl (loaderState p)))) eqn:Ht.
    2:{ cbn [negb] in H1. injection H1 as <- <-.
        unfold autoLoadEffect in H2. cbn [selectedCloudProvider withLoaderState] in H2.
        rewrite Htab in H2. rewrite hasCustomBase_truthy in H2.
        cbn [loaderState withLoaderState cloudReasoningBaseUrl setLastLoadedBase
             setCustomModelsLoading setCustomModelOptions setCustomModelsError] in H2.
        rewrite Ht in H2. cbn [negb] in H2. injection H2 as <- <-. auto. }
    cbn [negb] in H1.
    set (s := loaderState p) in *.
    set (nb := normalizeBaseUrl (cloudReasoningBaseUrl s)) in *.
    destruct (refIs (pendingBaseRef s) nb || refIs (lastLoadedBaseRef s) nb) eqn:Hmark.
    { injection H1 as <- <-. unfold autoLoadEffect in H2. rewrite Htab in H2.
      rewrite hasCustomBase_truthy in H2. fold s in H2. fold nb in H2.
      rewrite Ht, Hmark in H2. cbn [negb] in H2. injection H2 as <- <-. auto. }
    destruct (load None false s) as [s1 o1'] eqn:Hcall. injection H1 as <- <-.
    destruct (load_surroundings _ _ _ _ _ _ _ Hcall) as (_ & Hprop & Hkeysame & _).
    unfold autoLoadEffect in H2. cbn [selectedCloudProvider withLoaderState loaderState] in H2.
    rewrite Htab in H2. rewrite hasCustomBase_truthy in H2. rewrite Hprop in H2.
    fold nb in H2. rewrite Ht in H2. cbn [negb] in H2.
    destruct (refIs (pendingBaseRef s1) nb || refIs (lastLoadedBaseRef s1) nb) eqn:Hmark1.
    { injection H2 as <- <-. auto. }
    destruct (load None false s1) as [s2 o2'] eqn:Hcall2. injection H2 as <- <-.
    cbn [loaderState].
    (* the first call was accepted; it cannot have suspended, and so it was
       rejected with the key in memory *)
    apply orb_false_iff in Hmark as [Hp Hl].
    assert (Hacc : accepted (normalizeBaseUrl (rawBaseOf None s)) false s = true).
    { unfold accepted. change (normalizeBaseUrl (rawBaseOf None s)) with nb.
      rewrite Ht, Hp, Hl. reflexivity. }
    rewrite (load_accepted _ _ _ _ _ Hacc) in Hcall. cbv zeta in Hcall.
    change (normalizeBaseUrl (rawBaseOf None s)) with nb in Hcall.
    destruct (entered_refs None nb s) as (_ & _ & _ & Hpend).
    apply orb_false_iff in Hmark1 as [Hp1 _].
    destruct (JsString.truthy (keyFromStateOf s)) eqn:Hk.
    + destruct (fetchable nb) eqn:Hf.
      * exfalso. apply fetchable_true in Hf as [Hi Ha].
        rewrite validateAndFetch_allowed in Hcall by assumption.
        injection Hcall as <- _. cbn [pendingBaseRef issueFetch] in Hp1.
        rewrite Hpend in Hp1. simpl in Hp1. rewrite String.eqb_refl in Hp1. discriminate.
      * apply (load_unfetchable None false s1 s2 o2'); [| |exact Hcall2].
        -- change (normalizeBaseUrl (rawBaseOf None s1))
             with (normalizeBaseUrl (cloudReasoningBaseUrl s1)).
           rewrite Hprop. exact Hf.
        -- unfold keyFromStateOf in *. now rewrite Hkeysame.
    + exfalso. injection Hcall as <- _.
      rewrite Hpend in Hp1. simpl in Hp1. rewrite String.eqb_refl in Hp1. discriminate.
Qed.

(** A forced call on a mounted component leaves no options. *)
Lemma forced_load_clears_options (baseOverride : option string) (s s' : State) (o : Outcome) :
  isMountedRef s = true ->
  load baseOverride true s = (s', o) ->
  customModelOptions s' = [].
Proof.
  intros Hm H.
  destruct (JsString.truthy (normalizeBaseUrl (rawBaseOf baseOverride s))) eqn:Ht.
  2:{ rewrite (load_empty _ _ _ _ _ Ht), Hm in H. now injection H as <- <-. }
  assert (Hacc : accepted (normalizeBaseUrl (rawBaseOf baseOverride s)) true s = true)
    by (rewrite forced_is_accepted; exact Ht).
  rewrite (load_accepted _ _ _ _ _ Hacc) in H. cbv zeta in H.
  destruct (entered_shown baseOverride (normalizeBaseUrl (rawBaseOf baseOverride s)) s Hm)
    as (Ho & _).
  destruct (JsString.truthy (keyFromStateOf s)).
  - unfold validateAndFetch in H. cbn [normalizedBase] in H.
    destruct (negb (JsString.includes _ "://"));
      [|destruct (negb (transportAllowed _))]; injection H as <- <-.
    + unfold rejectWith.
      destruct (finallyBlock_keeps (normalizeBaseUrl (rawBaseOf baseOverride s))
                  (if isCurrent (normalizeBaseUrl (rawBaseOf baseOverride s))
                        (entered baseOverride (normalizeBaseUrl (rawBaseOf baseOverride s)) s)
                   then setCustomModelsLoading false
                          (setCustomModelsError (Some MISSING_PROTOCOL_ERROR)
                             (entered baseOverride (normalizeBaseUrl (rawBaseOf baseOverride s)) s))
                   else entered baseOverride (normalizeBaseUrl (rawBaseOf baseOverride s)) s))
        as (-> & _).
      destruct (isCurrent _ _); exact Ho.
    + unfold rejectWith.
      destruct (finallyBlock_keeps (normalizeBaseUrl (rawBaseOf baseOverride s))
                  (if isCurrent (normalizeBaseUrl (rawBaseOf baseOverride s))
                        (entered baseOverride (normalizeBaseUrl (rawBaseOf baseOverride s)) s)
                   then setCustomModelsLoading false
                          (setCustomModelsError (Some HTTPS_ONLY_ERROR)
                             (entered baseOverride (normalizeBaseUrl (rawBaseOf baseOverride s)) s))
                   else entered baseOverride (normalizeBaseUrl (rawBaseOf baseOverride s)) s))
        as (-> & _).
      destruct (isCurrent _ _); exact Ho.
    + exact Ho.
  - injection H as <- <-. exact Ho.
Qed.

Lemma hostSetsBaseUrl_options (v : string) (s : State) :
  customModelOptions (hostSetsBaseUrl normalizeBaseUrl v s) = customModelOptions s.
Proof.
  unfold hostSetsBaseUrl. destruct (negb (isMountedRef s)); [reflexivity|].
  destruct (String.eqb (cloudReasoningBaseUrl s) v);
    destruct (String.eqb (normalizeBaseUrl (cloudReasoningBaseUrl s)) (normalizeBaseUrl v));
    reflexivity.
Qed.

(** X1.  The displayed list from an edit to the response.  An edit that
    makes the field differ from the saved base, blanks aside, empties
    [displayedCustomModels].  Apply, on a mounted component and with a
    host that stores the base it is handed, leaves the field clean, but
    the displayed list is still empty: the forced reload has cleared the
    options.  When the parsed body then reaches a current invocation, the
    options are the mapped list, and the displayed list is the mapped
    list if the field is clean at that moment and empty if it has been
    edited again. *)
Theorem displayed_list_from_edit_to_response :
  (forall (s : State) (text : string),
      JsString.trim text <> JsString.trim (cloudReasoningBaseUrl s) ->
      displayedOf (setCustomBaseInput text s) = [])
  /\
  (forall (s s' : State) (o : Outcome),
      isMountedRef s = true ->
      handleApplyCustomBase normalizeBaseUrl buildApiUrl s = (s', o) ->
      isCustomBaseDirty (customBaseInput s') (cloudReasoningBaseUrl s') = false
      /\ customModelOptions s' = []
      /\ displayedOf s' = [])
  /\
  (forall (inv : Invocation) (body : option JsValue) (s s' : State) (o : Outcome),
      resumes buildApiUrl (AwaitJson inv) (OfJson body) s s' o ->
      isCurrent (normalizedBase inv) s = true ->
      customModelOptions s' = mapModels (rawModelsOf (parsePayload body))
      /\ displayedOf s'
         = if isCustomBaseDirty (customBaseInput s) (cloudReasoningBaseUrl s)
           then []
           else mapModels (rawModelsOf (parsePayload body))).
Proof.
  split; [|split].
  - intros s text Hne. unfold displayedOf, displayedCustomModels, isCustomBaseDirty.
    cbn [customBaseInput cloudReasoningBaseUrl setCustomBaseInput].
    apply String.eqb_neq in Hne. now rewrite Hne.
  - intros s s' o Hm H. rewrite handleApplyCustomBase_eq in H.
    destruct (loadAndStore_reloads _ s s' o Hm H) as (Hp & Hi & _).
    assert (Hclean : isCustomBaseDirty (customBaseInput s') (cloudReasoningBaseUrl s') = false).
    { unfold isCustomBaseDirty. rewrite Hp, Hi. now rewrite String.eqb_refl. }
    assert (Hopts : customModelOptions s' = []).
    { unfold loadAndStore in H.
      destruct (load (Some (JsString.trim (customBaseInput s))) true
                  (setLastLoadedBase None
                     (setCustomBaseInput (JsString.trim (customBaseInput s)) s)))
        as [s3 o3] eqn:Hcall.
      injection H as <- <-. rewrite hostSetsBaseUrl_options.
      eapply forced_load_clears_options; [|exact Hcall]. exact Hm. }
    split; [exact Hclean|]. split; [exact Hopts|].
    unfold displayedOf, displayedCustomModels. rewrite Hclean. exact Hopts.
  - intros inv body s s' o Hres Hcur.
    destruct (settlement_surroundings buildApiUrl _ _ _ _ _ Hres) as (Hin & Hprop & _).
    inversion Hres; subst.
    match goal with H : resumeJson _ _ _ = _ |- _ =>
      unfold resumeJson in H; injection H as <- <- end.
    assert (Hopts : customModelOptions
                      (finallyBlock (normalizedBase inv)
                         (applyModels inv (mapModels (rawModelsOf (parsePayload body))) s))
                    = mapModels (rawModelsOf (parsePayload body))).
    { destruct (finallyBlock_keeps (normalizedBase inv)
                  (applyModels inv (mapModels (rawModelsOf (parsePayload body))) s)) as (-> & _).
      now destruct (applyModels_current inv (mapModels (rawModelsOf (parsePayload body))) s Hcur). }
    split; [exact Hopts|].
    unfold displayedOf, displayedCustomModels. rewrite Hin, Hprop, Hopts. reflexivity.
Qed.

End HandlerProperties.

(** ** What holds of the panel at every moment *)

Lemma tidy_spec (s : State) :
  tidy s = true
  <-> (customModelsLoading s = true ->
       customModelsError s = None /\ customModelOptions s = []).
Proof.
  unfold tidy. destruct (customModelsLoading s), (customModelsError s),
    (customModelOptions s); simpl; split; intros H; auto; try discriminate;
    try (destruct (H eq_refl) as [H1 H2]; discriminate).
Qed.

Lemma tidy_same (s s' : State) :
  customModelsLoading s' = customModelsLoading s ->
  customModelsError s' = customModelsError s ->
  customModelOptions s' = customModelOptions s ->
  tidy s' = tidy s.
Proof. unfold tidy. now intros -> -> ->. Qed.

Lemma tidy_idle (s : State) : customModelsLoading s = false -> tidy s = true.
Proof. unfold tidy. now intros ->. Qed.

Lemma tidy_finallyBlock (nb : string) (s : State) :
  tidy s = true -> tidy (finallyBlock nb s) = true.
Proof.
  intros H. destruct (isCurrent nb s) eqn:Hc.
  - apply tidy_idle. rewrite finallyBlock_loading, Hc. reflexivity.
  - rewrite <- H. apply tidy_same.
    + rewrite finallyBlock_loading, Hc. reflexivity.
    + apply finallyBlock_keeps.
    + apply finallyBlock_keeps.
Qed.

(** A block that leaves the mount flag and the latest requested base alone
    and is followed by the cleanup: when the invocation is current the
    cleanup lowers the flag, and when it is stale the block has changed
    nothing. *)
Lemma tidy_block_then_finally (nb : string) (s s1 : State) :
  isMountedRef s1 = isMountedRef s ->
  latestReasoningBaseRef s1 = latestReasoningBaseRef s ->
  (isCurrent nb s = false -> s1 = s) ->
  tidy s = true -> tidy (finallyBlock nb s1) = true.
Proof.
  intros Hm Hl Hstale H.
  destruct (isCurrent nb s) eqn:Hc.
  - apply tidy_idle. rewrite finallyBlock_loading.
    unfold isCurrent in *. rewrite Hm, Hl, Hc. reflexivity.
  - rewrite (Hstale eq_refl). now apply tidy_finallyBlock.
Qed.

Lemma tidy_catch (nb : string) (key : option string) (m : string) (s : State) :
  tidy s = true -> tidy (finallyBlock nb (catchBlock nb key m s)) = true.
Proof.
  destruct (catchBlock_refs nb key m s) as (Hl & Hm & _).
  apply tidy_block_then_finally; auto. apply catchBlock_stale.
Qed.

Lemma tidy_apply (inv : Invocation) (mapped : list CloudModelOption) (s : State) :
  tidy s = true ->
  tidy (finallyBlock (normalizedBase inv) (applyModels inv mapped s)) = true.
Proof.
  destruct (applyModels_refs inv mapped s) as (Hl & Hm & _).
  apply tidy_block_then_finally; auto. apply applyModels_stale.
Qed.

Lemma tidy_rejectWith (nb m : string) (s : State) :
  tidy s = true -> tidy (rejectWith nb m s) = true.
Proof.
  unfold rejectWith. apply tidy_block_then_finally.
  - destruct (isCurrent nb s); reflexivity.
  - destruct (isCurrent nb s); reflexivity.
  - now intros ->.
Qed.

Lemma tidy_entered (baseOverride : option string) (nb : string) (s : State) :
  tidy s = true -> tidy (entered baseOverride nb s) = true.
Proof.
  intros H. unfold entered.
  destruct baseOverride; cbn [isMountedRef setPendingBase setLatestReasoningBase];
    destruct (isMountedRef s); try reflexivity; exact H.
Qed.

Lemma markerIsLive_none (s : State) (pool : list Suspended) :
  pendingBaseRef s = None -> markerIsLive s pool = true.
Proof. unfold markerIsLive. now intros ->. Qed.

Lemma markerIsLive_same (s s' : State) (pool : list Suspended) :
  pendingBaseRef s' = pendingBaseRef s ->
  markerIsLive s' pool = markerIsLive s pool.
Proof. unfold markerIsLive. now intros ->. Qed.

Lemma markerIsLive_new (s : State) (pool : list Suspended) (k : Suspended) :
  pendingBaseRef s = Some (normalizedBase (invocationOf k)) ->
  markerIsLive s (pool ++ [k]) = true.
Proof.
  unfold markerIsLive. intros ->. rewrite existsb_app. simpl.
  rewrite String.eqb_refl. apply orb_true_r.
Qed.

Lemma rejectWith_pending (nb m : string) (s : State) :
  pendingBaseRef (rejectWith nb m s)
  = if refIs (pendingBaseRef s) nb then None else pendingBaseRef s.
Proof.
  unfold rejectWith. rewrite finallyBlock_pending.
  destruct (isCurrent nb s); reflexivity.
Qed.

Section PanelInvariants.

Variable normalizeBaseUrl : string -> string.
Variable buildApiUrl : string -> string -> string.
Variable OPENAI_BASE : string.
Variable providerModels : string -> list CloudModelOption.

Local Abbreviation load := (loadRemoteModels normalizeBaseUrl buildApiUrl).
Local Abbreviation stepP := (stepPanel normalizeBaseUrl buildApiUrl OPENAI_BASE providerModels).
Local Abbreviation runP := (runPanel normalizeBaseUrl buildApiUrl OPENAI_BASE providerModels).

(** *** The loading flag *)

Lemma tidy_validateAndFetch (inv : Invocation) (s s' : State) (o : Outcome) :
  validateAndFetch buildApiUrl inv s = (s', o) -> tidy s = true -> tidy s' = true.
Proof.
  unfold validateAndFetch. intros H Ht.
  destruct (negb (JsString.includes (normalizedBase inv) "://"));
    [|destruct (negb (transportAllowed (normalizedBase inv)))];
    injection H as <- <-; try now apply tidy_rejectWith.
  exact Ht.
Qed.

Lemma tidy_load (baseOverride : option string) (force : bool) (s s' : State) (o : Outcome) :
  load baseOverride force s = (s', o) -> tidy s = true -> tidy s' = true.
Proof.
  intros H Hs.
  destruct (JsString.truthy (normalizeBaseUrl (rawBaseOf baseOverride s))) eqn:Ht.
  2:{ rewrite (load_empty _ _ _ _ _ Ht) in H. injection H as <- <-.
      destruct (isMountedRef s); [reflexivity|exact Hs]. }
  destruct (accepted (normalizeBaseUrl (rawBaseOf baseOverride s)) force s) eqn:Hacc.
  2:{ rewrite (load_not_accepted _ _ _ _ _ Hacc Ht) in H. now injection H as <- <-. }
  rewrite (load_accepted _ _ _ _ _ Hacc) in H. cbv zeta in H.
  pose proof (tidy_entered baseOverride (normalizeBaseUrl (rawBaseOf baseOverride s)) s Hs) as He.
  destruct (JsString.truthy (keyFromStateOf s)).
  - eapply tidy_validateAndFetch; [exact H|exact He].
  - now injection H as <- <-.
Qed.

Lemma tidy_resumes (k : Suspended) (r : Resolution) (s s' : State) (o : Outcome) :
  resumes buildApiUrl k r s s' o -> tidy s = true -> tidy s' = true.
Proof.
  intros H Hs.
  destruct H as [inv r s s' o H|inv r s s' o H|inv st stt b s s' o H|inv b s s' o H].
  - destruct r as [key|m]; simpl in H.
    + eapply tidy_validateAndFetch; [exact H|exact Hs].
    + injection H as <- <-. now apply tidy_catch.
  - destruct r as [st stt|m]; simpl in H.
    + destruct (responseOk st); now injection H as <- <-.
    + injection H as <- <-. now apply tidy_catch.
  - unfold resumeText in H. injection H as <- <-. now apply tidy_catch.
  - unfold resumeJson in H. injection H as <- <-. now apply tidy_apply.
Qed.

Lemma tidy_settleAt (r : Resolution) (pool : list Suspended) :
  forall (i : nat) (s s' : State) (pool' : list Suspended),
    settleAt buildApiUrl i r pool s = (s', pool') -> tidy s = true -> tidy s' = true.
Proof.
  induction pool as [|k rest IH]; intros i s s' pool' H Hs.
  - rewrite settleAt_nil in H. now injection H as <- <-.
  - destruct i as [|i]; cbn [settleAt] in H.
    + destruct (resume buildApiUrl k r s) as [[s1 [|k']]|] eqn:Hr.
      * injection H as <- <-. apply resume_resumes in Hr. eapply tidy_resumes; eauto.
      * injection H as <- <-. apply resume_resumes in Hr. eapply tidy_resumes; eauto.
      * now injection H as <- <-.
    + destruct (settleAt buildApiUrl i r rest s) as [s1 rest'] eqn:Hrest.
      injection H as <- <-. eapply IH; eauto.
Qed.

Lemma tidy_hostSetsBaseUrl (v : string) (s : State) :
  tidy (hostSetsBaseUrl normalizeBaseUrl v s) = tidy s.
Proof.
  unfold hostSetsBaseUrl. destruct (negb (isMountedRef s)); [reflexivity|].
  destruct (String.eqb (cloudReasoningBaseUrl s) v);
    destruct (String.eqb (normalizeBaseUrl (cloudReasoningBaseUrl s)) (normalizeBaseUrl v));
    reflexivity.
Qed.

Lemma tidy_step (w : World) (e : Event) :
  tidy (component w) = true ->
  tidy (component (step normalizeBaseUrl buildApiUrl w e)) = true.
Proof.
  intros Hs. destruct e as [ov force|i r|v|v|v|text|]; cbn [step].
  - destruct (load ov force (component w)) as [s' [|k]] eqn:H;
      cbn [component]; eapply tidy_load; eauto.
  - destruct (settleAt buildApiUrl i r (suspended w) (component w)) as [s' pool'] eqn:H.
    cbn [component]. eapply tidy_settleAt; eauto.
  - cbn [component]. now rewrite tidy_hostSetsBaseUrl.
  - exact Hs.
  - exact Hs.
  - exact Hs.
  - exact Hs.
Qed.

Lemma tidy_loadAndStore (b : string) (s s' : State) (o : Outcome) :
  loadAndStore normalizeBaseUrl buildApiUrl b s = (s', o) -> tidy s = true -> tidy s' = true.
Proof.
  unfold loadAndStore. intros H Hs.
  destruct (load (Some b) true (setLastLoadedBase None (setCustomBaseInput b s)))
    as [s3 o3] eqn:Hcall.
  injection H as <- <-. rewrite tidy_hostSetsBaseUrl.
  eapply tidy_load; [exact Hcall|exact Hs].
Qed.

Lemma tidy_refresh (s s' : State) (o : Outcome) :
  handleRefreshCustomModels normalizeBaseUrl buildApiUrl s = (s', o) ->
  tidy s = true -> tidy s' = true.
Proof.
  unfold handleRefreshCustomModels. intros H Hs.
  destruct (isCustomBaseDirty (customBaseInput s) (cloudReasoningBaseUrl s)).
  - rewrite handleApplyCustomBase_eq in H. eapply tidy_loadAndStore; eauto.
  - destruct (negb (JsString.truthy (trimmedCustomBase s))).
    + now injection H as <- <-.
    + eapply tidy_load; eauto.
Qed.

Lemma tidy_tab (provider : string) (p p' : Panel) (o : Outcome) :
  handleCloudProviderChange normalizeBaseUrl buildApiUrl providerModels provider p = (p', o) ->
  tidy (loaderState p) = true -> tidy (loaderState p') = true.
Proof.
  unfold handleCloudProviderChange. intros H Hs.
  destruct (String.eqb provider "custom").
  - destruct (customModelOptions (loaderState p)) as [|first rest] eqn:Hopts.
    + destruct (hasCustomBase normalizeBaseUrl (loaderState p)).
      * match type of H with (let '(_, _) := ?c in _) = _ => destruct c as [s1 o1] eqn:Hcall end.
        injection H as <- <-. cbn [loaderState]. eapply tidy_load; [exact Hcall|exact Hs].
      * injection H as <- <-. exact Hs.
    + injection H as <- <-. exact Hs.
  - destruct (providerModels provider); injection H as <- <-; exact Hs.
Qed.

Lemma tidy_autoLoad (p p' : Panel) (o : Outcome) :
  autoLoadEffect normalizeBaseUrl buildApiUrl p = (p', o) ->
  tidy (loaderState p) = true -> tidy (loaderState p') = true.
Proof.
  unfold autoLoadEffect. intros H Hs.
  destruct (negb (String.eqb (selectedCloudProvider p) "custom")).
  { now injection H as <- <-. }
  destruct (negb (hasCustomBase normalizeBaseUrl (loaderState p))).
  { injection H as <- <-. reflexivity. }
  cbv zeta in H.
  destruct (negb (JsString.truthy (normalizeBaseUrl (cloudReasoningBaseUrl (loaderState p))))).
  { now injection H as <- <-. }
  destruct (refIs (pendingBaseRef (loaderState p)) _ || refIs (lastLoadedBaseRef (loaderState p)) _).
  { now injection H as <- <-. }
  destruct (load None false (loaderState p)) as [s1 o1] eqn:Hcall.
  injection H as <- <-. cbn [loaderState withLoaderState]. eapply tidy_load; eauto.
Qed.

Lemma tidy_stepPanel (w : PanelWorld) (a : Action) :
  tidy (loaderState (panel w)) = true ->
  tidy (loaderState (panel (stepP w a))) = true.
Proof.
  intros Hs. destruct a as [| |provider| |e]; cbn [stepPanel].
  - destruct (negb (isMountedRef (loaderState (panel w))) || negb (onCustomTab (panel w)));
      [exact Hs|].
    destruct (handleResetCustomBase normalizeBaseUrl buildApiUrl OPENAI_BASE
                (loaderState (panel w))) as [s' o] eqn:H.
    cbn [panel loaderState withLoaderState].
    rewrite handleResetCustomBase_eq in H. eapply tidy_loadAndStore; eauto.
  - destruct (negb (isMountedRef (loaderState (panel w))) || negb (onCustomTab (panel w))
              || refreshDisabled (loaderState (panel w))); [exact Hs|].
    destruct (handleRefreshCustomModels normalizeBaseUrl buildApiUrl
                (loaderState (panel w))) as [s' o] eqn:H.
    cbn [panel loaderState withLoaderState]. eapply tidy_refresh; eauto.
  - destruct (negb (isMountedRef (loaderState (panel w)))); [exact Hs|].
    destruct (handleCloudProviderChange normalizeBaseUrl buildApiUrl providerModels
                provider (panel w)) as [p' o] eqn:H.
    cbn [panel]. eapply tidy_tab; eauto.
  - destruct (negb (isMountedRef (loaderState (panel w)))); [exact Hs|].
    destruct (autoLoadEffect normalizeBaseUrl buildApiUrl (panel w)) as [p' o] eqn:H.
    cbn [panel]. eapply tidy_autoLoad; eauto.
  - cbn [panel loaderState withLoaderState].
    apply (tidy_step {| component := loaderState (panel w); suspended := inFlight w |} e Hs).
Qed.

Lemma tidy_runPanel (actions : list Action) : forall w : PanelWorld,
  tidy (loaderState (panel w)) = true ->
  tidy (loaderState (panel (runP actions w))) = true.
Proof.
  unfold runPanel. induction actions as [|a actions IH]; intros w Hs; simpl.
  - exact Hs.
  - apply IH. now apply tidy_stepPanel.
Qed.


(** X16.  The loading flag excludes an error and a list.  At every moment
    of every run of the panel from its mount, whatever is clicked, typed,
    changed by the host or settled and in whatever order, a raised loading
    flag comes with no error and with no options. *)
Theorem loading_flag_excludes_error_and_models :
  forall (baseUrl key : string) (model : JsValue) (provider : string)
         (actions : list Action) (w : PanelWorld),
    w = runP actions {| panel := mountPanel normalizeBaseUrl baseUrl key model provider;
                        inFlight := [] |} ->
    customModelsLoading (loaderState (panel w)) = true ->
    customModelsError (loaderState (panel w)) = None
    /\ customModelOptions (loaderState (panel w)) = [].
Proof.
  intros baseUrl key model provider actions w -> Hl.
  apply tidy_spec; [|exact Hl]. apply tidy_runPanel. reflexivity.
Qed.

(** *** The pending marker *)

Lemma settleAt_spec (r : Resolution) (pool : list Suspended) :
  forall (i : nat) (s s' : State) (pool' : list Suspended),
    settleAt buildApiUrl i r pool s = (s', pool') ->
    (s' = s /\ pool' = pool)
    \/ exists pre k post o,
         pool = pre ++ k :: post
         /\ resumes buildApiUrl k r s s' o
         /\ pool' = pre ++ match o with Suspend k' => k' :: post | Returned => post end.
Proof.
  induction pool as [|k rest IH]; intros i s s' pool' H.
  - rewrite settleAt_nil in H. injection H as <- <-. now left.
  - destruct i as [|i]; cbn [settleAt] in H.
    + destruct (resume buildApiUrl k r s) as [[s1 o]|] eqn:Hr.
      * right. exists [], k, rest, o. apply resume_resumes in Hr.
        destruct o; injection H as <- <-; auto.
      * injection H as <- <-. now left.
    + destruct (settleAt buildApiUrl i r rest s) as [s1 rest'] eqn:Hrest.
      injection H as <- <-.
      destruct (IH _ _ _ _ Hrest) as [[-> ->]|(pre & k0 & post & o & -> & Hres & ->)].
      * now left.
      * right. exists (k :: pre), k0, post, o. auto.
Qed.

Lemma hostSetsBaseUrl_pending (v : string) (s : State) :
  pendingBaseRef (hostSetsBaseUrl normalizeBaseUrl v s) = pendingBaseRef s.
Proof.
  unfold hostSetsBaseUrl. destruct (negb (isMountedRef s)); [reflexivity|].
  destruct (String.eqb (cloudReasoningBaseUrl s) v);
    destruct (String.eqb (normalizeBaseUrl (cloudReasoningBaseUrl s)) (normalizeBaseUrl v));
    reflexivity.
Qed.

Lemma live_validateAndFetch (inv : Invocation) (s s' : State) (o : Outcome)
      (pool : list Suspended) :
  validateAndFetch buildApiUrl inv s = (s', o) ->
  pendingBaseRef s = Some (normalizedBase inv) ->
  markerIsLive s' (enqueue pool o) = true.
Proof.
  unfold validateAndFetch. intros H Hp.
  assert (Hr : forall m, pendingBaseRef (rejectWith (normalizedBase inv) m s) = None).
  { intros m. rewrite rejectWith_pending, Hp. simpl. now rewrite String.eqb_refl. }
  destruct (negb (JsString.includes (normalizedBase inv) "://"));
    [|destruct (negb (transportAllowed (normalizedBase inv)))];
    injection H as <- <-; try (apply markerIsLive_none; apply Hr).
  cbn [enqueue]. apply markerIsLive_new. exact Hp.
Qed.

Lemma live_load (baseOverride : option string) (force : bool) (s s' : State)
      (o : Outcome) (pool : list Suspended) :
  load baseOverride force s = (s', o) ->
  markerIsLive s pool = true ->
  markerIsLive s' (enqueue pool o) = true.
Proof.
  intros H Hs.
  destruct (JsString.truthy (normalizeBaseUrl (rawBaseOf baseOverride s))) eqn:Ht.
  2:{ rewrite (load_empty _ _ _ _ _ Ht) in H. injection H as <- <-.
      cbn [enqueue]. rewrite <- Hs. apply markerIsLive_same.
      destruct (isMountedRef s); reflexivity. }
  destruct (accepted (normalizeBaseUrl (rawBaseOf baseOverride s)) force s) eqn:Hacc.
  2:{ rewrite (load_not_accepted _ _ _ _ _ Hacc Ht) in H. now injection H as <- <-. }
  rewrite (load_accepted _ _ _ _ _ Hacc) in H. cbv zeta in H.
  destruct (entered_refs baseOverride (normalizeBaseUrl (rawBaseOf baseOverride s)) s)
    as (_ & _ & _ & Hpend).
  destruct (JsString.truthy (keyFromStateOf s)).
  - eapply live_validateAndFetch; [exact H|exact Hpend].
  - injection H as <- <-. cbn [enqueue]. apply markerIsLive_new. exact Hpend.
Qed.

(** A settlement that ends its invocation releases the marker of its own
    base and no other. *)
Lemma settlement_returns_pending (k : Suspended) (r : Resolution) (s s' : State) :
  resumes buildApiUrl k r s s' Returned ->
  pendingBaseRef s'
  = if refIs (pendingBaseRef s) (normalizedBase (invocationOf k))
    then None else pendingBaseRef s.
Proof.
  intros H. inversion H as [inv r0 s0 s0' o0 Hs|inv r0 s0 s0' o0 Hs
                            |inv st stt b s0 s0' o0 Hs|inv b s0 s0' o0 Hs]; subst;
    cbn [invocationOf].
  - destruct r0 as [key|m]; simpl in Hs.
    + unfold validateAndFetch in Hs. cbn [normalizedBase] in Hs.
      destruct (negb (JsString.includes (normalizedBase inv) "://"));
        [|destruct (negb (transportAllowed (normalizedBase inv)))];
        try discriminate Hs; injection Hs as <-; apply rejectWith_pending.
    + injection Hs as <-. rewrite finallyBlock_pending.
      destruct (catchBlock_refs (normalizedBase inv) (apiKey inv) m s) as (_ & _ & -> & _).
      reflexivity.
  - destruct r0 as [st stt|m]; simpl in Hs.
    + destruct (responseOk st); discriminate Hs.
    + injection Hs as <-. rewrite finallyBlock_pending.
      destruct (catchBlock_refs (normalizedBase inv) (apiKey inv) m s) as (_ & _ & -> & _).
      reflexivity.
  - unfold resumeText in Hs. injection Hs as <-. rewrite finallyBlock_pending.
    match goal with |- context [catchBlock ?a ?b ?c s] =>
      destruct (catchBlock_refs a b c s) as (_ & _ & -> & _) end.
    reflexivity.
  - unfold resumeJson in Hs. injection Hs as <-. rewrite finallyBlock_pending.
    match goal with |- context [applyModels ?a ?b s] =>
      destruct (applyModels_refs a b s) as (_ & _ & -> & _) end.
    reflexivity.
Qed.

Lemma live_settleAt (i : nat) (r : Resolution) (pool pool' : list Suspended) (s s' : State) :
  settleAt buildApiUrl i r pool s = (s', pool') ->
  markerIsLive s pool = true ->
  markerIsLive s' pool' = true.
Proof.
  intros H Hs.
  destruct (settleAt_spec r pool i s s' pool' H)
    as [[-> ->]|(pre & k & post & o & -> & Hres & ->)]; [exact Hs|].
  unfold markerIsLive in *. destruct o as [|k'].
  - rewrite (settlement_returns_pending k r s s' Hres).
    destruct (pendingBaseRef s) as [nb|]; [|reflexivity]. cbn [refIs].
    rewrite existsb_app in Hs. cbn [existsb] in Hs. rewrite String.eqb_sym in Hs.
    destruct (String.eqb nb (normalizedBase (invocationOf k))); [reflexivity|].
    rewrite existsb_app. exact Hs.
  - destruct (settlement_suspends buildApiUrl k r s s' k' Hres) as (Hb & Hp & _).
    rewrite Hp. destruct (pendingBaseRef s) as [nb|]; [|reflexivity].
    rewrite existsb_app in *. cbn [existsb] in *. now rewrite Hb.
Qed.

Lemma live_step (w : World) (e : Event) :
  markerIsLive (component w) (suspended w) = true ->
  markerIsLive (component (step normalizeBaseUrl buildApiUrl w e))
               (suspended (step normalizeBaseUrl buildApiUrl w e)) = true.
Proof.
  intros Hs. destruct e as [ov force|i r|v|v|v|text|]; cbn [step].
  - destruct (load ov force (component w)) as [s' o] eqn:H.
    pose proof (live_load _ _ _ _ _ _ H Hs) as Hl. destruct o; exact Hl.
  - destruct (settleAt buildApiUrl i r (suspended w) (component w)) as [s' pool'] eqn:H.
    cbn [component suspended]. eapply live_settleAt; eauto.
  - cbn [component suspended]. rewrite <- Hs. apply markerIsLive_same.
    apply hostSetsBaseUrl_pending.
  - exact Hs.
  - exact Hs.
  - exact Hs.
  - exact Hs.
Qed.

Lemma live_loadAndStore (b : string) (s s' : State) (o : Outcome) (pool : list Suspended) :
  loadAndStore normalizeBaseUrl buildApiUrl b s = (s', o) ->
  markerIsLive s pool = true ->
  markerIsLive s' (enqueue pool o) = true.
Proof.
  unfold loadAndStore. intros H Hs.
  destruct (load (Some b) true (setLastLoadedBase None (setCustomBaseInput b s)))
    as [s3 o3] eqn:Hcall.
  injection H as <- <-.
  rewrite (markerIsLive_same s3 _ _ (hostSetsBaseUrl_pending b s3)).
  eapply live_load; [exact Hcall|exact Hs].
Qed.

Lemma live_refresh (s s' : State) (o : Outcome) (pool : list Suspended) :
  handleRefreshCustomModels normalizeBaseUrl buildApiUrl s = (s', o) ->
  markerIsLive s pool = true ->
  markerIsLive s' (enqueue pool o) = true.
Proof.
  unfold handleRefreshCustomModels. intros H Hs.
  destruct (isCustomBaseDirty (customBaseInput s) (cloudReasoningBaseUrl s)).
  - rewrite handleApplyCustomBase_eq in H. eapply live_loadAndStore; eauto.
  - destruct (negb (JsString.truthy (trimmedCustomBase s))).
    + now injection H as <- <-.
    + eapply live_load; eauto.
Qed.

Lemma live_tab (provider : string) (p p' : Panel) (o : Outcome) (pool : list Suspended) :
  handleCloudProviderChange normalizeBaseUrl buildApiUrl providerModels provider p = (p', o) ->
  markerIsLive (loaderState p) pool = true ->
  markerIsLive (loaderState p') (enqueue pool o) = true.
Proof.
  unfold handleCloudProviderChange. intros H Hs.
  destruct (String.eqb provider "custom").
  - destruct (customModelOptions (loaderState p)) as [|first rest] eqn:Hopts.
    + destruct (hasCustomBase normalizeBaseUrl (loaderState p)).
      * match type of H with (let '(_, _) := ?c in _) = _ => destruct c as [s1 o1] eqn:Hcall end.
        injection H as <- <-. cbn [loaderState].
        eapply live_load; [exact Hcall|]. now apply markerIsLive_none.
      * injection H as <- <-. now apply markerIsLive_none.
    + injection H as <- <-. now apply markerIsLive_none.
  - destruct (providerModels provider); injection H as <- <-; exact Hs.
Qed.

Lemma live_autoLoad (p p' : Panel) (o : Outcome) (pool : list Suspended) :
  autoLoadEffect normalizeBaseUrl buildApiUrl p = (p', o) ->
  markerIsLive (loaderState p) pool = true ->
  markerIsLive (loaderState p') (enqueue pool o) = true.
Proof.
  unfold autoLoadEffect. intros H Hs.
  destruct (negb (String.eqb (selectedCloudProvider p) "custom")).
  { now injection H as <- <-. }
  destruct (negb (hasCustomBase normalizeBaseUrl (loaderState p))).
  { injection H as <- <-. exact Hs. }
  cbv zeta in H.
  destruct (negb (JsString.truthy (normalizeBaseUrl (cloudReasoningBaseUrl (loaderState p))))).
  { now injection H as <- <-. }
  destruct (refIs (pendingBaseRef (loaderState p)) _ || refIs (lastLoadedBaseRef (loaderState p)) _).
  { now injection H as <- <-. }
  destruct (load None false (loaderState p)) as [s1 o1] eqn:Hcall.
  injection H as <- <-. cbn [loaderState withLoaderState]. eapply live_load; eauto.
Qed.

Lemma live_stepPanel (w : PanelWorld) (a : Action) :
  markerIsLive (loaderState (panel w)) (inFlight w) = true ->
  markerIsLive (loaderState (panel (stepP w a))) (inFlight (stepP w a)) = true.
Proof.
  intros Hs. destruct a as [| |provider| |e]; cbn [stepPanel].
  - destruct (negb (isMountedRef (loaderState (panel w))) || negb (onCustomTab (panel w)));
      [exact Hs|].
    destruct (handleResetCustomBase normalizeBaseUrl buildApiUrl OPENAI_BASE
                (loaderState (panel w))) as [s' o] eqn:H.
    cbn [panel inFlight loaderState withLoaderState].
    rewrite handleResetCustomBase_eq in H. eapply live_loadAndStore; eauto.
  - destruct (negb (isMountedRef (loaderState (panel w))) || negb (onCustomTab (panel w))
              || refreshDisabled (loaderState (panel w))); [exact Hs|].
    destruct (handleRefreshCustomModels normalizeBaseUrl buildApiUrl
                (loaderState (panel w))) as [s' o] eqn:H.
    cbn [panel inFlight loaderState withLoaderState]. eapply live_refresh; eauto.
  - destruct (negb (isMountedRef (loaderState (panel w)))); [exact Hs|].
    destruct (handleCloudProviderChange normalizeBaseUrl buildApiUrl providerModels
                provider (panel w)) as [p' o] eqn:H.
    cbn [panel inFlight]. eapply live_tab; eauto.
  - destruct (negb (isMountedRef (loaderState (panel w)))); [exact Hs|].
    destruct (autoLoadEffect normalizeBaseUrl buildApiUrl (panel w)) as [p' o] eqn:H.
    cbn [panel inFlight]. eapply live_autoLoad; eauto.
  - cbn [panel inFlight loaderState withLoaderState].
    apply (live_step {| component := loaderState (panel w); suspended := inFlight w |} e Hs).
Qed.

Lemma live_runPanel (actions : list Action) : forall w : PanelWorld,
  markerIsLive (loaderState (panel w)) (inFlight w) = true ->
  markerIsLive (loaderState (panel (runP actions w))) (inFlight (runP actions w)) = true.
Proof.
  unfold runPanel. induction actions as [|a actions IH]; intros w Hs; simpl.
  - exact Hs.
  - apply IH. now apply live_stepPanel.
Qed.

(** X17.  The pending marker is never left behind.  At every moment of
    every run of the panel from its mount, a base held by the pending
    marker is the base of an invocation that is still suspended at one of
    its awaits: the marker cannot outlive the call that set it, so the
    duplicate guard of line 206 only ever answers for a call that is
    under way. *)
Theorem pending_marker_is_never_left_behind :
  forall (baseUrl key : string) (model : JsValue) (provider : string)
         (actions : list Action) (w : PanelWorld) (nb : string),
    w = runP actions {| panel := mountPanel normalizeBaseUrl baseUrl key model provider;
                        inFlight := [] |} ->
    pendingBaseRef (loaderState (panel w)) = Some nb ->
    exists k, In k (inFlight w) /\ normalizedBase (invocationOf k) = nb.
Proof.
  intros baseUrl key model provider actions w nb -> Hp.
  pose proof (live_runPanel actions
                {| panel := mountPanel normalizeBaseUrl baseUrl key model provider;
                   inFlight := [] |} eq_refl) as Hl.
  unfold markerIsLive in Hl. rewrite Hp in Hl.
  apply existsb_exists in Hl as (k & Hin & Hk).
  exists k. split; [exact Hin|]. now apply String.eqb_eq.
Qed.

(** *** The latest requested base *)

Lemma inSync_same (s s' : State) :
  latestReasoningBaseRef s' = latestReasoningBaseRef s ->
  cloudReasoningBaseUrl s' = cloudReasoningBaseUrl s ->
  inSync normalizeBaseUrl s -> inSync normalizeBaseUrl s'.
Proof. unfold inSync. now intros -> ->. Qed.

Lemma hostSetsBaseUrl_sync (v : string) (s : State) :
  inSync normalizeBaseUrl s -> inSync normalizeBaseUrl (hostSetsBaseUrl normalizeBaseUrl v s).
Proof.
  unfold inSync, hostSetsBaseUrl. intros Hs.
  destruct (negb (isMountedRef s)); [exact Hs|].
  destruct (String.eqb (normalizeBaseUrl (cloudReasoningBaseUrl s)) (normalizeBaseUrl v)) eqn:E.
  - apply String.eqb_eq in E.
    destruct (String.eqb (cloudReasoningBaseUrl s) v); simpl; congruence.
  - destruct (String.eqb (cloudReasoningBaseUrl s) v); reflexivity.
Qed.

(** The prop arrives after a call with an override for the same base. *)
Lemma hostSetsBaseUrl_catches_up (v : string) (s : State) :
  isMountedRef s = true ->
  latestReasoningBaseRef s = normalizeBaseUrl (cloudReasoningBaseUrl s)
  \/ latestReasoningBaseRef s = normalizeBaseUrl v ->
  inSync normalizeBaseUrl (hostSetsBaseUrl normalizeBaseUrl v s).
Proof.
  unfold inSync, hostSetsBaseUrl. intros Hm Hs. rewrite Hm. cbn [negb].
  destruct (String.eqb (normalizeBaseUrl (cloudReasoningBaseUrl s)) (normalizeBaseUrl v)) eqn:E.
  - apply String.eqb_eq in E.
    destruct (String.eqb (cloudReasoningBaseUrl s) v); simpl; destruct Hs; congruence.
  - destruct (String.eqb (cloudReasoningBaseUrl s) v); reflexivity.
Qed.

Lemma validateAndFetch_latest (inv : Invocation) (s s' : State) (o : Outcome) :
  validateAndFetch buildApiUrl inv s = (s', o) ->
  latestReasoningBaseRef s' = latestReasoningBaseRef s.
Proof. intros H. now destruct (validateAndFetch_refs buildApiUrl inv s s' o H). Qed.

Lemma load_latest (baseOverride : option string) (force : bool) (s s' : State) (o : Outcome) :
  load baseOverride force s = (s', o) ->
  latestReasoningBaseRef s' = latestReasoningBaseRef s
  \/ exists b, baseOverride = Some b /\ latestReasoningBaseRef s' = normalizeBaseUrl b.
Proof.
  intros H.
  destruct (JsString.truthy (normalizeBaseUrl (rawBaseOf baseOverride s))) eqn:Ht.
  2:{ rewrite (load_empty _ _ _ _ _ Ht) in H. injection H as <- <-.
      left. destruct (isMountedRef s); reflexivity. }
  destruct (accepted (normalizeBaseUrl (rawBaseOf baseOverride s)) force s) eqn:Hacc.
  2:{ rewrite (load_not_accepted _ _ _ _ _ Hacc Ht) in H. injection H as <- <-. now left. }
  rewrite (load_accepted _ _ _ _ _ Hacc) in H. cbv zeta in H.
  destruct (entered_refs baseOverride (normalizeBaseUrl (rawBaseOf baseOverride s)) s)
    as (_ & Hlat & _).
  assert (Hs' : latestReasoningBaseRef s'
                = latestReasoningBaseRef
                    (entered baseOverride (normalizeBaseUrl (rawBaseOf baseOverride s)) s)).
  { destruct (JsString.truthy (keyFromStateOf s)).
    - eapply validateAndFetch_latest; exact H.
    - now injection H as <- <-. }
  rewrite Hs', Hlat. destruct baseOverride as [b|]; [right; exists b|left]; auto.
Qed.

Lemma load_prop_sync (force : bool) (s s' : State) (o : Outcome) :
  load None force s = (s', o) -> inSync normalizeBaseUrl s -> inSync normalizeBaseUrl s'.
Proof.
  intros H Hs.
  destruct (load_surroundings _ _ _ _ _ _ _ H) as (_ & Hprop & _).
  destruct (load_latest _ _ _ _ _ H) as [Hl|(b & Hb & _)]; [|discriminate].
  eapply inSync_same; eauto.
Qed.

Lemma resumes_sync (k : Suspended) (r : Resolution) (s s' : State) (o : Outcome) :
  resumes buildApiUrl k r s s' o -> inSync normalizeBaseUrl s -> inSync normalizeBaseUrl s'.
Proof.
  intros H. destruct (settlement_refs buildApiUrl k r s s' o H) as (Hl & _).
  destruct (settlement_surroundings buildApiUrl k r s s' o H) as (_ & Hprop & _).
  now apply inSync_same.
Qed.

Lemma loadAndStore_sync (b : string) (s s' : State) (o : Outcome) :
  isMountedRef s = true ->
  loadAndStore normalizeBaseUrl buildApiUrl b s = (s', o) -> inSync normalizeBaseUrl s -> inSync normalizeBaseUrl s'.
Proof.
  unfold loadAndStore. intros Hm H Hs.
  destruct (load (Some b) true (setLastLoadedBase None (setCustomBaseInput b s)))
    as [s3 o3] eqn:Hcall.
  injection H as <- <-.
  destruct (load_surroundings _ _ _ _ _ _ _ Hcall) as (_ & Hprop & _ & Hmount).
  apply hostSetsBaseUrl_catches_up.
  - rewrite Hmount. exact Hm.
  - destruct (load_latest _ _ _ _ _ Hcall) as [Hl|(b' & Hb & Hl)].
    + left. rewrite Hl, Hprop. exact Hs.
    + right. injection Hb as <-. exact Hl.
Qed.

Lemma sync_stepPanel (w : PanelWorld) (a : Action) :
  foreignCall a = false ->
  inSync normalizeBaseUrl (loaderState (panel w)) ->
  inSync normalizeBaseUrl (loaderState (panel (stepP w a))).
Proof.
  intros Hf Hs. destruct a as [| |provider| |e]; cbn [stepPanel].
  - destruct (isMountedRef (loaderState (panel w))) eqn:Hm; [|exact Hs]. cbn [negb orb].
    destruct (negb (onCustomTab (panel w))); [exact Hs|].
    destruct (handleResetCustomBase normalizeBaseUrl buildApiUrl OPENAI_BASE
                (loaderState (panel w))) as [s' o] eqn:H.
    cbn [panel loaderState withLoaderState].
    rewrite handleResetCustomBase_eq in H. eapply loadAndStore_sync; eauto.
  - destruct (isMountedRef (loaderState (panel w))) eqn:Hm; [|exact Hs]. cbn [negb orb].
    destruct (negb (onCustomTab (panel w)) || refreshDisabled (loaderState (panel w)));
      [exact Hs|].
    destruct (handleRefreshCustomModels normalizeBaseUrl buildApiUrl
                (loaderState (panel w))) as [s' o] eqn:H.
    cbn [panel loaderState withLoaderState].
    unfold handleRefreshCustomModels in H.
    destruct (isCustomBaseDirty _ _).
    + rewrite handleApplyCustomBase_eq in H. eapply loadAndStore_sync; eauto.
    + destruct (negb (JsString.truthy (trimmedCustomBase (loaderState (panel w))))).
      * now injection H as <- <-.
      * eapply load_prop_sync; eauto.
  - destruct (negb (isMountedRef (loaderState (panel w)))); [exact Hs|].
    destruct (handleCloudProviderChange normalizeBaseUrl buildApiUrl providerModels
                provider (panel w)) as [p' o] eqn:H.
    cbn [panel]. unfold handleCloudProviderChange in H.
    destruct (String.eqb provider "custom").
    + destruct (customModelOptions (loaderState (panel w))).
      * destruct (hasCustomBase normalizeBaseUrl (loaderState (panel w))).
        -- match type of H with (let '(_, _) := ?c in _) = _ =>
             destruct c as [s1 o1] eqn:Hcall end.
           injection H as <- <-. cbn [loaderState].
           eapply load_prop_sync; [exact Hcall|exact Hs].
        -- injection H as <- <-. exact Hs.
      * injection H as <- <-. exact Hs.
    + destruct (providerModels provider); injection H as <- <-; exact Hs.
  - destruct (negb (isMountedRef (loaderState (panel w)))); [exact Hs|].
    destruct (autoLoadEffect normalizeBaseUrl buildApiUrl (panel w)) as [p' o] eqn:H.
    cbn [panel]. unfold autoLoadEffect in H.
    destruct (negb (String.eqb (selectedCloudProvider (panel w)) "custom")).
    { now injection H as <- <-. }
    destruct (negb (hasCustomBase normalizeBaseUrl (loaderState (panel w)))).
    { injection H as <- <-. exact Hs. }
    cbv zeta in H.
    destruct (negb (JsString.truthy _)).
    { now injection H as <- <-. }
    destruct (refIs _ _ || refIs _ _).
    { now injection H as <- <-. }
    destruct (load None false (loaderState (panel w))) as [s1 o1] eqn:Hcall.
    injection H as <- <-. cbn [loaderState withLoaderState].
    eapply load_prop_sync; eauto.
  - cbn [panel loaderState withLoaderState].
    destruct e as [ov force|i r|v|v|v|text|]; cbn [step component suspended]; try exact Hs.
    + discriminate Hf.
    + destruct (settleAt buildApiUrl i r (inFlight w) (loaderState (panel w)))
        as [s' pool'] eqn:H. cbn [component].
      destruct (settleAt_spec r _ i _ s' pool' H)
        as [[-> _]|(pre & k & post & o & _ & Hres & _)]; [exact Hs|].
      eapply resumes_sync; eauto.
    + now apply hostSetsBaseUrl_sync.
Qed.

Lemma sync_runPanel (actions : list Action) : forall w : PanelWorld,
  existsb foreignCall actions = false ->
  inSync normalizeBaseUrl (loaderState (panel w)) ->
  inSync normalizeBaseUrl (loaderState (panel (runP actions w))).
Proof.
  unfold runPanel. induction actions as [|a actions IH]; intros w Hf Hs; simpl.
  - exact Hs.
  - simpl in Hf. apply orb_false_iff in Hf as [Ha Hrest].
    apply IH; [exact Hrest|]. now apply sync_stepPanel.
Qed.

(** X18.  The latest requested base follows the prop.  In every run of the
    panel from its mount in which the loader is called from the
    component's own call sites only (the effect, Reset, Refresh and the
    tabs), and with a host that stores the base Apply and Reset hand it,
    the latest requested base is, after every step, the normalized
    [cloudReasoningBaseUrl]. *)
Theorem latest_base_follows_the_prop :
  forall (baseUrl key : string) (model : JsValue) (provider : string)
         (actions : list Action) (w : PanelWorld),
    existsb foreignCall actions = false ->
    w = runP actions {| panel := mountPanel normalizeBaseUrl baseUrl key model provider;
                        inFlight := [] |} ->
    latestReasoningBaseRef (loaderState (panel w))
    = normalizeBaseUrl (cloudReasoningBaseUrl (loaderState (panel w))).
Proof.
  intros baseUrl key model provider actions w Hf ->.
  apply (sync_runPanel actions); [exact Hf|]. reflexivity.
Qed.

End PanelInvariants.

(* ================================================================== *)
(** ** De-duplication in the panel *)


Section LoaderDedup.

Variable normalizeBaseUrl : string -> string.
Variable buildApiUrl : string -> string -> string.
Variable OPENAI_BASE : string.
Variable providerModels : string -> list CloudModelOption.

Local Abbreviation load := (loadRemoteModels normalizeBaseUrl buildApiUrl).
Local Abbreviation baseOf ov s := (normalizeBaseUrl (rawBaseOf ov s)).
Local Abbreviation stepP := (stepPanel normalizeBaseUrl buildApiUrl OPENAI_BASE providerModels).
Local Abbreviation runP := (runPanel normalizeBaseUrl buildApiUrl OPENAI_BASE providerModels).






End LoaderDedup.

(* ================================================================== *)
(** ** The handlers and the panel on concrete runs *)

Lemma apply_and_reset_always_reload_witness :
  cloudReasoningBaseUrl
    (fst (handleApplyCustomBase specNormalizeBaseUrl specBuildApiUrl typedB)) = baseB
  /\ fetchLog (fst (handleApplyCustomBase specNormalizeBaseUrl specBuildApiUrl typedB))
     = [ {| req_url := "https://b.example/v1/models";
            req_authorization := Some "Bearer sk-test" |} ].
Proof.
  destruct (apply_and_reset_always_reload specNormalizeBaseUrl specBuildApiUrl
              exampleDefaultBase typedB
              (fst (handleApplyCustomBase specNormalizeBaseUrl specBuildApiUrl typedB))
              (snd (handleApplyCustomBase specNormalizeBaseUrl specBuildApiUrl typedB))
              baseB)
    as (Hprop & _ & _ & _ & _ & Hfetch).
  - evaluate.
  - left. split; evaluate.
  - split; [exact Hprop|].
    destruct Hfetch as (Hlog & _); [evaluate | evaluate | differ |].
    rewrite Hlog. evaluate.
Defined.

Lemma refresh_button_always_reaches_the_loader_witness :
  refreshDisabled (setCustomBaseInput "" (withCloudReasoningBaseUrl "" mountedOnA)) = true
  /\ fetchLog (fst (handleRefreshCustomModels specNormalizeBaseUrl specBuildApiUrl loadedOnA))
     = {| req_url := "https://a.example/v1/models";
          req_authorization := Some "Bearer sk-test" |} :: fetchLog loadedOnA.
Proof.
  destruct (refresh_button_always_reaches_the_loader specNormalizeBaseUrl specBuildApiUrl)
    as (Hoff & _ & Hforce).
  split.
  - apply Hoff. right. split; evaluate.
  - rewrite (Hforce loadedOnA
               (fst (handleRefreshCustomModels specNormalizeBaseUrl specBuildApiUrl loadedOnA))
               (snd (handleRefreshCustomModels specNormalizeBaseUrl specBuildApiUrl loadedOnA))).
    + evaluate.
    + evaluate.
    + evaluate.
    + evaluate.
    + evaluate.
    + differ.
    + evaluate.
Defined.

Lemma auto_load_effect_is_idempotent_witness :
  snd (autoLoadEffect specNormalizeBaseUrl specBuildApiUrl
         (fst (autoLoadEffect specNormalizeBaseUrl specBuildApiUrl customTabOnA)))
  = Returned
  /\ fetchLog
       (loaderState
          (fst (autoLoadEffect specNormalizeBaseUrl specBuildApiUrl
                  (fst (autoLoadEffect specNormalizeBaseUrl specBuildApiUrl customTabOnA)))))
     = [ {| req_url := "https://a.example/v1/models";
            req_authorization := Some "Bearer sk-test" |} ].
Proof.
  destruct (auto_load_effect_is_idempotent specNormalizeBaseUrl specBuildApiUrl)
    as (_ & _ & Htwice).
  destruct (Htwice customTabOnA
              (fst (autoLoadEffect specNormalizeBaseUrl specBuildApiUrl customTabOnA))
              (fst (autoLoadEffect specNormalizeBaseUrl specBuildApiUrl
                      (fst (autoLoadEffect specNormalizeBaseUrl specBuildApiUrl customTabOnA))))
              (snd (autoLoadEffect specNormalizeBaseUrl specBuildApiUrl customTabOnA))
              (snd (autoLoadEffect specNormalizeBaseUrl specBuildApiUrl
                      (fst (autoLoadEffect specNormalizeBaseUrl specBuildApiUrl customTabOnA)))))
    as (Hret & Hlog).
  - evaluate.
  - evaluate.
  - split; [exact Hret|]. rewrite Hlog. evaluate.
Defined.

Lemma loading_flag_excludes_error_and_models_witness :
  customModelsError (loaderState (panel (examplePanelRun [RunAutoLoad]))) = None
  /\ customModelOptions (loaderState (panel (examplePanelRun [RunAutoLoad]))) = [].
Proof.
  apply (loading_flag_excludes_error_and_models specNormalizeBaseUrl specBuildApiUrl
           exampleDefaultBase emptyRegistry baseA "sk-test" (JsString "m0") "custom"
           [RunAutoLoad]).
  - reflexivity.
  - evaluate.
Defined.

Lemma pending_marker_is_never_left_behind_witness :
  exists k,
    In k (inFlight (examplePanelRun [Environment (EditBaseInput baseB); ClickRefresh]))
    /\ normalizedBase (invocationOf k) = baseB.
Proof.
  apply (pending_marker_is_never_left_behind specNormalizeBaseUrl specBuildApiUrl
           exampleDefaultBase emptyRegistry baseA "sk-test" (JsString "m0") "custom"
           [Environment (EditBaseInput baseB); ClickRefresh]).
  - reflexivity.
  - evaluate.
Defined.

Lemma latest_base_follows_the_prop_witness :
  latestReasoningBaseRef
    (loaderState
       (panel (examplePanelRun
                 [ RunAutoLoad; Environment (EditBaseInput baseB); ClickReset;
                   Environment (Settle 0 (OfFetch (FetchResponse 200 "OK")));
                   Environment (HostSetsBaseUrl baseB); RunAutoLoad ])))
  = baseB.
Proof.
  rewrite (latest_base_follows_the_prop specNormalizeBaseUrl specBuildApiUrl
             exampleDefaultBase emptyRegistry baseA "sk-test" (JsString "m0") "custom"
             [ RunAutoLoad; Environment (EditBaseInput baseB); ClickReset;
               Environment (Settle 0 (OfFetch (FetchResponse 200 "OK")));
               Environment (HostSetsBaseUrl baseB); RunAutoLoad ]
             (examplePanelRun
                [ RunAutoLoad; Environment (EditBaseInput baseB); ClickReset;
                  Environment (Settle 0 (OfFetch (FetchResponse 200 "OK")));
                  Environment (HostSetsBaseUrl baseB); RunAutoLoad ])).
  - evaluate.
  - reflexivity.
  - reflexivity.
Defined.


Lemma displayed_list_from_edit_to_response_witness :
  displayedOf typedB = []
  /\ displayedOf (fst (handleApplyCustomBase specNormalizeBaseUrl specBuildApiUrl typedB)) = []
  /\ displayedOf
       (fst (resumeJson invocationB (Some payloadM1)
               (fst (handleApplyCustomBase specNormalizeBaseUrl specBuildApiUrl typedB))))
     = [optionM1].
Proof.
  destruct (displayed_list_from_edit_to_response specNormalizeBaseUrl specBuildApiUrl)
    as (Hedit & Happly & Hresponse).
  split; [|split].
  - apply (Hedit mountedOnA "  https://b.example/v1 "). differ.
  - apply (Happly typedB _ (snd (handleApplyCustomBase specNormalizeBaseUrl specBuildApiUrl
                                   typedB))).
    + evaluate.
    + evaluate.
  - destruct (Hresponse invocationB (Some payloadM1)
                (fst (handleApplyCustomBase specNormalizeBaseUrl specBuildApiUrl typedB))
                (fst (resumeJson invocationB (Some payloadM1)
                        (fst (handleApplyCustomBase specNormalizeBaseUrl specBuildApiUrl
                                typedB))))
                Returned) as (_ & Hshown).
    + apply resumes_json. evaluate.
    + evaluate.
    + rewrite Hshown. evaluate.
Defined.

Lemma switch_to_custom_tab_sends_one_request_witness :
  List.length (fetchLog loadedOnA) = 1
  /\ fetchLog
       (loaderState
          (fst (fst (switchTab specNormalizeBaseUrl specBuildApiUrl emptyRegistry
                       "custom" loadedOnOpenaiTab))))
     = [ {| req_url := "https://a.example/v1/models";
            req_authorization := Some "Bearer sk-test" |};
         {| req_url := "https://a.example/v1/models";
            req_authorization := Some "Bearer sk-test" |} ]
  /\ customModelOptions
       (loaderState
          (fst (fst (switchTab specNormalizeBaseUrl specBuildApiUrl emptyRegistry
                       "custom" loadedOnOpenaiTab))))
     = []
  /\ fetchLog
       (loaderState
          (fst (fst (switchTab specNormalizeBaseUrl specBuildApiUrl emptyRegistry
                       "custom" pendingOnOpenaiTab))))
     = [ {| req_url := "https://a.example/v1/models";
            req_authorization := Some "Bearer sk-test" |};
         {| req_url := "https://a.example/v1/models";
            req_authorization := Some "Bearer sk-test" |} ].
Proof.
  destruct (switch_to_custom_tab_sends_one_request specNormalizeBaseUrl specBuildApiUrl
              emptyRegistry) as (Hswitch & _).
  destruct (Hswitch loadedOnOpenaiTab
              (fst (fst (switchTab specNormalizeBaseUrl specBuildApiUrl emptyRegistry
                           "custom" loadedOnOpenaiTab)))
              (snd (fst (switchTab specNormalizeBaseUrl specBuildApiUrl emptyRegistry
                           "custom" loadedOnOpenaiTab)))
              (snd (switchTab specNormalizeBaseUrl specBuildApiUrl emptyRegistry
                      "custom" loadedOnOpenaiTab)))
    as (_ & Hlog & _ & _ & Hshown & _).
  { differ. } { evaluate. } { evaluate. } { differ. } { evaluate. }
  destruct (Hswitch pendingOnOpenaiTab
              (fst (fst (switchTab specNormalizeBaseUrl specBuildApiUrl emptyRegistry
                           "custom" pendingOnOpenaiTab)))
              (snd (fst (switchTab specNormalizeBaseUrl specBuildApiUrl emptyRegistry
                           "custom" pendingOnOpenaiTab)))
              (snd (switchTab specNormalizeBaseUrl specBuildApiUrl emptyRegistry
                      "custom" pendingOnOpenaiTab)))
    as (_ & Hlog2 & _).
  { differ. } { evaluate. } { evaluate. } { differ. } { evaluate. }
  split; [evaluate|]. split; [rewrite Hlog; evaluate|].
  split; [apply Hshown; evaluate|].
  rewrite Hlog2. evaluate.
Defined.
